(** * seo-content-agent: the content-generation pipeline, embedded in Rocq

    A shallow embedding of the orchestrator (src/agents/content-generator.ts),
    of the DataForSEO client's ranked-results fetch, of the constructors of
    the two generation-provider clients and of the streaming route handler,
    together with the properties the specification states about them.

    Conventions.
    - A JavaScript string is the list of its UTF-16 code units ([list N]);
      regular expressions without the [u] flag work on code units, so the
      matchers below are written over that list.
    - A call that can throw returns a [Result]; [try_catch] is the
      try/catch statement.
    - An async generator is the list of the events it yields followed by
      how it ends (normal return or a thrown value): [Gen].
    - Network collaborators and the process environment are the fields of a
      [World]; built-ins whose text is not part of the repository
      ([JSON.parse], [Number.prototype.toLocaleString]) and the prompt
      templates are section variables. *)

From Stdlib Require Import QArith Qround DecimalString Sorted.
From stdpp Require Import base numbers list strings gmap option.

Open Scope N_scope.

(** ** JavaScript strings *)

Abbreviation jsstring := (list N).

(** The code units of an ASCII literal. *)
Fixpoint js (s : string) : jsstring :=
  match s with
  | EmptyString => []
  | String a r => Ascii.N_of_ascii a :: js r
  end.

Definition LF : N := 10.

(** [`${n}`] for a non-negative integer: its decimal digits. *)
Definition decimal (n : nat) : jsstring :=
  js (NilEmpty.string_of_uint (Nat.to_uint n)).

(** [Array.prototype.join]. *)
Fixpoint join (sep : jsstring) (parts : list jsstring) : jsstring :=
  match parts with
  | [] => []
  | [p] => p
  | p :: rest => p ++ sep ++ join sep rest
  end.

(** ** Character classes of the regular expressions in the source *)

(** [\s]: WhiteSpace and LineTerminator of ECMAScript. *)
Definition is_ws (c : N) : bool :=
  ((9 <=? c) && (c <=? 13)) || (c =? 32) || (c =? 160) || (c =? 5760)
  || ((8192 <=? c) && (c <=? 8202)) || (c =? 8232) || (c =? 8233)
  || (c =? 8239) || (c =? 8287) || (c =? 12288) || (c =? 65279).

(** [\d]. *)
Definition is_digit (c : N) : bool := (48 <=? c) && (c <=? 57).

(** The class [[#*_`\[\]()]] of [countWords]. *)
Definition is_markdown_char (c : N) : bool :=
  (c =? 35) || (c =? 42) || (c =? 95) || (c =? 96)
  || (c =? 91) || (c =? 93) || (c =? 40) || (c =? 41).

(** Canonicalize of a non-unicode, ignore-case pattern, for the code units
    that can match an ASCII pattern character: a code unit of 128 or more
    never canonicalizes to an ASCII one, so only [a-z] is folded. *)
Definition canonicalize (c : N) : N :=
  if (97 <=? c) && (c <=? 122) then c - 32 else c.

Definition ci_eq (c p : N) : bool := canonicalize c =? canonicalize p.

(** ** countWords *)

(** [text.replace(/[#*_`\[\]()]/g, '')]. *)
Definition strip_markdown (text : jsstring) : jsstring :=
  filter (λ c, is_markdown_char c = false) text.

Definition starts_ws (s : jsstring) : bool :=
  match s with
  | c :: _ => is_ws c
  | [] => false
  end.

(** [s.split(/\s+/)]: the pieces between the maximal runs of white space; a
    run at either end leaves an empty piece there, and the empty string
    gives one empty piece. *)
Fixpoint split_ws (s : jsstring) : list jsstring :=
  match s with
  | [] => [[]]
  | c :: r =>
      if is_ws c then
        if starts_ws r then split_ws r else [] :: split_ws r
      else
        match split_ws r with
        | piece :: pieces => (c :: piece) :: pieces
        | [] => [[c]]
        end
  end.

(** [pieces.filter(word => word.length > 0).length]. *)
Definition count_nonempty (pieces : list jsstring) : nat :=
  length (filter (λ word : jsstring, (0 < length word)%nat) pieces).

Definition countWords (text : jsstring) : nat :=
  count_nonempty (split_ws (strip_markdown text)).

(** [Math.ceil(n / d)] for a non-negative integer [n].  The quotient is a
    double in the source; rounding cannot carry it across an integer for
    any length or count a string can reach, so the rational quotient is
    taken. *)
Definition ceil_div (n : nat) (d : positive) : Z := Qceiling (Z.of_nat n # d).

(** [`${Math.ceil(wordCount / 200)} min`]. *)
Definition readingTime_of (wordCount : nat) : jsstring :=
  decimal (Z.to_nat (ceil_div wordCount 200)) ++ js " min".

(** The word count in the words of the specification: the number of maximal
    runs of non-white-space characters. [after_ws] tells whether the
    previous character was white space (or the text starts here). *)
Fixpoint count_tokens (after_ws : bool) (s : jsstring) : nat :=
  match s with
  | [] => 0
  | c :: r =>
      if is_ws c then count_tokens true r
      else ((if after_ws then 1 else 0) + count_tokens false r)%nat
  end.

Definition spec_word_count (content : jsstring) : nat :=
  count_tokens true (filter (λ c, is_markdown_char c = false) content).

(** ** extractReferences *)

Record Reference := mkReference {
  ref_number : nat;
  ref_source : jsstring;
  ref_url : jsstring;
}.

Definition REFERENCES_HEADING : jsstring := js "## References".

(** Does the pattern match, ignoring case, at the start of [s]? *)
Fixpoint ci_prefix (pat s : jsstring) : bool :=
  match pat, s with
  | [], _ => true
  | _ :: _, [] => false
  | p :: pat', c :: s' => ci_eq c p && ci_prefix pat' s'
  end.

(** [content.match(/## References[\s\S]*$/i)]: the leftmost position where
    the heading text matches, and everything from there to the end. *)
Fixpoint match_ref_section (content : jsstring) : option jsstring :=
  if ci_prefix REFERENCES_HEADING content then Some content
  else
    match content with
    | [] => None
    | _ :: rest => match_ref_section rest
    end.

(** [s.split('\n')]. *)
Fixpoint split_lines (s : jsstring) : list jsstring :=
  match s with
  | [] => [[]]
  | c :: r =>
      if c =? LF then [] :: split_lines r
      else
        match split_lines r with
        | line :: lines => (c :: line) :: lines
        | [] => [[c]]
        end
  end.

Fixpoint skip_digits (s : jsstring) : jsstring :=
  match s with
  | c :: r => if is_digit c then skip_digits r else s
  | [] => []
  end.

(** [line.match(/^\d+\./)] as a truth value. *)
Definition numbered_line (line : jsstring) : bool :=
  match line with
  | c :: r =>
      is_digit c &&
      match skip_digits r with
      | d :: _ => d =? 46
      | [] => false
      end
  | [] => false
  end.

(** The longest prefix free of [stop], and what follows it. *)
Fixpoint span_until (stop : N) (s : jsstring) : jsstring * jsstring :=
  match s with
  | [] => ([], [])
  | c :: r =>
      if c =? stop then ([], s)
      else let '(pre, post) := span_until stop r in (c :: pre, post)
  end.

(** [\[([^\]]+)\]\(([^)]+)\)] tried right after an opening bracket. *)
Definition link_at (s : jsstring) : option (jsstring * jsstring) :=
  let '(label, rest) := span_until 93 s in
  match label, rest with
  | _ :: _, _ :: paren :: rest2 =>
      if paren =? 40 then
        let '(url, rest3) := span_until 41 rest2 in
        match url, rest3 with
        | _ :: _, _ :: _ => Some (label, url)
        | _, _ => None
        end
      else None
  | _, _ => None
  end.

(** [line.match(/\[([^\]]+)\]\(([^)]+)\)/)]: the leftmost match, as the
    pair of its two groups. *)
Fixpoint first_link (line : jsstring) : option (jsstring * jsstring) :=
  match line with
  | [] => None
  | c :: r =>
      if c =? 91 then
        match link_at r with
        | Some m => Some m
        | None => first_link r
        end
      else first_link r
  end.

(** The text of a link with the given label and target. *)
Definition link_text (label url : jsstring) : jsstring :=
  [91] ++ label ++ [93; 40] ++ url ++ [41].

(** The lines of the section that pass the [filter]. *)
Definition refLines_of (section_text : jsstring) : list jsstring :=
  filter (λ line, numbered_line line = true) (split_lines section_text).

(** The body of the [forEach]: one reference when the line has a link. *)
Definition reference_of_line (entry : nat * jsstring) : option Reference :=
  let '(index, line) := entry in
  match first_link line with
  | Some (label, url) => Some (mkReference (index + 1) label url)
  | None => None
  end.

(** The kept lines of a text: those of its references section, when it
    has one. *)
Definition kept_lines (content : jsstring) : list jsstring :=
  match match_ref_section content with
  | Some refSection => refLines_of refSection
  | None => []
  end.

Definition extractReferences (content : jsstring) : list Reference :=
  match match_ref_section content with
  | Some refSection => omap reference_of_line (imap pair (refLines_of refSection))
  | None => []
  end.

(** ** Exceptions *)

(** What a [throw] carries: an [Error] instance (its subclasses included,
    [name] telling them apart), the client's [DataForSEOError], or a value
    that is no [Error] at all. *)
Inductive Thrown :=
  | ThrownError (name message : jsstring)
  | ThrownDataForSEOError (message code : jsstring) (statusCode : option Z)
  | ThrownValue.

Inductive Result (A : Type) :=
  | Ok (a : A)
  | Throw (e : Thrown).
Arguments Ok {A} a.
Arguments Throw {A} e.

#[global] Instance result_ret : MRet Result := λ A a, Ok a.
#[global] Instance result_bind : MBind Result := λ A B f m,
  match m with
  | Ok a => f a
  | Throw e => Throw e
  end.

(** [try { body } catch (error) { handler }]. *)
Definition try_catch {A} (body : Result A) (handler : Thrown → Result A) : Result A :=
  match body with
  | Ok a => Ok a
  | Throw e => handler e
  end.

Definition new_Error (message : string) : Thrown :=
  ThrownError (js "Error") (js message).

Definition TypeError : Thrown :=
  ThrownError (js "TypeError") (js "Cannot read properties of undefined").

(** [error instanceof Error ? error.message : 'Unknown error']. *)
Definition message_of (e : Thrown) : jsstring :=
  match e with
  | ThrownError _ m => m
  | ThrownDataForSEOError m _ _ => m
  | ThrownValue => js "Unknown error"
  end.

(** ** JavaScript values

    What [JSON.parse] returns and the orchestrator passes on unchecked: the
    parsed plan and outline are typed by a cast only. *)
#[warnings="-register-all"]
Inductive JSValue :=
  | JUndefined
  | JNull
  | JBool (b : bool)
  | JNum (q : Q)
  | JStr (s : jsstring)
  | JArr (items : list JSValue)
  | JObj (fields : list (string * JSValue)).

Fixpoint assoc (k : string) (fields : list (string * JSValue)) : option JSValue :=
  match fields with
  | [] => None
  | (k', v) :: rest => if String.eqb k k' then Some v else assoc k rest
  end.

(** [v.k], for the property names the orchestrator reads: none of them is
    inherited from a prototype, so the value is the object's own property or
    [undefined]; reading a property of [undefined] or [null] throws. *)
Definition get (v : JSValue) (k : string) : Result JSValue :=
  match v with
  | JUndefined | JNull => Throw TypeError
  | JObj fields => Ok (default JUndefined (assoc k fields))
  | _ => Ok JUndefined
  end.

(** [v.map(k => k.keyword)]: only an array has a callable [map]. *)
Definition map_keyword (v : JSValue) : Result (list JSValue) :=
  match v with
  | JArr items => mapM (λ k, get k "keyword") items
  | _ => Throw TypeError
  end.

(** ** parseKeywordResearchResponse *)

Definition LBRACE : N := 123.
Definition RBRACE : N := 125.

(** The longest prefix of [s] that ends with a closing brace. *)
Fixpoint upto_last_rbrace (s : jsstring) : option jsstring :=
  match s with
  | [] => None
  | c :: r =>
      match upto_last_rbrace r with
      | Some pre => Some (c :: pre)
      | None => if c =? RBRACE then Some [c] else None
      end
  end.

(** [content.match(/\{[\s\S]*\}/)]: from the first opening brace to the
    last closing brace after it. *)
Fixpoint match_json_span (content : jsstring) : option jsstring :=
  match content with
  | [] => None
  | c :: r =>
      if c =? LBRACE then
        match upto_last_rbrace r with
        | Some body => Some (c :: body)
        | None => None
        end
      else match_json_span r
  end.

Definition num (z : Z) : JSValue := JNum (inject_Z z).

(** The fallback structure of [parseKeywordResearchResponse]. *)
Definition keyword_fallback (topic : jsstring) : JSValue :=
  JObj [
    ("primaryKeyword", JObj [
       ("keyword", JStr topic);
       ("searchVolume", num 1000);
       ("competition", JStr (js "medium"));
       ("competitionLevel", JStr (js "medium"));
       ("cpc", JNum (3 # 2));
       ("intent", JStr (js "informational"));
       ("aiCitationFormat", JStr (js "comprehensive guide"))]);
    ("secondaryKeywords", JArr []);
    ("longTailClusters", JArr []);
    ("questions", JArr []);
    ("contentStructure", JObj [
       ("h1", JStr topic);
       ("metaTitle", JStr topic);
       ("metaDescription", JStr (js "Learn about " ++ topic));
       ("targetWordCount", num 2500);
       ("sections", JArr [])]);
    ("competitiveAnalysis", JObj [
       ("totalKeywordsDiscovered", num 0);
       ("averageVolume", num 0);
       ("intentDistribution", JObj [
          ("informational", num 100);
          ("commercial", num 0);
          ("transactional", num 0)]);
       ("contentGaps", JArr [])])
  ].

Section Parsers.

(** [JSON.parse]: a value, or a thrown [SyntaxError]. *)
Variable JSON_parse : jsstring → Result JSValue.

(** The [try] block returns the parsed value when the span parses; a
    missing span falls out of the [if], a failed parse is caught, and
    both reach the fallback. *)
Definition parseKeywordResearchResponse (content topic : jsstring) : Result JSValue :=
  match
    try_catch
      (match match_json_span content with
       | Some span => v ← JSON_parse span; Ok (Some v)
       | None => Ok None
       end)
      (λ error, Ok None)
  with
  | Ok (Some parsed) => Ok parsed
  | Ok None => Ok (keyword_fallback topic)
  | Throw e => Throw e
  end.

(** The fallback structure of [parseOutlineResponse]; its metadata is read
    from the keyword research, which throws when a level is missing. *)
Definition outline_fallback (keywordResearch : JSValue) : Result JSValue :=
  primaryKeyword ← get keywordResearch "primaryKeyword";
  keyword ← get primaryKeyword "keyword";
  contentStructure ← get keywordResearch "contentStructure";
  h1 ← get contentStructure "h1";
  metaTitle ← get contentStructure "metaTitle";
  metaDescription ← get contentStructure "metaDescription";
  targetWordCount ← get contentStructure "targetWordCount";
  Ok (JObj [
    ("metadata", JObj [
       ("primaryKeyword", keyword);
       ("h1", h1);
       ("metaTitle", metaTitle);
       ("metaDescription", metaDescription);
       ("targetWordCount", targetWordCount)]);
    ("keyTakeaway", JObj [("mainAnswer", JStr []); ("bullets", JArr [])]);
    ("introduction", JObj [("paragraphs", JArr [])]);
    ("sections", JArr []);
    ("faq", JArr []);
    ("conclusion", JObj [("paragraphs", JArr [])]);
    ("citations", JArr [])
  ]).

Definition parseOutlineResponse (content : jsstring) (keywordResearch : JSValue)
  : Result JSValue :=
  match
    try_catch
      (match match_json_span content with
       | Some span => v ← JSON_parse span; Ok (Some v)
       | None => Ok None
       end)
      (λ error, Ok None)
  with
  | Ok (Some parsed) => Ok parsed
  | Ok None => outline_fallback keywordResearch
  | Throw e => Throw e
  end.

End Parsers.

(** ** The DataForSEO client *)

(** [a || b] on optional strings: [undefined] and [''] are falsy. *)
Definition str_or (a : option jsstring) (b : jsstring) : jsstring :=
  match a with
  | Some (c :: s) => c :: s
  | _ => b
  end.

(** [a || b] on optional numbers: [undefined] and [0] are falsy. *)
Definition num_or (a : option Z) (b : Z) : Z :=
  match a with
  | Some n => if (n =? 0)%Z then b else n
  | None => b
  end.

Record DataForSEOConfig := {
  dfs_login : jsstring;
  dfs_password : jsstring;
  dfs_baseUrl : jsstring;
}.

Record PartialDataForSEOConfig := {
  pdfs_login : option jsstring;
  pdfs_password : option jsstring;
  pdfs_baseUrl : option jsstring;
}.

Record DataForSEOClient := { dfs_config : DataForSEOConfig }.

Definition DEFAULT_BASE_URL : jsstring := js "https://api.dataforseo.com/v3".

Definition is_empty (s : jsstring) : bool :=
  match s with
  | [] => true
  | _ :: _ => false
  end.

Definition new_DataForSEOClient (env : gmap string jsstring)
    (config : option PartialDataForSEOConfig) : Result DataForSEOClient :=
  let cfg := {|
    dfs_login := str_or (config ≫= pdfs_login) (str_or (env !! "DATAFORSEO_LOGIN"%string) []);
    dfs_password := str_or (config ≫= pdfs_password) (str_or (env !! "DATAFORSEO_PASSWORD"%string) []);
    dfs_baseUrl := str_or (config ≫= pdfs_baseUrl) DEFAULT_BASE_URL;
  |} in
  if is_empty (dfs_login cfg) || is_empty (dfs_password cfg) then
    Throw (ThrownDataForSEOError (js "DataForSEO credentials not configured")
             (js "AUTH_ERROR") None)
  else Ok {| dfs_config := cfg |}.

(** The provider's item, with the fields [getSERPResults] reads and the two
    rank fields it ignores. *)
Record ProviderItem := {
  pi_type : jsstring;
  pi_rank_group : Z;
  pi_rank_absolute : Z;
  pi_domain : jsstring;
  pi_title : jsstring;
  pi_url : jsstring;
  pi_description : option jsstring;
}.

Record SERPTaskResult := {
  tr_keyword : jsstring;
  tr_se_results_count : Z;
  tr_items : option (list ProviderItem);
}.

(** [tasks], [tasks[0]], [result] and [result[0]] may each be missing or
    [null]: the source reaches through them with [?.]. *)
Record DataForSEOTask := {
  task_result : option (list (option SERPTaskResult));
}.

Record DataForSEOResponse := {
  resp_tasks : option (list (option DataForSEOTask));
}.

Record SERPTaskData := {
  td_keyword : jsstring;
  td_location_code : Z;
  td_language_code : jsstring;
  td_device : jsstring;
  td_depth : Z;
}.

Record SERPParams := {
  sp_keyword : jsstring;
  sp_locationCode : option Z;
  sp_languageCode : option jsstring;
  sp_depth : option Z;
}.

Record SERPItem := {
  si_rank : nat;
  si_url : jsstring;
  si_title : jsstring;
  si_description : jsstring;
  si_domain : jsstring;
}.

Record SERPResult := {
  sr_keyword : jsstring;
  sr_totalResults : Z;
  sr_items : list SERPItem;
}.

Record KeywordSuggestion := {
  ks_keyword : jsstring;
  ks_search_volume : Z;
  ks_competition_level : jsstring;
  ks_cpc : Q;
  ks_keyword_difficulty : Z;
}.

Definition is_organic (item : ProviderItem) : Prop := pi_type item = js "organic".

#[global] Instance is_organic_dec item : Decision (is_organic item) :=
  decide (pi_type item = js "organic").

(** The callback of the [map] in [getSERPResults]. *)
Definition to_serp_item (index : nat) (item : ProviderItem) : SERPItem := {|
  si_rank := index + 1;
  si_url := pi_url item;
  si_title := pi_title item;
  si_description := str_or (pi_description item) [];
  si_domain := pi_domain item;
|}.

(** [response.tasks?.[0]?.result?.[0]]. *)
Definition first_result (response : DataForSEOResponse) : option SERPTaskResult :=
  tasks ← resp_tasks response;
  task ← mjoin (tasks !! 0%nat);
  results ← task_result task;
  mjoin (results !! 0%nat).

(** [result.items?.filter(...).slice(0, 10).map(...) || []]. *)
Definition organicItems (items : option (list ProviderItem)) : list SERPItem :=
  match items with
  | Some items => imap to_serp_item (take 10 (filter is_organic items))
  | None => []
  end.

(** What [getSERPResults] does with the provider's response. *)
Definition serp_of_response (params : SERPParams) (response : DataForSEOResponse)
  : SERPResult :=
  match first_result response with
  | None => {| sr_keyword := sp_keyword params; sr_totalResults := 0; sr_items := [] |}
  | Some result =>
      {| sr_keyword := tr_keyword result;
         sr_totalResults := tr_se_results_count result;
         sr_items := organicItems (tr_items result) |}
  end.

(** The same provider items under another rank numbering. *)
Definition renumber (ranks : ProviderItem → Z * Z) (item : ProviderItem) : ProviderItem :=
  {| pi_type := pi_type item;
     pi_rank_group := fst (ranks item);
     pi_rank_absolute := snd (ranks item);
     pi_domain := pi_domain item;
     pi_title := pi_title item;
     pi_url := pi_url item;
     pi_description := pi_description item |}.

Definition renumber_all (ranks : ProviderItem → Z * Z)
    (items : option (list ProviderItem)) : option (list ProviderItem) :=
  match items with
  | Some items => Some (renumber ranks <$> items)
  | None => None
  end.

(** ** The generation-provider clients *)

Record AIConfig := {
  ai_apiKey : jsstring;
  ai_model : jsstring;
  ai_maxTokens : Z;
  ai_temperature : Q;
}.

Record PartialAIConfig := {
  pai_apiKey : option jsstring;
  pai_model : option jsstring;
  pai_maxTokens : option Z;
  pai_temperature : option Q;
}.

(** [a || b] on optional doubles. *)
Definition q_or (a : option Q) (b : Q) : Q :=
  match a with
  | Some q => if Qeq_bool q 0 then b else q
  | None => b
  end.

Inductive AIClient :=
  | OpenAIClient (config : AIConfig)
  | GeminiClient (config : AIConfig).

Definition client_config (c : AIClient) : AIConfig :=
  match c with
  | OpenAIClient cfg => cfg
  | GeminiClient cfg => cfg
  end.

Definition new_OpenAIClient (env : gmap string jsstring)
    (config : option PartialAIConfig) : Result AIClient :=
  let cfg := {|
    ai_apiKey := str_or (config ≫= pai_apiKey) (str_or (env !! "OPENAI_API_KEY"%string) []);
    ai_model := str_or (config ≫= pai_model) (js "gpt-4-turbo-preview");
    ai_maxTokens := num_or (config ≫= pai_maxTokens) 4096;
    ai_temperature := q_or (config ≫= pai_temperature) (7 # 10);
  |} in
  if is_empty (ai_apiKey cfg) then Throw (new_Error "OpenAI API key not configured")
  else Ok (OpenAIClient cfg).

Definition new_GeminiClient (env : gmap string jsstring)
    (config : option PartialAIConfig) : Result AIClient :=
  let cfg := {|
    ai_apiKey := str_or (config ≫= pai_apiKey) (str_or (env !! "GOOGLE_AI_API_KEY"%string) []);
    ai_model := str_or (config ≫= pai_model) (js "gemini-1.5-pro");
    ai_maxTokens := num_or (config ≫= pai_maxTokens) 8192;
    ai_temperature := q_or (config ≫= pai_temperature) (7 # 10);
  |} in
  if is_empty (ai_apiKey cfg) then Throw (new_Error "Google AI API key not configured")
  else Ok (GeminiClient cfg).

Inductive Role := system | user | assistant.

Record AICompletionRequest := {
  req_messages : list (Role * jsstring);
  req_maxTokens : option Z;
  req_temperature : option Q;
}.

Record AICompletionResponse := {
  resp_content : jsstring;
  resp_tokensUsed : Z;
}.

(** ** The world a run executes in

    The remote services answer through these functions; each receives the
    client object the call is made on, credentials included.  A streamed
    completion is the fragments it yields and, when it fails part-way, the
    value it throws after them. *)
Record World := {
  process_env : gmap string jsstring;
  dataforseo_request : DataForSEOClient → SERPTaskData → Result DataForSEOResponse;
  dataforseo_suggestions : DataForSEOClient → jsstring → Result (list KeywordSuggestion);
  ai_complete : AIClient → AICompletionRequest → Result AICompletionResponse;
  ai_stream : AIClient → AICompletionRequest → list jsstring * option Thrown;
  clock_start : Z;
  clock_end : Z;
  clock_iso : jsstring;
}.

(** The task [getSERPResults] posts: US and English unless told otherwise,
    desktop, depth 10. *)
Definition taskData (params : SERPParams) : SERPTaskData := {|
  td_keyword := sp_keyword params;
  td_location_code := num_or (sp_locationCode params) 2840;
  td_language_code := str_or (sp_languageCode params) (js "en");
  td_device := js "desktop";
  td_depth := num_or (sp_depth params) 10;
|}.

(** [DataForSEOClient.getSERPResults]: a failed request propagates. *)
Definition getSERPResults (w : World) (client : DataForSEOClient) (params : SERPParams)
  : Result SERPResult :=
  response ← dataforseo_request w client (taskData params);
  Ok (serp_of_response params response).

(** ** Inputs, results and stream events *)

Inductive Relevance := high | medium | low.

Record InternalLink := {
  il_url : jsstring;
  il_title : jsstring;
  il_relevance : option Relevance;
}.

Record ArticleGenerationInput := {
  in_topic : jsstring;
  in_targetAudience : option jsstring;
  in_contentType : option jsstring;
  in_targetWordCount : option Z;
  in_includeKeywordResearch : bool;
  in_includeFAQ : bool;
  in_internalLinks : option (list InternalLink);
}.

Record PlacedInternalLink := {
  pl_anchorText : jsstring;
  pl_url : jsstring;
  pl_placement : jsstring;
}.

Record ArticleResult := {
  art_title : JSValue;
  art_content : jsstring;
  art_wordCount : nat;
  art_readingTime : jsstring;
}.

Record SeoResult := {
  seo_metaTitle : JSValue;
  seo_metaDescription : JSValue;
  seo_primaryKeyword : JSValue;
  seo_secondaryKeywords : list JSValue;
}.

Record OutputData := {
  out_article : ArticleResult;
  out_seo : SeoResult;
  out_outline : JSValue;
  out_keywordResearch : JSValue;
  out_references : list Reference;
  out_internalLinks : list PlacedInternalLink;
}.

Record TokensUsed := {
  tok_keywordResearch : Z;
  tok_outline : Z;
  tok_article : Z;
}.

Record RunMetadata := {
  md_generatedAt : jsstring;
  md_processingTime : Z;
  md_tokensUsed : TokensUsed;
}.

Record ArticleGenerationOutput := {
  success : bool;
  data : OutputData;
  metadata : RunMetadata;
}.

Inductive StreamEvent :=
  | progress_event (phase : jsstring) (progress : Z) (message : jsstring)
  | chunk_event (content : jsstring)
  | complete_event (result : ArticleGenerationOutput)
  | error_event (message code : jsstring).

(** ** Async generators *)

Definition Gen (A : Type) : Type := (list StreamEvent * Result A)%type.

#[global] Instance gen_ret : MRet Gen := λ A a, ([], Ok a).
#[global] Instance gen_bind : MBind Gen := λ A B f m,
  match m with
  | (events, Ok a) => let '(events', r) := f a in (events ++ events', r)
  | (events, Throw e) => (events, Throw e)
  end.

Definition yield (event : StreamEvent) : Gen unit := ([event], Ok ()).
Definition await {A} (r : Result A) : Gen A := ([], r).

(** ** The orchestrator *)

Inductive AIProvider := openai | gemini.

Record ContentGeneratorAgent := {
  agent_config : AIProvider;
  agent_dataForSEO : DataForSEOClient;
  agent_aiClient : AIClient;
}.

(** The constructor: [config?.aiProvider || 'openai'], then the two clients,
    both configured from the environment alone. *)
Definition new_ContentGeneratorAgent (env : gmap string jsstring)
    (aiProvider : option AIProvider) : Result ContentGeneratorAgent :=
  let provider := default openai aiProvider in
  dataForSEO ← new_DataForSEOClient env None;
  aiClient ← match provider with
             | gemini => new_GeminiClient env None
             | openai => new_OpenAIClient env None
             end;
  Ok {| agent_config := provider;
        agent_dataForSEO := dataForSEO;
        agent_aiClient := aiClient |}.

(** [buildKeywordResearchPrompt], line by line. *)
Definition buildKeywordResearchPrompt (topic serpData keywordData : jsstring)
    (targetAudience : option jsstring) : jsstring :=
  join [LF]
    [ js "## Keyword Research Request";
      [];
      js "**Topic:** " ++ topic;
      js "**Target Audience:** " ++ str_or targetAudience (js "General readers");
      [];
      js "## SERP Analysis Data";
      [];
      serpData;
      [];
      js "## Keyword Data";
      [];
      keywordData;
      [];
      js "## Instructions";
      [];
      js "Based on the above context:";
      js "1. Identify the best primary keyword (500-10K volume preferred)";
      js "2. Select 8-15 secondary keywords for H2/H3 sections";
      js "3. Create 5 long-tail keyword clusters (6 keywords each)";
      js "4. Identify 8-10 user questions for FAQ section";
      js "5. Build a comprehensive content structure";
      js "6. Provide competitive analysis";
      [];
      js "Return ONLY the JSON object, no additional text." ].

(** The system prompts, whose wording is content, and the text builders
    that lean on built-ins outside the repository ([JSON.stringify], the
    string conversion of arbitrary values, [Array.prototype.sort],
    [toLocaleString]).  The builders that read into a parsed plan or
    outline can throw there. *)
Record Templates := {
  KEYWORD_RESEARCH_SYSTEM_PROMPT : jsstring;
  OUTLINE_SYSTEM_PROMPT : jsstring;
  ARTICLE_SYSTEM_PROMPT : jsstring;
  buildOutlinePrompt : JSValue → option (list InternalLink) → Result jsstring;
  buildArticlePrompt : JSValue → JSValue → Result jsstring;
  formatKeywordSuggestions : list KeywordSuggestion → Result jsstring;
  toLocaleString : Z → jsstring;
}.

Definition SERP_UNAVAILABLE : jsstring := js "SERP data unavailable.".

(** The lines [analyzeSERP] pushes for one ranked entry. *)
Definition serp_item_lines (i : nat) (item : SERPItem) : list jsstring :=
  [ decimal (i + 1) ++ js ". **" ++ si_title item ++ js "**";
    js "   - URL: " ++ si_url item;
    js "   - Domain: " ++ si_domain item ]
  ++ (if is_empty (si_description item) then []
      else [ js "   - Description: " ++ take 150 (si_description item) ++ js "..." ]).

Definition placed_links (links : option (list InternalLink)) : list PlacedInternalLink :=
  match links with
  | Some ls =>
      (λ link, {| pl_anchorText := il_title link;
                  pl_url := il_url link;
                  pl_placement := js "body" |}) <$> ls
  | None => []
  end.

Section Orchestrator.

Variable JSON_parse : jsstring → Result JSValue.
Variable tpl : Templates.
Variable w : World.
Variable agent : ContentGeneratorAgent.

Definition analyzeSERP (topic : jsstring) : Result jsstring :=
  try_catch
    (serpResult ← getSERPResults w (agent_dataForSEO agent)
       {| sp_keyword := topic; sp_locationCode := None;
          sp_languageCode := None; sp_depth := None |};
     let sections :=
       [ js "### SERP Analysis";
         js "**Keyword:** " ++ sr_keyword serpResult;
         js "**Total Results:** " ++ toLocaleString tpl (sr_totalResults serpResult) ] in
     let sections :=
       match sr_items serpResult with
       | [] => sections
       | items =>
           sections ++ [ LF :: js "**Top 10 Results:**" ]
                    ++ mjoin (imap serp_item_lines items)
       end in
     Ok (join [LF] sections))
    (λ error, Ok SERP_UNAVAILABLE).

Definition performKeywordResearch (topic serpData : jsstring)
    (targetAudience : option jsstring) : Result (JSValue * Z) :=
  keywordData ←
    try_catch
      (suggestions ← dataforseo_suggestions w (agent_dataForSEO agent) topic;
       formatKeywordSuggestions tpl suggestions)
      (λ error, Ok (js "Keyword suggestions unavailable."));
  let prompt := buildKeywordResearchPrompt topic serpData keywordData targetAudience in
  response ← ai_complete w (agent_aiClient agent)
    {| req_messages := [ (system, KEYWORD_RESEARCH_SYSTEM_PROMPT tpl); (user, prompt) ];
       req_maxTokens := None;
       req_temperature := Some (3 # 10) |};
  result ← parseKeywordResearchResponse JSON_parse (resp_content response) topic;
  Ok (result, resp_tokensUsed response).

Definition generateOutline (keywordResearch : JSValue)
    (internalLinks : option (list InternalLink)) : Result (JSValue * Z) :=
  prompt ← buildOutlinePrompt tpl keywordResearch internalLinks;
  response ← ai_complete w (agent_aiClient agent)
    {| req_messages := [ (system, OUTLINE_SYSTEM_PROMPT tpl); (user, prompt) ];
       req_maxTokens := None;
       req_temperature := Some (3 # 10) |};
  result ← parseOutlineResponse JSON_parse (resp_content response) keywordResearch;
  Ok (result, resp_tokensUsed response).

(** The request of the article phase, the same in both modes. *)
Definition article_request (prompt : jsstring) : AICompletionRequest :=
  {| req_messages := [ (system, ARTICLE_SYSTEM_PROMPT tpl); (user, prompt) ];
     req_maxTokens := Some 8000%Z;
     req_temperature := Some (7 # 10) |}.

Definition writeArticle (outline keywordResearch : JSValue) : Result (jsstring * Z) :=
  prompt ← buildArticlePrompt tpl outline keywordResearch;
  response ← ai_complete w (agent_aiClient agent) (article_request prompt);
  Ok (resp_content response, resp_tokensUsed response).

(** [writeArticleStream] re-yields the provider's fragments one for one; a
    throw while the prompt is built comes before the first fragment. *)
Definition writeArticleStream (outline keywordResearch : JSValue)
  : list jsstring * option Thrown :=
  match buildArticlePrompt tpl outline keywordResearch with
  | Ok prompt => ai_stream w (agent_aiClient agent) (article_request prompt)
  | Throw e => ([], Some e)
  end.

(** The envelope both modes build once the article text is known. *)
Definition build_output (input : ArticleGenerationInput)
    (outline keywordResearch : JSValue) (articleContent : jsstring)
    (tokensUsed : TokensUsed) : Result ArticleGenerationOutput :=
  let references := extractReferences articleContent in
  let wordCount := countWords articleContent in
  let readingTime := readingTime_of wordCount in
  meta ← get outline "metadata";
  h1 ← get meta "h1";
  meta ← get outline "metadata";
  metaTitle ← get meta "metaTitle";
  meta ← get outline "metadata";
  metaDescription ← get meta "metaDescription";
  primary ← get keywordResearch "primaryKeyword";
  keyword ← get primary "keyword";
  secondary ← get keywordResearch "secondaryKeywords";
  secondaryKeywords ← map_keyword secondary;
  Ok {| success := true;
        data := {|
          out_article := {| art_title := h1;
                            art_content := articleContent;
                            art_wordCount := wordCount;
                            art_readingTime := readingTime |};
          out_seo := {| seo_metaTitle := metaTitle;
                        seo_metaDescription := metaDescription;
                        seo_primaryKeyword := keyword;
                        seo_secondaryKeywords := secondaryKeywords |};
          out_outline := outline;
          out_keywordResearch := keywordResearch;
          out_references := references;
          out_internalLinks := placed_links (in_internalLinks input) |};
        metadata := {| md_generatedAt := clock_iso w;
                       md_processingTime := (clock_end w - clock_start w)%Z;
                       md_tokensUsed := tokensUsed |} |}.

(** Buffered mode. *)
Definition generate (input : ArticleGenerationInput) : Result ArticleGenerationOutput :=
  serpData ← analyzeSERP (in_topic input);
  '(keywordResearch, kwTokens) ←
    performKeywordResearch (in_topic input) serpData (in_targetAudience input);
  '(outline, outlineTokens) ← generateOutline keywordResearch (in_internalLinks input);
  '(articleContent, articleTokens) ← writeArticle outline keywordResearch;
  build_output input outline keywordResearch articleContent
    {| tok_keywordResearch := kwTokens;
       tok_outline := outlineTokens;
       tok_article := articleTokens |}.

(** The body of the [for await] loop, over the fragments still to come. *)
Fixpoint forward_chunks (fragments : list jsstring) (articleContent : jsstring)
  : Gen jsstring :=
  match fragments with
  | [] => mret articleContent
  | chunk :: rest =>
      yield (chunk_event chunk);;
      forward_chunks rest (articleContent ++ chunk)
  end.

(** The whole loop: every fragment is forwarded, then the stream's own
    failure, if any, is rethrown. *)
Definition for_await_chunks (stream : list jsstring * option Thrown) : Gen jsstring :=
  articleContent ← forward_chunks (fst stream) [];
  match snd stream with
  | Some e => await (Throw e)
  | None => mret articleContent
  end.

(** Streaming mode. *)
Definition generateStream (input : ArticleGenerationInput) : Gen unit :=
  yield (progress_event (js "serp_analysis") 5 (js "Analyzing SERP results..."));;
  serpData ← await (analyzeSERP (in_topic input));
  yield (progress_event (js "keyword_research") 20 (js "Performing keyword research..."));;
  '(keywordResearch, kwTokens) ←
    await (performKeywordResearch (in_topic input) serpData (in_targetAudience input));
  yield (progress_event (js "keyword_research") 35 (js "Keyword research complete"));;
  yield (progress_event (js "outline") 40 (js "Generating article outline..."));;
  '(outline, outlineTokens) ←
    await (generateOutline keywordResearch (in_internalLinks input));
  yield (progress_event (js "outline") 55 (js "Outline complete"));;
  yield (progress_event (js "article") 60 (js "Writing article..."));;
  articleContent ← for_await_chunks (writeArticleStream outline keywordResearch);
  let articleTokens := ceil_div (length articleContent) 4 in
  yield (progress_event (js "article") 95 (js "Finalizing..."));;
  result ← await (build_output input outline keywordResearch articleContent
                    {| tok_keywordResearch := kwTokens;
                       tok_outline := outlineTokens;
                       tok_article := articleTokens |});
  yield (complete_event result).

(** The text the article phase of a buffered run returns, and the
    fragment stream the article phase of a streaming run consumes: the
    two runs up to that point, without the envelope. *)
Definition buffered_article_completion (input : ArticleGenerationInput)
  : Result jsstring :=
  serpData ← analyzeSERP (in_topic input);
  '(keywordResearch, kwTokens) ←
    performKeywordResearch (in_topic input) serpData (in_targetAudience input);
  '(outline, outlineTokens) ← generateOutline keywordResearch (in_internalLinks input);
  '(articleContent, articleTokens) ← writeArticle outline keywordResearch;
  Ok articleContent.

Definition streamed_article_fragments (input : ArticleGenerationInput)
  : Result (list jsstring * option Thrown) :=
  serpData ← analyzeSERP (in_topic input);
  '(keywordResearch, kwTokens) ←
    performKeywordResearch (in_topic input) serpData (in_targetAudience input);
  '(outline, outlineTokens) ← generateOutline keywordResearch (in_internalLinks input);
  Ok (writeArticleStream outline keywordResearch).

(** A buffered run from the keyword phase on, for a given research text. *)
Definition generate_from (serpData : jsstring) (input : ArticleGenerationInput)
  : Result ArticleGenerationOutput :=
  '(keywordResearch, kwTokens) ←
    performKeywordResearch (in_topic input) serpData (in_targetAudience input);
  '(outline, outlineTokens) ← generateOutline keywordResearch (in_internalLinks input);
  '(articleContent, articleTokens) ← writeArticle outline keywordResearch;
  build_output input outline keywordResearch articleContent
    {| tok_keywordResearch := kwTokens;
       tok_outline := outlineTokens;
       tok_article := articleTokens |}.

End Orchestrator.

(** ** Observations on an event stream *)

Definition progress_of (event : StreamEvent) : option Z :=
  match event with
  | progress_event _ percent _ => Some percent
  | _ => None
  end.

Definition chunk_of (event : StreamEvent) : option jsstring :=
  match event with
  | chunk_event content => Some content
  | _ => None
  end.

Definition complete_of (event : StreamEvent) : option ArticleGenerationOutput :=
  match event with
  | complete_event result => Some result
  | _ => None
  end.

Definition progress_values (events : list StreamEvent) : list Z := omap progress_of events.
Definition chunk_payloads (events : list StreamEvent) : list jsstring := omap chunk_of events.
Definition completions (events : list StreamEvent) : list ArticleGenerationOutput :=
  omap complete_of events.

Definition is_terminal (event : StreamEvent) : bool :=
  match event with
  | complete_event _ | error_event _ _ => true
  | _ => false
  end.

(** The percent values the generator yields, in source order. *)
Definition CHECKPOINTS : list Z := [5; 20; 35; 40; 55; 60; 95]%Z.

Definition non_decreasing (values : list Z) : Prop :=
  ∀ i j a b, (i ≤ j)%nat → values !! i = Some a → values !! j = Some b → (a ≤ b)%Z.

(** A piece of text occurs in another, ignoring case. *)
Definition occurs_ci (pat content : jsstring) : Prop :=
  ∃ before rest, content = before ++ rest ∧ ci_prefix pat rest = true.

(** Some line of the text starts with the pattern, ignoring case. *)
Definition line_starts_ci (pat content : jsstring) : bool :=
  existsb (ci_prefix pat) (split_lines content).

(** The text holds an opening brace with a closing brace somewhere after. *)
Definition has_json_span (content : jsstring) : Prop :=
  ∃ before body after, content = before ++ LBRACE :: body ++ RBRACE :: after.

(** A credential that is not there: [undefined] or the empty string. *)
Definition missing (credential : option jsstring) : Prop :=
  credential = None ∨ credential = Some [].

(** [n] is [ceil(wordCount / 200)]. *)
Definition minutes_of (wordCount n : nat) : Prop :=
  (wordCount ≤ 200 * n)%nat ∧ (n = 0%nat ∨ 200 * (n - 1) < wordCount)%nat.

(** The derived fields of an article agree with its text. *)
Definition article_consistent (a : ArticleResult) : Prop :=
  art_wordCount a = spec_word_count (art_content a)
  ∧ ∃ n, minutes_of (art_wordCount a) n ∧ art_readingTime a = decimal n ++ js " min".

(** [out] is the envelope of a run that completed, in either mode. *)
Definition completed_run (JSON_parse : jsstring → Result JSValue) (tpl : Templates)
    (w : World) (agent : ContentGeneratorAgent) (input : ArticleGenerationInput)
    (out : ArticleGenerationOutput) : Prop :=
  generate JSON_parse tpl w agent input = Ok out
  ∨ ∃ events, generateStream JSON_parse tpl w agent input = (events, Ok ())
              ∧ out ∈ completions events.

(** The field [path] of a value, read level by level. *)
Fixpoint get_path (v : JSValue) (path : list string) : Result JSValue :=
  match path with
  | [] => Ok v
  | k :: rest => get v k ≫= λ v', get_path v' rest
  end.

(** ** The streaming route handler *)

(** The part of the Express response the handler touches: whether the
    headers have gone out, the JSON body of a plain reply with its status,
    the events written to the event stream, and whether [end] was called. *)
Record Response := {
  res_headersSent : bool;
  res_json : option (nat * jsstring * jsstring);
  res_written : list StreamEvent;
  res_ended : bool;
}.

Definition fresh_response : Response :=
  {| res_headersSent := false; res_json := None; res_written := []; res_ended := false |}.

(** [res.status(s).json({success: false, error: {code, message}})]. *)
Definition res_status_json (status : nat) (code message : jsstring) (res : Response)
  : Response :=
  {| res_headersSent := true; res_json := Some (status, code, message);
     res_written := res_written res; res_ended := true |}.

Definition res_flushHeaders (res : Response) : Response :=
  {| res_headersSent := true; res_json := res_json res;
     res_written := res_written res; res_ended := res_ended res |}.

(** The two [res.write] calls that frame one event. *)
Definition res_write_event (event : StreamEvent) (res : Response) : Response :=
  {| res_headersSent := res_headersSent res; res_json := res_json res;
     res_written := res_written res ++ [event]; res_ended := res_ended res |}.

Definition res_end (res : Response) : Response :=
  {| res_headersSent := res_headersSent res; res_json := res_json res;
     res_written := res_written res; res_ended := true |}.

Definition GENERATION_ERROR : jsstring := js "GENERATION_ERROR".

Section Routes.

Variable JSON_parse : jsstring → Result JSValue.
Variable tpl : Templates.
Variable w : World.

(** [req.query.provider === 'gemini' ? 'gemini' : 'openai']. *)
Definition provider_of_query (provider : option jsstring) : AIProvider :=
  if decide (provider = Some (js "gemini")) then gemini else openai.

(** The [catch] block of the streaming route. *)
Definition stream_catch (error : Thrown) (res : Response) : Response :=
  if res_headersSent res then
    res_end (res_write_event (error_event (message_of error) GENERATION_ERROR) res)
  else
    res_status_json 500 GENERATION_ERROR (message_of error) res.

(** [POST /generate/stream].  [validation] is the outcome of the schema
    check: the parsed input, or nothing when the body is rejected. *)
Definition post_generate_stream (validation : option ArticleGenerationInput)
    (provider : option jsstring) : Response :=
  match validation with
  | None =>
      res_status_json 400 (js "VALIDATION_ERROR") (js "Invalid request body")
        fresh_response
  | Some input =>
      let res := res_flushHeaders fresh_response in
      match new_ContentGeneratorAgent (process_env w) (Some (provider_of_query provider)) with
      | Throw error => stream_catch error res
      | Ok agent =>
          let '(events, outcome) := generateStream JSON_parse tpl w agent input in
          let res := foldl (λ r event, res_write_event event r) res events in
          match outcome with
          | Ok _ => res_end res
          | Throw error => stream_catch error res
          end
      end
  end.

End Routes.

(** ** A concrete run

    A world whose research provider rejects the credentials on every fetch
    and whose generation provider answers every request with the same
    markdown article, streamed as three fragments of that text. *)

Definition demo_env : gmap string jsstring :=
  {[ "DATAFORSEO_LOGIN"%string := js "login";
     "DATAFORSEO_PASSWORD"%string := js "secret";
     "OPENAI_API_KEY"%string := js "sk-test" ]}.

Definition demo_fragments : list jsstring :=
  [ js "# Remote *tools*" ++ [LF; LF] ++ js "Good tools (really) help." ++ [LF; LF];
    js "## References" ++ [LF] ++ js "1. [HBR](https://hbr.org/a)" ++ [LF];
    js "2. see the appendix" ++ [LF] ++ js "3. [MIT](https://mit.edu/b)" ].

Definition demo_article : jsstring := concat demo_fragments.

Definition AUTH_ERROR : Thrown :=
  ThrownDataForSEOError (js "Invalid credentials") (js "AUTH_ERROR") (Some 401%Z).

Definition demo_world : World := {|
  process_env := demo_env;
  dataforseo_request := λ _ _, Throw AUTH_ERROR;
  dataforseo_suggestions := λ _ _, Ok [];
  ai_complete := λ _ _, Ok {| resp_content := demo_article; resp_tokensUsed := 1200 |};
  ai_stream := λ _ _, (demo_fragments, None);
  clock_start := 1000;
  clock_end := 46000;
  clock_iso := js "2024-01-15T10:30:00.000Z";
|}.

(** The same world with a generation provider that fails in mid-stream. *)
Definition failing_world : World := {|
  process_env := demo_env;
  dataforseo_request := λ _ _, Throw AUTH_ERROR;
  dataforseo_suggestions := λ _ _, Ok [];
  ai_complete := λ _ _, Ok {| resp_content := demo_article; resp_tokensUsed := 1200 |};
  ai_stream := λ _ _, (take 1 demo_fragments, Some (new_Error "No response body"));
  clock_start := 1000;
  clock_end := 46000;
  clock_iso := js "2024-01-15T10:30:00.000Z";
|}.

(** Templates that read the same fields as the repository's and keep the
    wording short. *)
Definition demo_templates : Templates := {|
  KEYWORD_RESEARCH_SYSTEM_PROMPT := js "# Keyword Research Strategist";
  OUTLINE_SYSTEM_PROMPT := js "# Content Outline Creator Agent";
  ARTICLE_SYSTEM_PROMPT := js "# Content Writer Agent";
  buildOutlinePrompt := λ keywordResearch links,
    primary ← get keywordResearch "primaryKeyword";
    keyword ← get primary "keyword";
    Ok (js "## Outline Generation Request");
  buildArticlePrompt := λ outline keywordResearch,
    primary ← get keywordResearch "primaryKeyword";
    keyword ← get primary "keyword";
    meta ← get outline "metadata";
    h1 ← get meta "h1";
    Ok (js "## Article Writing Request");
  formatKeywordSuggestions := λ suggestions,
    Ok (js "**Total Keywords Found:** " ++ decimal (length suggestions));
  toLocaleString := λ n, decimal (Z.to_nat n);
|}.

(** A stand-in for [JSON.parse] that agrees with it on the texts used
    below: the empty object parses, the other spans are malformed. *)
Definition demo_JSON_parse (text : jsstring) : Result JSValue :=
  if decide (text = js "{}") then Ok (JObj [])
  else Throw (ThrownError (js "SyntaxError") (js "Unexpected token")).

(** A generation response whose brace span is not JSON. *)
Definition malformed_response : jsstring :=
  js "Sure! Here is the plan: {primary: remote tools}".

Definition demo_input : ArticleGenerationInput := {|
  in_topic := js "remote tools";
  in_targetAudience := None;
  in_contentType := None;
  in_targetWordCount := None;
  in_includeKeywordResearch := true;
  in_includeFAQ := true;
  in_internalLinks := None;
|}.

Definition demo_agent : ContentGeneratorAgent := {|
  agent_config := openai;
  agent_dataForSEO := {| dfs_config := {|
    dfs_login := js "login";
    dfs_password := js "secret";
    dfs_baseUrl := DEFAULT_BASE_URL |} |};
  agent_aiClient := OpenAIClient {|
    ai_apiKey := js "sk-test";
    ai_model := js "gpt-4-turbo-preview";
    ai_maxTokens := 4096;
    ai_temperature := 7 # 10 |};
|}.

(** A references section under a third-level heading, one whose entries
    all carry a link under a numbering of their own, and a text without
    any such section. *)
Definition h3_references : jsstring :=
  js "Intro." ++ [LF] ++ js "### References" ++ [LF] ++ js "1. [A](https://a.example)".

Definition linked_references : jsstring :=
  js "## REFERENCES" ++ [LF] ++ js "7. [A](https://a.example)" ++ [LF]
  ++ js "- a note" ++ [LF] ++ js "3. see [B](https://b.example) and [C](https://c.example)".

Definition plain_text : jsstring :=
  js "# Title" ++ [LF] ++ js "1. [A](https://a.example)".

(** A provider response with two organic entries among four. *)
Definition demo_items : list ProviderItem :=
  [ {| pi_type := js "paid"; pi_rank_group := 1; pi_rank_absolute := 1;
       pi_domain := js "ads.example"; pi_title := js "Ad"; pi_url := js "https://ads.example";
       pi_description := None |};
    {| pi_type := js "organic"; pi_rank_group := 1; pi_rank_absolute := 2;
       pi_domain := js "a.example"; pi_title := js "A"; pi_url := js "https://a.example";
       pi_description := Some (js "first") |};
    {| pi_type := js "people_also_ask"; pi_rank_group := 1; pi_rank_absolute := 3;
       pi_domain := []; pi_title := js "Q"; pi_url := [];
       pi_description := None |};
    {| pi_type := js "organic"; pi_rank_group := 2; pi_rank_absolute := 4;
       pi_domain := js "b.example"; pi_title := js "B"; pi_url := js "https://b.example";
       pi_description := None |} ].

Definition demo_response : DataForSEOResponse :=
  {| resp_tasks := Some [ Some {| task_result := Some [ Some {|
       tr_keyword := js "remote tools";
       tr_se_results_count := 120000;
       tr_items := Some demo_items |} ] |} ] |}.

Definition serp_world : World := {|
  process_env := demo_env;
  dataforseo_request := λ _ _, Ok demo_response;
  dataforseo_suggestions := λ _ _, Ok [];
  ai_complete := λ _ _, Ok {| resp_content := demo_article; resp_tokensUsed := 1200 |};
  ai_stream := λ _ _, (demo_fragments, None);
  clock_start := 1000;
  clock_end := 46000;
  clock_iso := js "2024-01-15T10:30:00.000Z";
|}.

Definition demo_params : SERPParams :=
  {| sp_keyword := js "remote tools"; sp_locationCode := None;
     sp_languageCode := None; sp_depth := None |}.

(** * More of the repository *)

(** ** The request method of the DataForSEO client *)

(** What [fetch] resolves to, as far as [request] looks: the status line
    and the outcome of [response.json()]. *)
Record FetchResponse (T : Type) := {
  fr_status : Z;
  fr_statusText : jsstring;
  fr_json : Result T;
}.
Arguments fr_status {T} _.
Arguments fr_statusText {T} _.
Arguments fr_json {T} _.

(** [response.ok]: the status is in the range 200-299. *)
Definition response_ok {T} (response : FetchResponse T) : bool :=
  ((200 <=? fr_status response) && (fr_status response <=? 299))%Z.

(** [DataForSEOClient.request], given the outcome of the [fetch] call. *)
Definition request {T} (fetched : Result (FetchResponse T)) : Result T :=
  try_catch
    (response ← fetched;
     if negb (response_ok response) then
       if (fr_status response =? 401)%Z then
         Throw (ThrownDataForSEOError (js "Invalid credentials") (js "AUTH_ERROR")
                  (Some 401%Z))
       else if (fr_status response =? 429)%Z then
         Throw (ThrownDataForSEOError (js "Rate limit exceeded") (js "RATE_LIMIT")
                  (Some 429%Z))
       else
         Throw (ThrownDataForSEOError (js "API error: " ++ fr_statusText response)
                  (js "API_ERROR") (Some (fr_status response)))
     else fr_json response)
    (λ error,
       match error with
       | ThrownDataForSEOError _ _ _ => Throw error
       | ThrownError _ message =>
           Throw (ThrownDataForSEOError (js "Network error: " ++ message)
                    (js "NETWORK_ERROR") None)
       | ThrownValue =>
           Throw (ThrownDataForSEOError (js "Network error: Unknown")
                    (js "NETWORK_ERROR") None)
       end).

Definition is_DataForSEOError (e : Thrown) : bool :=
  match e with
  | ThrownDataForSEOError _ _ _ => true
  | _ => false
  end.

(** The platform ([fetch], [response.json]) throws its own errors, never
    the client's error class. *)
Definition platform_outcome {T} (fetched : Result (FetchResponse T)) : Prop :=
  match fetched with
  | Throw e => is_DataForSEOError e = false
  | Ok response =>
      match fr_json response with
      | Throw e => is_DataForSEOError e = false
      | Ok _ => True
      end
  end.

Definition error_code (e : Thrown) : option jsstring :=
  match e with
  | ThrownDataForSEOError _ code _ => Some code
  | _ => None
  end.

(** ** Credentials and the health route *)

(** A credential that is there: a non-empty string. *)
Definition available (credential : option jsstring) : Prop :=
  ∃ c rest, credential = Some (c :: rest).




(** The environment variable that holds the key of a backend. *)
Definition key_variable (provider : AIProvider) : string :=
  match provider with
  | openai => "OPENAI_API_KEY"
  | gemini => "GOOGLE_AI_API_KEY"
  end.

(** ** What the generation clients send *)

(** [request.maxTokens || this.config.maxTokens]. *)
Definition effective_maxTokens (client : AIClient) (req : AICompletionRequest) : Z :=
  num_or (req_maxTokens req) (ai_maxTokens (client_config client)).

(** [request.temperature ?? this.config.temperature]. *)
Definition effective_temperature (client : AIClient) (req : AICompletionRequest) : Q :=
  default (ai_temperature (client_config client)) (req_temperature req).

Definition role_eqb (a b : Role) : bool :=
  match a, b with
  | system, system | user, user | assistant, assistant => true
  | _, _ => false
  end.

(** [messages.find(m => m.role === role)?.content]. *)
Fixpoint find_role (role : Role) (messages : list (Role * jsstring)) : option jsstring :=
  match messages with
  | [] => None
  | (r, content) :: rest => if role_eqb r role then Some content else find_role role rest
  end.

Definition GEMINI_SEPARATOR : jsstring := [LF; LF] ++ js "---" ++ [LF; LF].

(** The prompt [GeminiClient.complete] and [GeminiClient.stream] build. *)
Definition gemini_prompt (messages : list (Role * jsstring)) : jsstring :=
  let systemPrompt := str_or (find_role system messages) [] in
  let userMessage := str_or (find_role user messages) [] in
  if is_empty systemPrompt then userMessage
  else systemPrompt ++ GEMINI_SEPARATOR ++ userMessage.

(** ** The event-stream reader of the OpenAI client *)

(** ToBoolean. *)
Definition truthy (v : JSValue) : bool :=
  match v with
  | JUndefined | JNull => false
  | JBool b => b
  | JNum q => negb (Qeq_bool q 0)
  | JStr s => negb (is_empty s)
  | JArr _ | JObj _ => true
  end.

(** [v?.k] for a name no prototype defines. *)
Definition opt_get (v : JSValue) (k : string) : JSValue :=
  match v with
  | JObj fields => default JUndefined (assoc k fields)
  | _ => JUndefined
  end.

(** [v?.[0]]. *)
Definition opt_first (v : JSValue) : JSValue :=
  match v with
  | JArr (x :: _) => x
  | JObj fields => default JUndefined (assoc "0" fields)
  | JStr (c :: _) => JStr [c]
  | _ => JUndefined
  end.

(** [line.startsWith(pat)]. *)
Fixpoint starts_with (pat s : jsstring) : bool :=
  match pat, s with
  | [], _ => true
  | _ :: _, [] => false
  | p :: pat', c :: s' => (c =? p) && starts_with pat' s'
  end.

(** [lines.pop() || ''] and what is left of [lines]. *)
Definition pop_line (lines : list jsstring) : jsstring := List.last lines [].
Definition popped (lines : list jsstring) : list jsstring := removelast lines.

Section OpenAIStream.

Variable JSON_parse : jsstring → Result JSValue.

(** The body of the [for] loop over the lines: what one line yields. *)
Definition line_yield (line : jsstring) : list JSValue :=
  if starts_with (js "data: ") line && negb (bool_decide (line = js "data: [DONE]")) then
    match
      try_catch
        (data ← JSON_parse (drop 6 line);
         choices ← get data "choices";
         let content := opt_get (opt_get (opt_first choices) "delta") "content" in
         Ok (if truthy content then [content] else []))
        (λ error, Ok [])
    with
    | Ok yielded => yielded
    | Throw _ => []
    end
  else [].

(** The [while] loop over the decoded reads, from a given [buffer]. *)
Fixpoint read_loop (buffer : jsstring) (reads : list jsstring) : list JSValue :=
  match reads with
  | [] => []
  | value :: rest =>
      let lines := split_lines (buffer ++ value) in
      mjoin (line_yield <$> popped lines) ++ read_loop (pop_line lines) rest
  end.

(** The response of the streaming request: the status line and, when there
    is a body, the texts its reader delivers and how the reading ends. *)
Record StreamResponse := {
  st_status : Z;
  st_statusText : jsstring;
  st_body : option (list jsstring * option Thrown);
}.

(** [OpenAIClient.stream]: what it yields and, if it throws, what. *)
Definition openai_stream (fetched : Result StreamResponse) : list JSValue * option Thrown :=
  match fetched with
  | Throw e => ([], Some e)
  | Ok response =>
      if negb ((200 <=? st_status response) && (st_status response <=? 299))%Z then
        ([], Some (ThrownError (js "Error")
                     (js "OpenAI API error: " ++ st_statusText response)))
      else
        match st_body response with
        | None => ([], Some (new_Error "No response body"))
        | Some (reads, failure) => (read_loop [] reads, failure)
        end
  end.

End OpenAIStream.

(** ** formatKeywordSuggestions *)

(** One step of the sort: [x], which came before everything in [sorted],
    goes in front of the first entry whose volume is not larger. *)
Fixpoint insert_by_volume (x : KeywordSuggestion) (sorted : list KeywordSuggestion)
  : list KeywordSuggestion :=
  match sorted with
  | [] => [x]
  | y :: rest =>
      if (ks_search_volume y <=? ks_search_volume x)%Z then x :: sorted
      else y :: insert_by_volume x rest
  end.

(** [[...suggestions].sort((a, b) => b.search_volume - a.search_volume)]:
    the stable sort by decreasing volume. *)
Definition sort_by_volume (suggestions : list KeywordSuggestion) : list KeywordSuggestion :=
  foldr insert_by_volume [] suggestions.

(** [sorted.slice(0, 30)]. *)
Definition top_keywords (suggestions : list KeywordSuggestion) : list KeywordSuggestion :=
  take 30 (sort_by_volume suggestions).

Definition QUOTE : N := 34.

Module Formatter.
Section Formatter.

(** The string conversion of a number inside a template literal. *)
Variable number_to_string : Z → jsstring.

Definition keyword_line (i : nat) (kw : KeywordSuggestion) : jsstring :=
  decimal (i + 1) ++ js ". " ++ [QUOTE] ++ ks_keyword kw ++ [QUOTE] ++ js " - "
  ++ number_to_string (ks_search_volume kw) ++ js "/month, "
  ++ ks_competition_level kw ++ js " competition, KD: "
  ++ number_to_string (ks_keyword_difficulty kw).

Definition sections (suggestions : list KeywordSuggestion) : list jsstring :=
  [ js "### Keyword Suggestions";
    js "**Total Keywords Found:** " ++ decimal (length suggestions) ]
  ++ match suggestions with
     | [] => []
     | _ :: _ =>
         (LF :: js "**Top Keywords by Volume:**")
         :: imap keyword_line (top_keywords suggestions)
     end.

Definition formatKeywordSuggestions (suggestions : list KeywordSuggestion) : jsstring :=
  join [LF] (sections suggestions).

End Formatter.
End Formatter.

(** ** Observations used below *)

(** [undefined] or [null]. *)
Definition nullish (v : JSValue) : Prop := v = JUndefined ∨ v = JNull.

(** A generation response from which no JSON object is extracted. *)
Definition malformed (JSON_parse : jsstring → Result JSValue) (content : jsstring) : Prop :=
  ¬ has_json_span content
  ∨ ∃ span e, match_json_span content = Some span ∧ JSON_parse span = Throw e.


Fixpoint sum_nat (l : list nat) : nat :=
  match l with
  | [] => 0
  | n :: rest => n + sum_nat rest
  end.

(** A response whose brace span parses to an object without fields, and an
    event stream cut at arbitrary places. *)
Definition empty_object_response : jsstring := js "Here you go: {}".

Definition demo_reads : list jsstring :=
  [ js "data: {a}" ++ [LF] ++ js "da";
    js "ta: {b}" ++ [LF] ++ [LF] ++ js "data: [DONE]" ++ [LF] ++ js "data: {c}" ].

(** A stand-in for [JSON.parse] on the three payloads of [demo_reads]. *)
Definition reads_JSON_parse (text : jsstring) : Result JSValue :=
  if bool_decide (text = js "{a}") then
    Ok (JObj [("choices", JArr [JObj [("delta", JObj [("content", JStr (js "Hel"))])]])])
  else if bool_decide (text = js "{b}") then
    Ok (JObj [("choices", JArr [JObj [("delta", JObj [("content", JStr (js "lo"))])]])])
  else Throw (ThrownError (js "SyntaxError") (js "Unexpected token")).

Definition demo_suggestions : list KeywordSuggestion :=
  [ {| ks_keyword := js "a"; ks_search_volume := 300; ks_competition_level := js "low";
       ks_cpc := 1; ks_keyword_difficulty := 30 |};
    {| ks_keyword := js "b"; ks_search_volume := 500; ks_competition_level := js "medium";
       ks_cpc := 2; ks_keyword_difficulty := 45 |};
    {| ks_keyword := js "c"; ks_search_volume := 300; ks_competition_level := js "high";
       ks_cpc := 3; ks_keyword_difficulty := 60 |} ].

(** The lines of an event stream that a line feed terminates. *)
Definition complete_lines (reads : list jsstring) : list jsstring :=
  removelast (split_lines (concat reads)).

(** [data.choices?.[0]?.delta?.content] of a parsed event. *)
Definition delta_content (choices : JSValue) : JSValue :=
  opt_get (opt_get (opt_first choices) "delta") "content".

(** The order of the listed keywords: the volume does not increase. *)
Definition by_volume (a b : KeywordSuggestion) : Prop :=
  (ks_search_volume b ≤ ks_search_volume a)%Z.

(** ** The buffered route *)

(** What [POST /generate] sends: the result of the run, or an error body
    with its status. *)
Inductive Reply :=
  | ReplyResult (result : ArticleGenerationOutput)
  | ReplyError (status : nat) (code message : jsstring).

Section BufferedRoute.

Variable JSON_parse : jsstring → Result JSValue.
Variable tpl : Templates.
Variable w : World.

(** [POST /generate], with the outcome of the schema check as for the
    streaming route. *)
Definition post_generate (validation : option ArticleGenerationInput)
    (provider : option jsstring) : Reply :=
  match validation with
  | None => ReplyError 400 (js "VALIDATION_ERROR") (js "Invalid request body")
  | Some input =>
      match
        agent ← new_ContentGeneratorAgent (process_env w) (Some (provider_of_query provider));
        generate JSON_parse tpl w agent input
      with
      | Ok result => ReplyResult result
      | Throw error => ReplyError 500 GENERATION_ERROR (message_of error)
      end
  end.

End BufferedRoute.

Definition missing_key_message (provider : AIProvider) : string :=
  match provider with
  | openai => "OpenAI API key not configured"
  | gemini => "Google AI API key not configured"
  end.

(** * Properties *)

(** ** Word count *)

Lemma count_nonempty_nil_cons pieces :
  count_nonempty ([] :: pieces) = count_nonempty pieces.
Proof.
  unfold count_nonempty. rewrite filter_cons_False; [done | simpl; lia].
Qed.

Lemma count_nonempty_cons c piece pieces :
  count_nonempty ((c :: piece) :: pieces) = S (count_nonempty pieces).
Proof.
  unfold count_nonempty. rewrite filter_cons_True; [done | simpl; lia].
Qed.

Lemma count_tokens_starts_ws b s :
  starts_ws s = true → count_tokens b s = count_tokens true s.
Proof.
  destruct s as [|c r]; simpl; [done |]. intros ->. done.
Qed.

(** The pieces of [split] and the runs of the text: the first piece is
    counted by [count_tokens true] alone, the others by both. *)
Lemma split_ws_count s :
  count_nonempty (split_ws s) = count_tokens true s
  ∧ count_nonempty (tail (split_ws s)) = count_tokens false s.
Proof.
  induction s as [|c r [IHa IHb]]; [done |].
  simpl. destruct (is_ws c) eqn:Hc.
  - destruct (starts_ws r) eqn:Hr.
    + split; [done |]. rewrite IHb. by apply count_tokens_starts_ws.
    + rewrite count_nonempty_nil_cons. simpl. done.
  - destruct (split_ws r) as [|piece pieces] eqn:Hsplit.
    + simpl in *. rewrite <- IHb. done.
    + rewrite count_nonempty_cons. simpl in *. rewrite IHb. done.
Qed.

Lemma countWords_spec text : countWords text = spec_word_count text.
Proof. apply (split_ws_count (strip_markdown text)). Qed.

(** [Math.ceil(n / d)] is the least integer whose [d]-fold reaches [n]. *)
Lemma ceil_div_spec n d :
  (Z.of_nat n ≤ Z.pos d * ceil_div n d)%Z
  ∧ (Z.pos d * (ceil_div n d - 1) < Z.of_nat n)%Z
  ∧ (0 ≤ ceil_div n d)%Z.
Proof.
  unfold ceil_div, Qceiling, Qfloor. simpl.
  pose proof (Z.div_mod (- Z.of_nat n) (Z.pos d) ltac:(lia)) as Hdm.
  pose proof (Z.mod_pos_bound (- Z.of_nat n) (Z.pos d) ltac:(lia)) as Hb.
  nia.
Qed.

(** ** The two monads *)

Lemma bind_Ok_inv {A B} (m : Result A) (f : A → Result B) b :
  m ≫= f = Ok b → ∃ a, m = Ok a ∧ f a = Ok b.
Proof. destruct m as [a|e]; [eauto | discriminate]. Qed.

Lemma result_bind_Ok {A B} (a : A) (f : A → Result B) : Ok a ≫= f = f a.
Proof. done. Qed.

Lemma gen_bind_inv {A B} (m : Gen A) (k : A → Gen B) events outcome :
  m ≫= k = (events, outcome) →
  (∃ e, snd m = Throw e ∧ events = fst m ∧ outcome = Throw e)
  ∨ (∃ a events', snd m = Ok a ∧ k a = (events', outcome) ∧ events = fst m ++ events').
Proof.
  destruct m as [events0 [a|e]]; simpl.
  - destruct (k a) as [events' r] eqn:Hk. intros [= <- <-]. right. eauto.
  - intros [= <- <-]. left. eauto.
Qed.

Lemma gen_bind_yield {B} event (k : Gen B) :
  (yield event;; k) = (event :: fst k, snd k).
Proof. destruct k as [events r]. done. Qed.

Lemma gen_yield_inv {B} event (k : Gen B) events outcome :
  (yield event;; k) = (events, outcome) →
  ∃ events', events = event :: events' ∧ k = (events', outcome).
Proof. rewrite gen_bind_yield. destruct k as [events' r]. intros [= <- <-]. eauto. Qed.

Lemma gen_bind_await_Ok {A B} (a : A) (k : A → Gen B) :
  await (Ok a) ≫= k = k a.
Proof. unfold await. simpl. by destruct (k a). Qed.

Lemma gen_bind_await_Throw {A B} e (k : A → Gen B) :
  await (Throw e) ≫= k = ([], Throw e).
Proof. done. Qed.

Lemma gen_bind_fst_snd {A B} (m : Gen A) (k : A → Gen B) :
  m ≫= k =
  match snd m with
  | Ok a => (fst m ++ fst (k a), snd (k a))
  | Throw e => (fst m, Throw e)
  end.
Proof. destruct m as [events [a|e]]; simpl; [by destruct (k a) | done]. Qed.

Lemma forward_chunks_spec fragments articleContent :
  forward_chunks fragments articleContent
  = (chunk_event <$> fragments, Ok (articleContent ++ concat fragments)).
Proof.
  revert articleContent.
  induction fragments as [|chunk rest IH]; intros articleContent.
  - simpl. by rewrite app_nil_r.
  - cbn [forward_chunks]. rewrite gen_bind_yield, IH. simpl. by rewrite <- app_assoc.
Qed.

Lemma for_await_chunks_spec stream :
  for_await_chunks stream =
  (chunk_event <$> fst stream,
   match snd stream with
   | Some e => Throw e
   | None => Ok (concat (fst stream))
   end).
Proof.
  unfold for_await_chunks. rewrite forward_chunks_spec. simpl.
  destruct (snd stream); simpl; by rewrite app_nil_r.
Qed.

(** ** Observations of the chunk events *)

Lemma progress_values_chunks fragments :
  progress_values (chunk_event <$> fragments) = [].
Proof. induction fragments; [done | by simpl]. Qed.

Lemma completions_chunks fragments :
  completions (chunk_event <$> fragments) = [].
Proof. induction fragments; [done | by simpl]. Qed.

Lemma chunk_payloads_chunks fragments :
  chunk_payloads (chunk_event <$> fragments) = fragments.
Proof.
  induction fragments as [|f rest IH]; [done |].
  change (f :: chunk_payloads (chunk_event <$> rest) = f :: rest). by rewrite IH.
Qed.

Lemma chunks_not_terminal fragments :
  Forall (λ event, is_terminal event = false) (chunk_event <$> fragments).
Proof. induction fragments; constructor; done. Qed.

Lemma progress_values_app events1 events2 :
  progress_values (events1 ++ events2) = progress_values events1 ++ progress_values events2.
Proof. apply omap_app. Qed.

Lemma chunk_payloads_app events1 events2 :
  chunk_payloads (events1 ++ events2) = chunk_payloads events1 ++ chunk_payloads events2.
Proof. apply omap_app. Qed.

Lemma completions_app events1 events2 :
  completions (events1 ++ events2) = completions events1 ++ completions events2.
Proof. apply omap_app. Qed.

(** ** The phases of a run *)

Section PipelineFacts.

Variable JSON_parse : jsstring → Result JSValue.
Variable tpl : Templates.
Variable w : World.
Variable agent : ContentGeneratorAgent.

Lemma analyzeSERP_total topic : ∃ text, analyzeSERP tpl w agent topic = Ok text.
Proof.
  unfold analyzeSERP. destruct (getSERPResults _ _ _) as [r|e]; simpl; eauto.
Qed.

Lemma build_output_inv input outline keywordResearch articleContent tokens out :
  build_output w input outline keywordResearch articleContent tokens = Ok out →
  success out = true
  ∧ art_content (out_article (data out)) = articleContent
  ∧ art_wordCount (out_article (data out)) = countWords articleContent
  ∧ art_readingTime (out_article (data out)) = readingTime_of (countWords articleContent)
  ∧ out_references (data out) = extractReferences articleContent.
Proof.
  unfold build_output. intros H.
  repeat (apply bind_Ok_inv in H; destruct H as (? & _ & H)).
  injection H as <-. done.
Qed.

Lemma generate_inv input out :
  generate JSON_parse tpl w agent input = Ok out →
  ∃ outline keywordResearch articleContent tokens,
    buffered_article_completion JSON_parse tpl w agent input = Ok articleContent
    ∧ build_output w input outline keywordResearch articleContent tokens = Ok out.
Proof.
  unfold generate, buffered_article_completion.
  destruct (analyzeSERP _ _ _ _) as [serpData|e]; simpl; [|done].
  destruct (performKeywordResearch _ _ _ _ _ _ _) as [[kw kwTokens]|e]; simpl; [|done].
  destruct (generateOutline _ _ _ _ _ _) as [[outline outlineTokens]|e]; simpl; [|done].
  destruct (writeArticle _ _ _ _ _) as [[articleContent articleTokens]|e]; simpl; [|done].
  eauto 6.
Qed.

Lemma generateStream_shape input events outcome :
  generateStream JSON_parse tpl w agent input = (events, outcome) →
  match outcome with
  | Ok _ =>
      ∃ fragments result before,
        streamed_article_fragments JSON_parse tpl w agent input = Ok (fragments, None)
        ∧ (∃ outline keywordResearch tokens,
             build_output w input outline keywordResearch (concat fragments) tokens
             = Ok result)
        ∧ events = before ++ (chunk_event <$> fragments)
                     ++ [ progress_event (js "article") 95 (js "Finalizing...");
                          complete_event result ]
        ∧ progress_values before = [5; 20; 35; 40; 55; 60]%Z
        ∧ chunk_payloads before = []
        ∧ Forall (λ event, is_terminal event = false) before
  | Throw _ =>
      progress_values events `prefix_of` CHECKPOINTS
      ∧ Forall (λ event, is_terminal event = false) events
  end.
Proof.
  unfold generateStream, streamed_article_fragments. intros H.
  apply gen_yield_inv in H as (ev1 & -> & H).
  destruct (analyzeSERP_total (in_topic input)) as [serpData HS].
  rewrite HS in H |- *. rewrite gen_bind_await_Ok in H. rewrite result_bind_Ok.
  apply gen_yield_inv in H as (ev2 & -> & H).
  destruct (performKeywordResearch _ _ _ _ _ _ _) as [[kw kwTokens]|e].
  2:{ injection H as <- <-. split; [by exists [35; 40; 55; 60; 95]%Z | repeat constructor]. }
  rewrite gen_bind_await_Ok in H. rewrite result_bind_Ok.
  apply gen_yield_inv in H as (ev3 & -> & H).
  apply gen_yield_inv in H as (ev4 & -> & H).
  destruct (generateOutline _ _ _ _ _ _) as [[outline outlineTokens]|e].
  2:{ injection H as <- <-. split; [by exists [55; 60; 95]%Z | repeat constructor]. }
  rewrite gen_bind_await_Ok in H. rewrite result_bind_Ok.
  apply gen_yield_inv in H as (ev5 & -> & H).
  apply gen_yield_inv in H as (ev6 & -> & H).
  apply gen_bind_inv in H. rewrite for_await_chunks_spec in H.
  destruct (writeArticleStream _ _ _ _ _) as [fragments [e|]]; cbn [fst snd] in H.
  { destruct H as [(e' & [= <-] & -> & ->) | (a & ? & [=] & _)]. split.
    - change (progress_values (?a :: ?b :: ?c :: ?d :: ?e :: ?f :: ?l))
        with ([5; 20; 35; 40; 55; 60]%Z ++ progress_values l).
      rewrite progress_values_chunks. by exists [95%Z].
    - repeat constructor. apply chunks_not_terminal. }
  destruct H as [(e' & [=] & _) | (a & ev7 & [= <-] & H & ->)].
  apply gen_yield_inv in H as (ev8 & -> & H).
  destruct (build_output _ _ _ _ _ _) as [result|e] eqn:Hbuild.
  - rewrite gen_bind_await_Ok in H. injection H as <- <-.
    exists fragments, result,
      [ progress_event (js "serp_analysis") 5 (js "Analyzing SERP results...");
        progress_event (js "keyword_research") 20 (js "Performing keyword research...");
        progress_event (js "keyword_research") 35 (js "Keyword research complete");
        progress_event (js "outline") 40 (js "Generating article outline...");
        progress_event (js "outline") 55 (js "Outline complete");
        progress_event (js "article") 60 (js "Writing article...") ].
    split; [done |]. split; [eauto |]. split; [done |].
    split; [done |]. split; [done |]. repeat constructor.
  - rewrite gen_bind_await_Throw in H. injection H as <- <-. split.
    + change (progress_values (?a :: ?b :: ?c :: ?d :: ?e :: ?f :: ?l))
        with ([5; 20; 35; 40; 55; 60]%Z ++ progress_values l).
      rewrite progress_values_app, progress_values_chunks. by exists [].
    + repeat constructor. apply Forall_app. split; [apply chunks_not_terminal |].
      repeat constructor.
Qed.

End PipelineFacts.

(** ** The keyword-plan parser *)

Lemma upto_last_rbrace_Some s span :
  upto_last_rbrace s = Some span →
  ∃ body after, span = body ++ [RBRACE] ∧ s = span ++ after.
Proof.
  revert span. induction s as [|c r IH]; intros span; simpl; [done |].
  destruct (upto_last_rbrace r) as [pre|] eqn:Hr.
  - intros [= <-]. destruct (IH pre eq_refl) as (body & after & -> & ->).
    exists (c :: body), after. done.
  - destruct (c =? RBRACE) eqn:Hc; [|done]. intros [= <-].
    apply N.eqb_eq in Hc as ->. by exists [], r.
Qed.

Lemma upto_last_rbrace_None s :
  upto_last_rbrace s = None → RBRACE ∉ s.
Proof.
  induction s as [|c r IH]; simpl; [intros _; apply not_elem_of_nil |].
  destruct (upto_last_rbrace r); [done |].
  destruct (c =? RBRACE) eqn:Hc; [done |]. intros _.
  apply N.eqb_neq in Hc. rewrite not_elem_of_cons. auto.
Qed.

Lemma match_json_span_None content :
  match_json_span content = None ↔ ¬ has_json_span content.
Proof.
  unfold has_json_span. induction content as [|c r IH]; simpl.
  - split; [|done]. intros _ (before & body & after & H).
    by destruct before.
  - destruct (c =? LBRACE) eqn:Hc.
    + apply N.eqb_eq in Hc as ->.
      destruct (upto_last_rbrace r) as [span|] eqn:Hr.
      * split; [done |]. intros []. 
        apply upto_last_rbrace_Some in Hr as (body & after & -> & ->).
        exists [], body, after. simpl. by rewrite <- app_assoc.
      * split; [|done]. intros _ (before & body & after & H).
        apply upto_last_rbrace_None in Hr. apply Hr.
        destruct before as [|b before]; simplify_eq/=.
        -- rewrite elem_of_app, elem_of_cons. auto.
        -- rewrite elem_of_app, elem_of_cons, elem_of_app, elem_of_cons. auto.
    + apply N.eqb_neq in Hc. rewrite IH. split.
      * intros Hno (before & body & after & H). apply Hno.
        destruct before as [|b before]; simplify_eq/=. eauto.
      * intros Hno (before & body & after & ->). apply Hno.
        exists (c :: before), body, after. done.
Qed.

Lemma parse_keyword_total JSON_parse content topic :
  ∃ plan, parseKeywordResearchResponse JSON_parse content topic = Ok plan.
Proof.
  unfold parseKeywordResearchResponse.
  destruct (match_json_span content) as [span|]; simpl; [|eauto].
  destruct (JSON_parse span); simpl; eauto.
Qed.

Lemma parse_keyword_fallback JSON_parse content topic :
  (¬ has_json_span content
   ∨ ∃ span e, match_json_span content = Some span ∧ JSON_parse span = Throw e) →
  parseKeywordResearchResponse JSON_parse content topic = Ok (keyword_fallback topic).
Proof.
  unfold parseKeywordResearchResponse.
  intros [Hno | (span & e & -> & Hparse)].
  - apply match_json_span_None in Hno. by rewrite Hno.
  - simpl. by rewrite Hparse.
Qed.

(** C1: when no JSON object can be extracted from the generation response
    and parsed — the text holds no opening brace followed by a closing one,
    or the span between the first opening and the last closing brace makes
    [JSON.parse] throw — the keyword-plan parser returns, without throwing,
    a plan whose [primaryKeyword.keyword] is the topic passed in, whose
    [secondaryKeywords], [longTailClusters], [questions],
    [contentStructure.sections] and [competitiveAnalysis.contentGaps] are
    empty arrays, and whose [contentStructure.targetWordCount] is 2500; and
    on every response whatsoever the parser returns a value and does not
    throw. *)
Theorem keyword_parser_fallback_on_malformed JSON_parse content topic :
  (¬ has_json_span content
   ∨ ∃ span e, match_json_span content = Some span ∧ JSON_parse span = Throw e) →
  (∀ content' topic', ∃ plan',
      parseKeywordResearchResponse JSON_parse content' topic' = Ok plan')
  ∧ ∃ plan,
      parseKeywordResearchResponse JSON_parse content topic = Ok plan
      ∧ get_path plan ["primaryKeyword"; "keyword"] = Ok (JStr topic)
      ∧ get_path plan ["secondaryKeywords"] = Ok (JArr [])
      ∧ get_path plan ["longTailClusters"] = Ok (JArr [])
      ∧ get_path plan ["questions"] = Ok (JArr [])
      ∧ get_path plan ["contentStructure"; "sections"] = Ok (JArr [])
      ∧ get_path plan ["competitiveAnalysis"; "contentGaps"] = Ok (JArr [])
      ∧ get_path plan ["contentStructure"; "targetWordCount"] = Ok (num 2500).
Proof.
  intros Hmalformed. split.
  - intros content' topic'. apply parse_keyword_total.
  - exists (keyword_fallback topic). split.
    + by apply parse_keyword_fallback.
    + repeat split.
Qed.

Lemma keyword_parser_fallback_on_malformed_witness :
  (∃ span e, match_json_span malformed_response = Some span
             ∧ demo_JSON_parse span = Throw e)
  ∧ ∃ plan,
      parseKeywordResearchResponse demo_JSON_parse malformed_response (js "remote tools")
      = Ok plan
      ∧ get_path plan ["primaryKeyword"; "keyword"] = Ok (JStr (js "remote tools"))
      ∧ get_path plan ["contentStructure"; "targetWordCount"] = Ok (num 2500).
Proof.
  assert (Hmalformed :
    ∃ span e, match_json_span malformed_response = Some span
              ∧ demo_JSON_parse span = Throw e).
  { exists (js "{primary: remote tools}"),
      (ThrownError (js "SyntaxError") (js "Unexpected token")).
    split; vm_compute; reflexivity. }
  split; [exact Hmalformed |].
  destruct (keyword_parser_fallback_on_malformed demo_JSON_parse malformed_response
              (js "remote tools") (or_intror Hmalformed))
    as (_ & plan & Hplan & Hkeyword & _ & _ & _ & _ & _ & Htarget).
  exists plan. repeat split; assumption.
Defined.

(** ** Word count and reading time of a completed run *)

Lemma readingTime_of_spec wordCount :
  ∃ n, minutes_of wordCount n ∧ readingTime_of wordCount = decimal n ++ js " min".
Proof.
  exists (Z.to_nat (ceil_div wordCount 200)). split; [|done].
  destruct (ceil_div_spec wordCount 200) as (Hle & Hlt & Hpos).
  unfold minutes_of. lia.
Qed.

Lemma build_output_consistent w input outline keywordResearch articleContent tokens out :
  build_output w input outline keywordResearch articleContent tokens = Ok out →
  article_consistent (out_article (data out)).
Proof.
  intros (_ & Hcontent & Hwords & Htime & _)%build_output_inv.
  unfold article_consistent. rewrite Hwords, Htime, Hcontent. split.
  - apply countWords_spec.
  - apply readingTime_of_spec.
Qed.

Lemma completions_of_completed_stream JSON_parse tpl w agent input events :
  generateStream JSON_parse tpl w agent input = (events, Ok ()) →
  ∃ fragments result outline keywordResearch tokens,
    completions events = [result]
    ∧ chunk_payloads events = fragments
    ∧ progress_values events = CHECKPOINTS
    ∧ streamed_article_fragments JSON_parse tpl w agent input = Ok (fragments, None)
    ∧ build_output w input outline keywordResearch (concat fragments) tokens = Ok result
    ∧ ∃ before, events = before ++ [complete_event result]
                ∧ Forall (λ event, is_terminal event = false) before.
Proof.
  intros H. apply generateStream_shape in H.
  destruct H as (fragments & result & before & Hfrag & (outline & kw & tokens & Hbuild)
                 & -> & Hprog & Hchunks & Hterm).
  exists fragments, result, outline, kw, tokens.
  rewrite !completions_app, !chunk_payloads_app, !progress_values_app.
  rewrite completions_chunks, chunk_payloads_chunks, progress_values_chunks.
  rewrite Hprog, Hchunks. repeat split; try done.
  - assert (completions before = []) as ->; [|done].
    clear -Hterm. induction Hterm as [|event rest Hevent _ IH]; [done |].
    destruct event; done.
  - by rewrite app_nil_r.
  - exists (before ++ (chunk_event <$> fragments)
              ++ [progress_event (js "article") 95 (js "Finalizing...")]).
    split; [by rewrite <- !app_assoc |].
    rewrite !Forall_app. repeat split; [done | apply chunks_not_terminal |].
    by repeat constructor.
Qed.

(** C3: for every completed run, buffered or streaming, the article's
    [wordCount] is the number of non-empty white-space-separated tokens of
    its [content] once every [#], [*], [_], backtick, [[], []], [(] and [)]
    is deleted, and [readingTime] is the decimal rendering of
    [ceil(wordCount / 200)] followed by [" min"]. *)
Theorem completed_run_word_count JSON_parse tpl w agent input out :
  completed_run JSON_parse tpl w agent input out →
  article_consistent (out_article (data out)).
Proof.
  intros [Hbuffered | (events & Hstream & Hin)].
  - apply generate_inv in Hbuffered as (outline & kw & content & tokens & _ & Hbuild).
    by eapply build_output_consistent.
  - apply completions_of_completed_stream in Hstream
      as (fragments & result & outline & kw & tokens & Hcompl & _ & _ & _ & Hbuild & _).
    rewrite Hcompl in Hin. apply list_elem_of_singleton in Hin as ->.
    by eapply build_output_consistent.
Qed.

Lemma completed_run_word_count_witness :
  ∃ out,
    completed_run demo_JSON_parse demo_templates demo_world demo_agent demo_input out
    ∧ art_wordCount (out_article (data out)) = 15%nat
    ∧ article_consistent (out_article (data out)).
Proof.
  eexists.
  assert (Hrun : generate demo_JSON_parse demo_templates demo_world demo_agent demo_input
                 = Ok _) by (vm_compute; reflexivity).
  split; [left; exact Hrun |]. split; [reflexivity |].
  exact (completed_run_word_count _ _ _ _ _ _ (or_introl Hrun)).
Defined.

(** ** The two modes agree on the article text *)

(** C2: when the article completion of the buffered run and the fragment
    sequence of the streaming run concatenate to the same text, the
    in-order concatenation of the payloads of the chunk events equals the
    [article.content] of the one [complete] event of the stream and the
    [article.content] the buffered [generate] call returns. *)
Theorem streaming_chunks_match_buffered_content
    JSON_parse tpl wb agentb ws agents input out events text fragments :
  generate JSON_parse tpl wb agentb input = Ok out →
  generateStream JSON_parse tpl ws agents input = (events, Ok ()) →
  buffered_article_completion JSON_parse tpl wb agentb input = Ok text →
  streamed_article_fragments JSON_parse tpl ws agents input = Ok (fragments, None) →
  concat fragments = text →
  ∃ result,
    completions events = [result]
    ∧ chunk_payloads events = fragments
    ∧ concat (chunk_payloads events) = art_content (out_article (data result))
    ∧ concat (chunk_payloads events) = art_content (out_article (data out)).
Proof.
  intros Hbuffered Hstream Htext Hfragments Hsame.
  apply generate_inv in Hbuffered as (outline & kw & content & tokens & Hcontent & Hbuild).
  rewrite Htext in Hcontent. injection Hcontent as <-.
  apply build_output_inv in Hbuild as (_ & Hout & _).
  apply completions_of_completed_stream in Hstream
    as (fragments' & result & outline' & kw' & tokens' & Hcompl & Hchunks & _
        & Hfragments' & Hbuild' & _).
  rewrite Hfragments in Hfragments'. injection Hfragments' as <-.
  apply build_output_inv in Hbuild' as (_ & Hresult & _).
  exists result. rewrite Hchunks, Hresult, Hout. done.
Qed.

Lemma streaming_chunks_match_buffered_content_witness :
  ∃ out events,
    generate demo_JSON_parse demo_templates demo_world demo_agent demo_input = Ok out
    ∧ generateStream demo_JSON_parse demo_templates demo_world demo_agent demo_input
      = (events, Ok ())
    ∧ concat demo_fragments = demo_article
    ∧ concat (chunk_payloads events) = art_content (out_article (data out)).
Proof.
  eexists. eexists.
  assert (Hbuffered :
    generate demo_JSON_parse demo_templates demo_world demo_agent demo_input = Ok _)
    by (vm_compute; reflexivity).
  assert (Hstream :
    generateStream demo_JSON_parse demo_templates demo_world demo_agent demo_input
    = (_, Ok ())) by (vm_compute; reflexivity).
  assert (Htext :
    buffered_article_completion demo_JSON_parse demo_templates demo_world demo_agent
      demo_input = Ok demo_article) by (vm_compute; reflexivity).
  assert (Hfragments :
    streamed_article_fragments demo_JSON_parse demo_templates demo_world demo_agent
      demo_input = Ok (demo_fragments, None)) by (vm_compute; reflexivity).
  assert (Hsame : concat demo_fragments = demo_article) by reflexivity.
  split; [exact Hbuffered |]. split; [exact Hstream |]. split; [exact Hsame |].
  destruct (streaming_chunks_match_buffered_content _ _ _ _ _ _ _ _ _ _ _
              Hbuffered Hstream Htext Hfragments Hsame) as (result & _ & _ & _ & H).
  exact H.
Defined.

(** ** Progress checkpoints *)

(** C5, as the specification states it, fails: the completed streaming run
    of the concrete world yields the progress values 5, 20, 35, 40, 55, 60
    and 95, and no progress event at 100. *)
Lemma progress_checkpoints_without_100 :
  ∃ events,
    generateStream demo_JSON_parse demo_templates demo_world demo_agent demo_input
    = (events, Ok ())
    ∧ progress_values events = [5; 20; 35; 40; 55; 60; 95]%Z
    ∧ progress_values events ≠ [5; 20; 35; 40; 55; 60; 95; 100]%Z.
Proof.
  eexists. split; [vm_compute; reflexivity |].
  split; [vm_compute; reflexivity | vm_compute; discriminate].
Qed.

(** C5, amended: a streaming run that reaches completion emits progress
    events whose percent values are exactly 5, 20, 35, 40, 55, 60 and 95 in
    that order, the first six before any chunk of the article and the last
    after all of them; no progress event carries 100, and the run ends with
    the [complete] event. *)
Theorem completed_stream_progress_checkpoints JSON_parse tpl w agent input events :
  generateStream JSON_parse tpl w agent input = (events, Ok ()) →
  progress_values events = [5; 20; 35; 40; 55; 60; 95]%Z
  ∧ (100%Z ∉ progress_values events)
  ∧ ∃ before fragments result,
      events = before ++ (chunk_event <$> fragments)
                 ++ [ progress_event (js "article") 95 (js "Finalizing...");
                      complete_event result ]
      ∧ progress_values before = [5; 20; 35; 40; 55; 60]%Z
      ∧ chunk_payloads before = []
      ∧ completions before = [].
Proof.
  intros H. pose proof H as Hshape.
  apply completions_of_completed_stream in H
    as (_ & _ & _ & _ & _ & _ & _ & Hprogress & _).
  apply generateStream_shape in Hshape
    as (fragments & result & before & _ & _ & Hevents & Hbefore & Hchunks & Hterm).
  rewrite Hprogress. split; [done |]. split.
  - unfold CHECKPOINTS. rewrite !not_elem_of_cons. repeat split; try done.
    apply not_elem_of_nil.
  - exists before, fragments, result. repeat split; try done.
    clear -Hterm. induction Hterm as [|event rest Hevent _ IH]; [done |].
    destruct event; done.
Qed.

Lemma completed_stream_progress_checkpoints_witness :
  ∃ events,
    generateStream demo_JSON_parse demo_templates demo_world demo_agent demo_input
    = (events, Ok ())
    ∧ progress_values events = [5; 20; 35; 40; 55; 60; 95]%Z.
Proof.
  eexists.
  assert (Hstream :
    generateStream demo_JSON_parse demo_templates demo_world demo_agent demo_input
    = (_, Ok ())) by (vm_compute; reflexivity).
  split; [exact Hstream |].
  exact (proj1 (completed_stream_progress_checkpoints _ _ _ _ _ _ Hstream)).
Defined.

(** ** The event stream of the streaming route *)

Lemma checkpoints_non_decreasing : non_decreasing CHECKPOINTS.
Proof.
  intros i j a b Hij Hi Hj.
  assert (Hbound : ∀ k c, CHECKPOINTS !! k = Some c →
            (k < 7)%nat ∧ nth k CHECKPOINTS 0%Z = c).
  { intros k c Hk.
    do 7 (destruct k as [|k]; [simplify_eq/=; split; [lia | done] |]). done. }
  destruct (Hbound i a Hi) as (Hi7 & <-), (Hbound j b Hj) as (Hj7 & <-).
  clear -Hij Hi7 Hj7.
  do 7 (destruct i as [|i]; [do 7 (destruct j as [|j]; [simpl; lia |]); lia |]). lia.
Qed.

Lemma checkpoints_prefix_ok values :
  values `prefix_of` CHECKPOINTS →
  non_decreasing values ∧ Forall (λ p, (0 ≤ p ≤ 100)%Z) values.
Proof.
  intros [rest Hrest]. split.
  - intros i j a b Hij Hi Hj. apply (checkpoints_non_decreasing i j a b Hij).
    + rewrite Hrest. by apply lookup_app_l_Some.
    + rewrite Hrest. by apply lookup_app_l_Some.
  - assert (Hall : Forall (λ p, (0 ≤ p ≤ 100)%Z) CHECKPOINTS)
      by (repeat constructor; lia).
    rewrite Hrest in Hall. by apply Forall_app in Hall as [Hall _].
Qed.

Lemma written_foldl events res :
  let res' := foldl (λ r event, res_write_event event r) res events in
  res_written res' = res_written res ++ events
  ∧ res_headersSent res' = res_headersSent res
  ∧ res_json res' = res_json res.
Proof.
  revert res. induction events as [|event rest IH]; intros res; simpl.
  - by rewrite app_nil_r.
  - destruct (IH (res_write_event event res)) as (-> & -> & ->). simpl.
    by rewrite <- app_assoc.
Qed.

(** C6: in every streaming run — every request the streaming route accepts
    — the percent values of the progress events written to the stream are
    non-decreasing and lie in [0,100], and the stream ends with exactly one
    terminal event: its last event is [complete] or [error], and no event
    before it is either. *)
Theorem stream_progress_monotone_one_terminal JSON_parse tpl w input provider :
  let res := post_generate_stream JSON_parse tpl w (Some input) provider in
  non_decreasing (progress_values (res_written res))
  ∧ Forall (λ p, (0 ≤ p ≤ 100)%Z) (progress_values (res_written res))
  ∧ res_ended res = true
  ∧ ∃ before last,
      res_written res = before ++ [last]
      ∧ is_terminal last = true
      ∧ Forall (λ event, is_terminal event = false) before.
Proof.
  unfold post_generate_stream.
  destruct (new_ContentGeneratorAgent _ _) as [agent|error].
  2:{ simpl. split; [by intros i j a b _ Hi | split; [constructor | split; [done |]]].
      exists [], (error_event (message_of error) GENERATION_ERROR). done. }
  destruct (generateStream _ _ _ _ _) as [events outcome] eqn:Hstream.
  pose proof (written_foldl events (res_flushHeaders fresh_response)) as (Hw & Hh & _).
  destruct outcome as [[]|error].
  - apply completions_of_completed_stream in Hstream
      as (fragments & result & _ & _ & _ & _ & _ & Hprogress & _ & _ & before & -> & Hbefore).
    simpl in *. rewrite Hw, Hprogress.
    destruct (checkpoints_prefix_ok CHECKPOINTS) as [Hmono Hbound]; [done |].
    repeat split; try done. exists before, (complete_event result). done.
  - apply generateStream_shape in Hstream as [Hprefix Hterm].
    unfold stream_catch. rewrite Hh. simpl in *. rewrite Hw. simpl.
    rewrite progress_values_app. simpl. rewrite app_nil_r.
    destruct (checkpoints_prefix_ok _ Hprefix) as [Hmono Hbound].
    repeat split; try done.
    exists events, (error_event (message_of error) GENERATION_ERROR). done.
Qed.

(** ** The ranked-results fetch *)

Lemma organicItems_renumber ranks (items : option (list ProviderItem)) :
  organicItems (renumber_all ranks items) = organicItems items.
Proof.
  destruct items as [items|]; [|done]. simpl.
  assert (Hfilter : filter is_organic (renumber ranks <$> items)
                    = renumber ranks <$> filter is_organic items).
  { induction items as [|item rest IH]; [done |].
    rewrite fmap_cons, !filter_cons, IH.
    destruct (decide (is_organic item)) as [Hitem|Hitem];
      destruct (decide (is_organic (renumber ranks item))) as [Hitem'|Hitem'];
      done. }
  rewrite Hfilter, <- fmap_take.
  generalize (take 10 (filter is_organic items)). intros kept.
  apply list_eq. intros i. rewrite !list_lookup_imap, list_lookup_fmap.
  by destruct (kept !! i).
Qed.

Lemma organicItems_entries items i entry :
  organicItems items !! i = Some entry →
  (i < 10)%nat
  ∧ si_rank entry = (i + 1)%nat
  ∧ ∃ item, filter is_organic (default [] items) !! i = Some item
            ∧ pi_type item = js "organic"
            ∧ si_url entry = pi_url item
            ∧ si_title entry = pi_title item
            ∧ si_domain entry = pi_domain item
            ∧ si_description entry = str_or (pi_description item) [].
Proof.
  destruct items as [items|]; simpl; [|done].
  rewrite list_lookup_imap, lookup_take.
  destruct (decide (i < 10)%nat) as [Hi|]; [|done].
  destruct (filter is_organic items !! i) as [item|] eqn:Hitem; [|done].
  intros [= <-]. split; [done |]. split; [done |]. exists item.
  assert (Horganic : item ∈ filter is_organic items)
    by (apply list_elem_of_lookup; eauto).
  apply list_elem_of_filter in Horganic as [Horganic _]. done.
Qed.

(** C7: for every response of the provider, the ranked-results fetch drops
    every entry whose type is not ["organic"] before it truncates to at most
    10 entries; the rank of each kept entry is its 1-based position in the
    filtered list, whatever [rank_group] and [rank_absolute] the provider
    sent; and when the response holds no result object the fetch returns a
    snapshot with the requested keyword, [totalResults] 0 and no items. *)
Theorem serp_fetch_filters_then_ranks w client params response :
  dataforseo_request w client (taskData params) = Ok response →
  ∃ snapshot,
    getSERPResults w client params = Ok snapshot
    ∧ (first_result response = None →
       snapshot = {| sr_keyword := sp_keyword params;
                     sr_totalResults := 0;
                     sr_items := [] |})
    ∧ (∀ result, first_result response = Some result →
         let organic := filter is_organic (default [] (tr_items result)) in
         sr_items snapshot = organicItems (tr_items result)
         ∧ length (sr_items snapshot) = (10 `min` length organic)%nat
         ∧ (∀ i entry, sr_items snapshot !! i = Some entry →
              si_rank entry = (i + 1)%nat
              ∧ ∃ item, organic !! i = Some item
                        ∧ pi_type item = js "organic"
                        ∧ si_url entry = pi_url item
                        ∧ si_title entry = pi_title item
                        ∧ si_domain entry = pi_domain item)
         ∧ (∀ ranks,
              organicItems (renumber_all ranks (tr_items result))
              = sr_items snapshot)).
Proof.
  intros Hresponse. exists (serp_of_response params response).
  unfold getSERPResults. rewrite Hresponse. split; [done |].
  unfold serp_of_response. split.
  - by intros ->.
  - intros result ->. simpl. split; [done |]. split.
    + destruct (tr_items result) as [items|]; simpl; [|done].
      by rewrite length_imap, length_take.
    + split.
      * intros i entry Hentry.
        apply organicItems_entries in Hentry
          as (_ & Hrank & item & Hitem & Htype & Hurl & Htitle & Hdomain & _).
        split; [done |]. exists item. done.
      * intros ranks. apply organicItems_renumber.
Qed.

Lemma serp_fetch_filters_then_ranks_witness :
  dataforseo_request serp_world (agent_dataForSEO demo_agent) (taskData demo_params)
  = Ok demo_response
  ∧ ∃ snapshot,
      getSERPResults serp_world (agent_dataForSEO demo_agent) demo_params = Ok snapshot
      ∧ si_rank <$> sr_items snapshot = [1; 2]%nat
      ∧ si_title <$> sr_items snapshot = [js "A"; js "B"].
Proof.
  split; [reflexivity |].
  destruct (serp_fetch_filters_then_ranks serp_world (agent_dataForSEO demo_agent)
              demo_params demo_response eq_refl) as (snapshot & Hfetch & _ & Hitems).
  exists snapshot. split; [exact Hfetch |].
  destruct (Hitems _ eq_refl) as (-> & _).
  split; vm_compute; reflexivity.
Defined.

(** ** A failed research fetch does not abort the run *)

Lemma analyzeSERP_catches tpl w agent topic e :
  getSERPResults w (agent_dataForSEO agent)
    {| sp_keyword := topic; sp_locationCode := None;
       sp_languageCode := None; sp_depth := None |} = Throw e →
  analyzeSERP tpl w agent topic = Ok SERP_UNAVAILABLE.
Proof. unfold analyzeSERP. by intros ->. Qed.

(** C8: if the research provider's SERP fetch throws — whatever it throws,
    an AUTH error included — the error is caught where the fetch is called
    and the text ["SERP data unavailable."] takes the place of the
    serialized snapshot; the buffered run is not aborted: it is the run of
    the remaining phases on that text, and it completes normally, with
    [success] set, whenever those phases do. *)
Theorem serp_failure_degrades_to_placeholder JSON_parse tpl w agent input e :
  getSERPResults w (agent_dataForSEO agent)
    {| sp_keyword := in_topic input; sp_locationCode := None;
       sp_languageCode := None; sp_depth := None |} = Throw e →
  analyzeSERP tpl w agent (in_topic input) = Ok (js "SERP data unavailable.")
  ∧ generate JSON_parse tpl w agent input
    = generate_from JSON_parse tpl w agent (js "SERP data unavailable.") input
  ∧ (∀ keywordResearch kwTokens outline outlineTokens articleContent articleTokens out,
       performKeywordResearch JSON_parse tpl w agent (in_topic input)
         (js "SERP data unavailable.") (in_targetAudience input)
       = Ok (keywordResearch, kwTokens) →
       generateOutline JSON_parse tpl w agent keywordResearch (in_internalLinks input)
       = Ok (outline, outlineTokens) →
       writeArticle tpl w agent outline keywordResearch
       = Ok (articleContent, articleTokens) →
       build_output w input outline keywordResearch articleContent
         {| tok_keywordResearch := kwTokens;
            tok_outline := outlineTokens;
            tok_article := articleTokens |} = Ok out →
       generate JSON_parse tpl w agent input = Ok out ∧ success out = true).
Proof.
  intros Hfetch. pose proof (analyzeSERP_catches tpl _ _ _ _ Hfetch) as Hserp.
  split; [exact Hserp |].
  assert (Hrun : generate JSON_parse tpl w agent input
                 = generate_from JSON_parse tpl w agent SERP_UNAVAILABLE input).
  { unfold generate. by rewrite Hserp. }
  split; [exact Hrun |].
  intros kw kwTokens outline outlineTokens content articleTokens out Hkw Houtline Harticle
    Hbuild.
  split; [| by apply build_output_inv in Hbuild as [? _]].
  change (js "SERP data unavailable.") with SERP_UNAVAILABLE in Hkw.
  rewrite Hrun. unfold generate_from. rewrite Hkw. simpl.
  rewrite Houtline. simpl. rewrite Harticle. simpl. exact Hbuild.
Qed.

Lemma serp_failure_degrades_to_placeholder_witness :
  getSERPResults demo_world (agent_dataForSEO demo_agent)
    {| sp_keyword := in_topic demo_input; sp_locationCode := None;
       sp_languageCode := None; sp_depth := None |} = Throw AUTH_ERROR
  ∧ analyzeSERP demo_templates demo_world demo_agent (in_topic demo_input)
    = Ok (js "SERP data unavailable.")
  ∧ ∃ out,
      generate demo_JSON_parse demo_templates demo_world demo_agent demo_input = Ok out
      ∧ success out = true.
Proof.
  assert (Hfetch :
    getSERPResults demo_world (agent_dataForSEO demo_agent)
      {| sp_keyword := in_topic demo_input; sp_locationCode := None;
         sp_languageCode := None; sp_depth := None |} = Throw AUTH_ERROR)
    by reflexivity.
  split; [exact Hfetch |].
  destruct (serp_failure_degrades_to_placeholder demo_JSON_parse demo_templates
              demo_world demo_agent demo_input AUTH_ERROR Hfetch)
    as (Hserp & _ & Hcompletes).
  split; [exact Hserp |].
  eexists. eapply Hcompletes; vm_compute; reflexivity.
Defined.

(** ** Missing credentials fail at construction *)

Lemma str_or_missing a b : missing a → str_or a b = b.
Proof. by intros [-> | ->]. Qed.

Lemma new_OpenAIClient_key env config client :
  new_OpenAIClient env config = Ok client → ai_apiKey (client_config client) ≠ [].
Proof.
  unfold new_OpenAIClient. simpl.
  destruct (str_or (config ≫= pai_apiKey) _) as [|c key]; simpl; [done |].
  by intros [= <-].
Qed.

Lemma new_GeminiClient_key env config client :
  new_GeminiClient env config = Ok client → ai_apiKey (client_config client) ≠ [].
Proof.
  unfold new_GeminiClient. simpl.
  destruct (str_or (config ≫= pai_apiKey) _) as [|c key]; simpl; [done |].
  by intros [= <-].
Qed.

(** C9: constructing a generation-provider client when no API key is
    available — the explicit configuration has none and the environment
    variable of the backend is unset or empty — throws at once, for the
    OpenAI and for the Gemini backend; so every client that exists, and
    every client an agent holds and calls [complete] or [stream] on, has a
    non-empty key. *)
Theorem missing_api_key_fails_at_construction env config :
  missing (config ≫= pai_apiKey) →
  (missing (env !! "OPENAI_API_KEY"%string) →
   new_OpenAIClient env config = Throw (new_Error "OpenAI API key not configured"))
  ∧ (missing (env !! "GOOGLE_AI_API_KEY"%string) →
     new_GeminiClient env config = Throw (new_Error "Google AI API key not configured"))
  ∧ (∀ env' config' client,
       new_OpenAIClient env' config' = Ok client ∨ new_GeminiClient env' config' = Ok client →
       ai_apiKey (client_config client) ≠ [])
  ∧ (∀ env' provider agent,
       new_ContentGeneratorAgent env' provider = Ok agent →
       ai_apiKey (client_config (agent_aiClient agent)) ≠ []).
Proof.
  intros Hconfig. split; [|split; [|split]].
  - intros Henv. unfold new_OpenAIClient. simpl.
    by rewrite (str_or_missing _ _ Hconfig), (str_or_missing _ _ Henv).
  - intros Henv. unfold new_GeminiClient. simpl.
    by rewrite (str_or_missing _ _ Hconfig), (str_or_missing _ _ Henv).
  - intros env' config' client [H | H].
    + by eapply new_OpenAIClient_key.
    + by eapply new_GeminiClient_key.
  - intros env' provider agent. unfold new_ContentGeneratorAgent.
    destruct (new_DataForSEOClient env' None) as [dataForSEO|]; simpl; [|done].
    destruct (default openai provider).
    + destruct (new_OpenAIClient env' None) as [client|] eqn:Hclient; simpl; [|done].
      intros [= <-]. simpl. by eapply new_OpenAIClient_key.
    + destruct (new_GeminiClient env' None) as [client|] eqn:Hclient; simpl; [|done].
      intros [= <-]. simpl. by eapply new_GeminiClient_key.
Qed.

Lemma missing_api_key_fails_at_construction_witness :
  missing (None ≫= pai_apiKey)
  ∧ missing ((∅ : gmap string jsstring) !! "OPENAI_API_KEY"%string)
  ∧ new_OpenAIClient ∅ None = Throw (new_Error "OpenAI API key not configured")
  ∧ new_GeminiClient ∅ None = Throw (new_Error "Google AI API key not configured").
Proof.
  assert (Hconfig : missing (None ≫= pai_apiKey)) by (left; reflexivity).
  assert (Hopenai : missing ((∅ : gmap string jsstring) !! "OPENAI_API_KEY"%string))
    by (left; reflexivity).
  assert (Hgemini : missing ((∅ : gmap string jsstring) !! "GOOGLE_AI_API_KEY"%string))
    by (left; reflexivity).
  destruct (missing_api_key_fails_at_construction ∅ None Hconfig) as (H1 & H2 & _).
  split; [exact Hconfig |]. split; [exact Hopenai |].
  split; [exact (H1 Hopenai) | exact (H2 Hgemini)].
Defined.

(** ** Reference extraction *)

Lemma span_until_spec stop s pre post :
  span_until stop s = (pre, post) →
  s = pre ++ post ∧ (stop ∉ pre) ∧ (post = [] ∨ ∃ rest, post = stop :: rest).
Proof.
  revert pre post. induction s as [|c r IH]; intros pre post; simpl.
  - intros [= <- <-]. split; [done |]. split; [apply not_elem_of_nil | by left].
  - destruct (c =? stop) eqn:Hc.
    + apply N.eqb_eq in Hc as ->. intros [= <- <-].
      split; [done |]. split; [apply not_elem_of_nil | right; eauto].
    + apply N.eqb_neq in Hc. destruct (span_until stop r) as [pre' post'].
      intros [= <- <-]. destruct (IH pre' post' eq_refl) as (-> & Hnot & Hpost).
      split; [done |]. split; [|done].
      rewrite not_elem_of_cons. auto.
Qed.

Lemma link_at_sound s label url :
  link_at s = Some (label, url) →
  ∃ post, 91 :: s = link_text label url ++ post
          ∧ label ≠ [] ∧ url ≠ [] ∧ (93 ∉ label) ∧ (41 ∉ url).
Proof.
  unfold link_at, link_text.
  destruct (span_until 93 s) as [label' rest] eqn:Hlabel.
  apply span_until_spec in Hlabel as (-> & Hnot & Hrest).
  destruct label' as [|l0 label']; [done |].
  destruct rest as [|b [|paren rest2]]; [done | done |].
  destruct (paren =? 40) eqn:Hparen; [|done]. apply N.eqb_eq in Hparen as ->.
  destruct Hrest as [|[rest' [= -> <-]]]; [done |].
  destruct (span_until 41 rest2) as [url' rest3] eqn:Hurl.
  apply span_until_spec in Hurl as (-> & Hnot_url & Hrest3).
  destruct url' as [|u0 url']; [done |].
  destruct rest3 as [|b rest3]; [done |].
  destruct Hrest3 as [|[rest' [= -> <-]]]; [done |].
  intros [= <- <-]. exists rest3. split; [|done].
  simpl. rewrite <- !app_assoc. simpl. rewrite <- !app_assoc. done.
Qed.

Lemma first_link_sound line label url :
  first_link line = Some (label, url) →
  ∃ pre post, line = pre ++ link_text label url ++ post
              ∧ label ≠ [] ∧ url ≠ [] ∧ (93 ∉ label) ∧ (41 ∉ url).
Proof.
  induction line as [|c r IH]; simpl; [done |].
  destruct (c =? 91) eqn:Hc.
  - apply N.eqb_eq in Hc as ->.
    destruct (link_at r) as [[label' url']|] eqn:Hat.
    + intros [= -> ->]. apply link_at_sound in Hat as (post & Hline & Hrest).
      exists [], post. done.
    + intros (pre & post & -> & Hrest)%IH. exists (91 :: pre), post. done.
  - intros (pre & post & -> & Hrest)%IH. exists (c :: pre), post. done.
Qed.

Lemma match_ref_section_unfold content :
  match_ref_section content =
  if ci_prefix REFERENCES_HEADING content then Some content
  else match content with
       | [] => None
       | _ :: rest => match_ref_section rest
       end.
Proof. by destruct content. Qed.

Lemma match_ref_section_Some content refSection :
  match_ref_section content = Some refSection →
  ∃ before, content = before ++ refSection
            ∧ ci_prefix REFERENCES_HEADING refSection = true
            ∧ ∀ before' rest, content = before' ++ rest →
                (length before' < length before)%nat →
                ci_prefix REFERENCES_HEADING rest = false.
Proof.
  induction content as [|c r IH]; rewrite match_ref_section_unfold.
  - done.
  - destruct (ci_prefix REFERENCES_HEADING (c :: r)) eqn:Hp.
    + intros [= <-]. exists []. split; [done |]. split; [done |]. simpl. lia.
    + intros (before & -> & Hsec & Hleft)%IH. exists (c :: before).
      split; [done |]. split; [done |].
      intros [|c' before'] rest Heq Hlen; simplify_eq/=; [done |].
      apply (Hleft before'); [done | lia].
Qed.

Lemma match_ref_section_None content :
  ¬ occurs_ci REFERENCES_HEADING content → match_ref_section content = None.
Proof.
  intros Hno. destruct (match_ref_section content) as [refSection|] eqn:Hsec; [|done].
  apply match_ref_section_Some in Hsec as (before & -> & Hprefix & _).
  destruct Hno. by exists before, refSection.
Qed.

Lemma omap_cons_step {A B} (f : A → option B) x l :
  omap f (x :: l) = match f x with
                    | Some y => y :: omap f l
                    | None => omap f l
                    end.
Proof. done. Qed.

(** The references built from the kept lines, the first of which has
    index [k]. *)
Lemma numbered_from k (lines : list jsstring) :
  let refs := omap reference_of_line (imap (λ i line, ((k + i)%nat, line)) lines) in
  StronglySorted lt (ref_number <$> refs)
  ∧ Forall (λ n, (k < n)%nat) (ref_number <$> refs)
  ∧ (Forall (λ line, is_Some (first_link line)) lines →
     ref_number <$> refs = seq (S k) (length lines)).
Proof.
  revert k. induction lines as [|line rest IH]; intros k.
  - split; [constructor |]. split; [constructor | done].
  - cbn zeta. rewrite imap_cons, omap_cons_step.
    rewrite (imap_ext _ (λ i line, ((S k + i)%nat, line)))
      by (intros; simpl; f_equal; lia).
    destruct (IH (S k)) as (Hsorted & Hbound & Hall). cbn zeta in *.
    assert (Hline : reference_of_line ((k + 0)%nat, line)
                    = match first_link line with
                      | Some (label, url) => Some (mkReference (S k) label url)
                      | None => None
                      end).
    { unfold reference_of_line. destruct (first_link line) as [[label url]|]; [|done].
      do 2 f_equal. lia. }
    rewrite Hline. clear Hline.
    destruct (first_link line) as [[label url]|] eqn:Hlink.
    + rewrite fmap_cons. cbn [ref_number length seq]. split; [|split].
      * constructor; [done |]. exact Hbound.
      * constructor; [lia |]. eapply Forall_impl; [|exact Hbound]. simpl. intros. lia.
      * intros Hlines. inversion Hlines as [|? ? _ Hrest]; subst.
        by rewrite (Hall Hrest).
    + split; [done |]. split.
      * eapply Forall_impl; [|exact Hbound]. simpl. intros. lia.
      * intros Hlines. inversion Hlines as [|? ? [? Hsome] _]; subst.
        rewrite Hlink in Hsome. done.
Qed.

Lemma reference_of_line_Some i line r :
  reference_of_line (i, line) = Some r ↔
  first_link line = Some (ref_source r, ref_url r) ∧ ref_number r = (i + 1)%nat.
Proof.
  unfold reference_of_line. destruct r as [n source url]. simpl.
  destruct (first_link line) as [[label target]|]; [|split; [done | by intros [? _]]].
  split.
  - intros Hsome. by simplify_eq.
  - intros [Hlink ->]. by simplify_eq.
Qed.

Lemma extractReferences_kept_lines content :
  extractReferences content = omap reference_of_line (imap pair (kept_lines content)).
Proof. unfold extractReferences, kept_lines. by destruct (match_ref_section content). Qed.

(** C4, as the specification states it, fails: in the article of the
    concrete run the second numbered line of the references section has no
    link, and the two references returned are numbered 1 and 3, not 1
    and 2. *)
Lemma reference_numbers_skip_dropped_lines :
  ref_number <$> extractReferences demo_article = [1; 3]%nat
  ∧ ref_number <$> extractReferences demo_article
    ≠ seq 1 (length (extractReferences demo_article)).
Proof. split; [vm_compute; reflexivity | vm_compute; discriminate]. Qed.

(** C4, amended: for every article text, reference extraction takes the
    text from the first occurrence of ["## References"], compared without
    regard to case, to the end; keeps only the lines that begin with a
    numeric list marker; extracts from each kept line the first markdown
    [[label](url)] link and silently drops the lines without one; and
    numbers each returned reference with the 1-based position of its line
    among the kept lines, whatever numbering the text carries.  The numbers
    are therefore strictly increasing, and they are exactly 1, 2, ..., n
    when every kept line has a link.  Extraction is a function of the text:
    re-running it yields the identical list. *)
Theorem reference_numbers_follow_kept_lines content :
  let refs := extractReferences content in
  (∀ r, r ∈ refs ↔
        ∃ i line, kept_lines content !! i = Some line
                  ∧ first_link line = Some (ref_source r, ref_url r)
                  ∧ ref_number r = (i + 1)%nat)
  ∧ StronglySorted lt (ref_number <$> refs)
  ∧ (Forall (λ line, is_Some (first_link line)) (kept_lines content) →
     ref_number <$> refs = seq 1 (length (kept_lines content)))
  ∧ (∀ line, line ∈ kept_lines content ↔
             ∃ refSection, match_ref_section content = Some refSection
                           ∧ line ∈ split_lines refSection
                           ∧ numbered_line line = true)
  ∧ (∀ refSection, match_ref_section content = Some refSection →
       ∃ before, content = before ++ refSection
                 ∧ ci_prefix REFERENCES_HEADING refSection = true
                 ∧ ∀ before' rest, content = before' ++ rest →
                     (length before' < length before)%nat →
                     ci_prefix REFERENCES_HEADING rest = false)
  ∧ (∀ line label url, first_link line = Some (label, url) →
       ∃ pre post, line = pre ++ link_text label url ++ post
                   ∧ label ≠ [] ∧ url ≠ [] ∧ (93 ∉ label) ∧ (41 ∉ url)).
Proof.
  cbn zeta. rewrite extractReferences_kept_lines.
  destruct (numbered_from 0 (kept_lines content)) as (Hsorted & _ & Hall).
  cbn zeta in Hsorted, Hall.
  rewrite (imap_ext _ pair) in Hsorted, Hall by done.
  split; [|split; [exact Hsorted | split; [exact Hall | split; [|split]]]].
  - intros r. rewrite list_elem_of_omap. split.
    + intros ([i line] & Hin & Href).
      apply elem_of_lookup_imap in Hin as (i' & line' & [= -> ->] & Hline).
      apply reference_of_line_Some in Href. eauto.
    + intros (i & line & Hline & Href). exists (i, line). split.
      * apply elem_of_lookup_imap. eauto.
      * by apply reference_of_line_Some.
  - intros line. unfold kept_lines, refLines_of.
    destruct (match_ref_section content) as [refSection|].
    + rewrite list_elem_of_filter. split.
      * intros [Hnumbered Hin]. eauto.
      * intros (? & [= <-] & Hin & Hnumbered). done.
    + split; [by intros ?%elem_of_nil | by intros (? & ? & _)].
  - apply match_ref_section_Some.
  - apply first_link_sound.
Qed.

Lemma reference_numbers_follow_kept_lines_witness :
  Forall (λ line, is_Some (first_link line)) (kept_lines linked_references)
  ∧ ref_number <$> extractReferences linked_references = [1; 2]%nat
  ∧ ref_source <$> extractReferences linked_references = [js "A"; js "B"].
Proof.
  assert (Hlinked :
    Forall (λ line, is_Some (first_link line)) (kept_lines linked_references)).
  { vm_compute. repeat constructor; eexists; reflexivity. }
  split; [exact Hlinked |].
  destruct (reference_numbers_follow_kept_lines linked_references)
    as (_ & _ & Hall & _).
  split; [exact (Hall Hlinked) | vm_compute; reflexivity].
Defined.

(** C10, as the specification states it, fails: a text whose references
    heading is a third-level one has no line that starts with
    ["## References"], and extraction still returns its reference. *)
Lemma h3_heading_still_matches :
  line_starts_ci REFERENCES_HEADING h3_references = false
  ∧ extractReferences h3_references
    = [ mkReference 1 (js "A") (js "https://a.example") ]
  ∧ extractReferences h3_references ≠ [].
Proof.
  split; [vm_compute; reflexivity |].
  split; [vm_compute; reflexivity | vm_compute; discriminate].
Qed.

(** C10, amended: reference extraction is a total function on strings: it
    has no step that can throw and returns a list, possibly empty, for every
    text; when ["## References"] occurs nowhere in the text (at the start
    of a line or inside one, compared without regard to case) it returns
    the empty list; and every completed run, buffered or streaming, carries
    as its [references] the list extracted from its article text. *)
Theorem references_empty_without_heading content :
  (¬ occurs_ci REFERENCES_HEADING content → extractReferences content = [])
  ∧ (∀ JSON_parse tpl w agent input out,
       completed_run JSON_parse tpl w agent input out →
       out_references (data out)
       = extractReferences (art_content (out_article (data out)))).
Proof.
  split.
  - intros Hno. unfold extractReferences. by rewrite match_ref_section_None.
  - intros JSON_parse tpl w agent input out [Hbuffered | (events & Hstream & Hin)].
    + apply generate_inv in Hbuffered as (outline & kw & text & tokens & _ & Hbuild).
      apply build_output_inv in Hbuild as (_ & -> & _ & _ & ->). done.
    + apply completions_of_completed_stream in Hstream
        as (fragments & result & outline & kw & tokens & Hcompl & _ & _ & _ & Hbuild & _).
      rewrite Hcompl in Hin. apply list_elem_of_singleton in Hin as ->.
      apply build_output_inv in Hbuild as (_ & -> & _ & _ & ->). done.
Qed.

Lemma match_ref_section_occurs content :
  occurs_ci REFERENCES_HEADING content → match_ref_section content ≠ None.
Proof.
  intros (before & rest & -> & Hprefix).
  induction before as [|b before IH]; rewrite match_ref_section_unfold.
  - change ([] ++ rest) with rest. by rewrite Hprefix.
  - by destruct (ci_prefix REFERENCES_HEADING ((b :: before) ++ rest)).
Qed.

Lemma occurs_ci_plain_text : ¬ occurs_ci REFERENCES_HEADING plain_text.
Proof.
  intros Hoccurs%match_ref_section_occurs. apply Hoccurs. vm_compute. reflexivity.
Qed.

Lemma references_empty_without_heading_witness :
  ¬ occurs_ci REFERENCES_HEADING plain_text ∧ extractReferences plain_text = [].
Proof.
  split; [exact occurs_ci_plain_text |].
  exact (proj1 (references_empty_without_heading plain_text) occurs_ci_plain_text).
Defined.

(** * More properties *)

(** ** The brace span of a generation response *)

Lemma upto_last_rbrace_None_iff s : upto_last_rbrace s = None ↔ RBRACE ∉ s.
Proof.
  split; [apply upto_last_rbrace_None |].
  induction s as [|c r IH]; [done |].
  rewrite not_elem_of_cons. intros [Hc Hr]. simpl. rewrite (IH Hr).
  destruct (c =? RBRACE) eqn:E; [|done]. apply N.eqb_eq in E. congruence.
Qed.

Lemma upto_last_rbrace_intro body after :
  RBRACE ∉ after →
  upto_last_rbrace (body ++ RBRACE :: after) = Some (body ++ [RBRACE]).
Proof.
  intros Hafter. induction body as [|b body IH]; simpl.
  - apply upto_last_rbrace_None_iff in Hafter. by rewrite Hafter.
  - by rewrite IH.
Qed.

Lemma upto_last_rbrace_elim s span :
  upto_last_rbrace s = Some span →
  ∃ body after, span = body ++ [RBRACE] ∧ s = span ++ after ∧ (RBRACE ∉ after).
Proof.
  revert span. induction s as [|c r IH]; intros span; simpl; [done |].
  destruct (upto_last_rbrace r) as [pre|] eqn:Hr.
  - intros [= <-]. destruct (IH pre eq_refl) as (body & after & -> & Hs & Hafter).
    exists (c :: body), after. rewrite Hs at 1. done.
  - destruct (c =? RBRACE) eqn:Hc; [|done]. intros [= <-].
    apply N.eqb_eq in Hc as ->. exists [], r.
    split; [done |]. split; [done |]. by apply upto_last_rbrace_None_iff.
Qed.

(** X1: the span the parsers hand to [JSON.parse] is the text from the
    first opening brace to the last closing brace: the regular expression
    matches with [span] exactly when the response splits as
    [before ++ span ++ after] with [span] running from an opening to a
    closing brace, no opening brace in [before] and no closing brace in
    [after]. *)
Theorem json_span_is_first_to_last_brace content span :
  match_json_span content = Some span ↔
  ∃ before body after,
    content = before ++ span ++ after
    ∧ span = LBRACE :: body ++ [RBRACE]
    ∧ (LBRACE ∉ before) ∧ (RBRACE ∉ after).
Proof.
  split.
  - revert span. induction content as [|c r IH]; intros span; simpl; [done |].
    destruct (c =? LBRACE) eqn:Hc.
    + apply N.eqb_eq in Hc as ->.
      destruct (upto_last_rbrace r) as [pre|] eqn:Hr; [|done]. intros [= <-].
      apply upto_last_rbrace_elim in Hr as (body & after & -> & -> & Hafter).
      exists [], body, after. split; [done |]. split; [done |].
      split; [apply not_elem_of_nil | done].
    + apply N.eqb_neq in Hc.
      intros (before & body & after & -> & Hspan & Hbefore & Hafter)%IH.
      exists (c :: before), body, after. split; [done |]. split; [done |].
      split; [|done]. rewrite not_elem_of_cons. split; [congruence | done].
  - intros (before & body & after & -> & -> & Hbefore & Hafter).
    induction before as [|b before IH]; simpl.
    + rewrite <- app_assoc. simpl.
      by rewrite (upto_last_rbrace_intro _ _ Hafter).
    + apply not_elem_of_cons in Hbefore as [Hb Hbefore].
      destruct (b =? LBRACE) eqn:E; [apply N.eqb_eq in E; congruence |].
      by apply IH.
Qed.

(** ** What a parsed plan and outline must hold *)

Lemma get_nullish v k : nullish v → get v k = Throw TypeError.
Proof. by intros [-> | ->]. Qed.

Lemma get_not_nullish v k : ¬ nullish v → ∃ x, get v k = Ok x.
Proof.
  unfold nullish. destruct v; simpl; eauto; intros H; destruct H; auto.
Qed.

Lemma get_Ok_not_nullish v k x : get v k = Ok x → ¬ nullish v.
Proof. intros H [-> | ->]; done. Qed.

Lemma nullish_dec v : nullish v ∨ ¬ nullish v.
Proof.
  unfold nullish. destruct v; try (by left; auto); right; intros [|]; done.
Qed.

Lemma parse_outline_fallback JSON_parse content keywordResearch :
  malformed JSON_parse content →
  parseOutlineResponse JSON_parse content keywordResearch
  = outline_fallback keywordResearch.
Proof.
  unfold parseOutlineResponse. intros [Hno | (span & e & -> & Hparse)].
  - apply match_json_span_None in Hno. by rewrite Hno.
  - simpl. by rewrite Hparse.
Qed.

(** X2: when no JSON object can be extracted from the outline response,
    [parseOutlineResponse] builds its fallback from the keyword plan: it
    returns exactly when the plan, its [primaryKeyword] and its
    [contentStructure] are neither [undefined] nor [null] (and throws a
    [TypeError] otherwise), and the outline it returns has the plan's
    keyword, h1, meta title, meta description and target word count as
    metadata and empty sections, FAQ and citations. *)
Theorem outline_fallback_copies_plan JSON_parse content keywordResearch :
  malformed JSON_parse content →
  ((∃ outline, parseOutlineResponse JSON_parse content keywordResearch = Ok outline)
   ↔ (∃ primary structure,
        get keywordResearch "primaryKeyword" = Ok primary ∧ ¬ nullish primary
        ∧ get keywordResearch "contentStructure" = Ok structure ∧ ¬ nullish structure))
  ∧ ((¬ ∃ outline, parseOutlineResponse JSON_parse content keywordResearch = Ok outline) →
     parseOutlineResponse JSON_parse content keywordResearch = Throw TypeError)
  ∧ (∀ outline,
       parseOutlineResponse JSON_parse content keywordResearch = Ok outline →
       get_path outline ["metadata"; "primaryKeyword"]
       = get_path keywordResearch ["primaryKeyword"; "keyword"]
       ∧ get_path outline ["metadata"; "h1"]
         = get_path keywordResearch ["contentStructure"; "h1"]
       ∧ get_path outline ["metadata"; "metaTitle"]
         = get_path keywordResearch ["contentStructure"; "metaTitle"]
       ∧ get_path outline ["metadata"; "metaDescription"]
         = get_path keywordResearch ["contentStructure"; "metaDescription"]
       ∧ get_path outline ["metadata"; "targetWordCount"]
         = get_path keywordResearch ["contentStructure"; "targetWordCount"]
       ∧ get_path outline ["sections"] = Ok (JArr [])
       ∧ get_path outline ["faq"] = Ok (JArr [])
       ∧ get_path outline ["citations"] = Ok (JArr [])).
Proof.
  intros Hmalformed. rewrite (parse_outline_fallback _ _ _ Hmalformed).
  unfold outline_fallback. simpl.
  destruct (nullish_dec keywordResearch) as [Hkw | Hkw].
  { assert (Hget : ∀ k, get keywordResearch k = Throw TypeError)
      by (intros k; by apply get_nullish).
    rewrite !Hget. simpl. split; [|split; [done | done]].
    split; [by intros [? ?] |]. intros (p & s & Hp & _). done. }
  destruct (get_not_nullish keywordResearch "primaryKeyword" Hkw) as [primary Hprimary].
  destruct (get_not_nullish keywordResearch "contentStructure" Hkw) as [structure Hstructure].
  rewrite !Hprimary, !Hstructure. simpl.
  destruct (nullish_dec primary) as [Hp | Hp].
  { rewrite (get_nullish primary "keyword" Hp). simpl. split; [|split; [done | done]].
    split; [by intros [? ?] |]. intros (p & s & [= <-] & Hnot & _). done. }
  destruct (get_not_nullish primary "keyword" Hp) as [keyword Hkeyword].
  rewrite !Hkeyword. simpl.
  destruct (nullish_dec structure) as [Hs | Hs].
  { assert (Hget : ∀ k, get structure k = Throw TypeError)
      by (intros k; by apply get_nullish).
    rewrite !Hget. simpl. split; [|split; [done | done]].
    split; [by intros [? ?] |]. intros (p & s & _ & _ & [= <-] & Hnot). done. }
  destruct (get_not_nullish structure "h1" Hs) as [h1 Hh1].
  destruct (get_not_nullish structure "metaTitle" Hs) as [metaTitle HmetaTitle].
  destruct (get_not_nullish structure "metaDescription" Hs) as [metaDescription Hmd].
  destruct (get_not_nullish structure "targetWordCount" Hs) as [target Htarget].
  rewrite !Hh1, !HmetaTitle, !Hmd, !Htarget. simpl.
  split; [|split].
  - split; [intros _; eauto 8 | eauto].
  - intros Hnone. destruct Hnone. eauto.
  - intros outline [= <-]. simpl. done.
Qed.

Lemma outline_fallback_copies_plan_witness :
  malformed demo_JSON_parse malformed_response
  ∧ ∃ outline,
      parseOutlineResponse demo_JSON_parse malformed_response
        (keyword_fallback (js "remote tools")) = Ok outline
      ∧ get_path outline ["metadata"; "h1"] = Ok (JStr (js "remote tools")).
Proof.
  assert (Hmalformed : malformed demo_JSON_parse malformed_response).
  { right. exists (js "{primary: remote tools}"),
      (ThrownError (js "SyntaxError") (js "Unexpected token")).
    split; vm_compute; reflexivity. }
  split; [exact Hmalformed |].
  destruct (outline_fallback_copies_plan demo_JSON_parse malformed_response
              (keyword_fallback (js "remote tools")) Hmalformed) as ([_ Hok] & _ & Hfields).
  destruct Hok as [outline Houtline].
  { eexists. eexists. split; [reflexivity |]. split; [by intros [|] |].
    split; [reflexivity | by intros [|]]. }
  exists outline. split; [exact Houtline |].
  destruct (Hfields outline Houtline) as (_ & -> & _). reflexivity.
Defined.

Lemma mapM_get_Ok key items :
  (∃ values, mapM (λ k, get k key) items = Ok values)
  ↔ Forall (λ k, ¬ nullish k) items.
Proof.
  induction items as [|item rest IH]; simpl.
  - split; [constructor | eauto].
  - split.
    + intros [values H].
      destruct (get item key) as [v|] eqn:Hitem; simpl in H; [|done].
      constructor; [by eapply get_Ok_not_nullish |]. apply IH.
      destruct (mapM _ rest) as [vs|]; simpl in H; [eauto | done].
    + intros H. inversion H as [|? ? Hitem Hrest]; subst.
      destruct (get_not_nullish item key Hitem) as [v ->]. simpl.
      apply IH in Hrest as [vs ->]. simpl. eauto.
Qed.

Lemma mapM_get_values key items values :
  mapM (λ k, get k key) items = Ok values →
  Forall2 (λ k v, get k key = Ok v) items values.
Proof.
  revert values. induction items as [|item rest IH]; intros values; simpl.
  - intros [= <-]. constructor.
  - destruct (get item key) as [v|] eqn:Hitem; simpl; [|done].
    destruct (mapM _ rest) as [vs|]; simpl; [|done].
    intros [= <-]. constructor; [done | by apply IH].
Qed.

(** X3: the envelope of a run can be assembled exactly when the outline has
    a [metadata] that is neither [undefined] nor [null], the keyword plan
    has such a [primaryKeyword], and the plan's [secondaryKeywords] is an
    array without [null] entries; a parsed plan or outline that lacks one
    of them makes the assembly throw.  When it succeeds, the title and the
    SEO fields are the outline's metadata and the plan's keywords, and the
    internal links of the request come back one for one. *)
Theorem envelope_assembles_iff w input outline keywordResearch articleContent tokens :
  ((∃ out, build_output w input outline keywordResearch articleContent tokens = Ok out)
   ↔ (∃ meta, get outline "metadata" = Ok meta ∧ ¬ nullish meta)
     ∧ (∃ primary, get keywordResearch "primaryKeyword" = Ok primary ∧ ¬ nullish primary)
     ∧ (∃ items, get keywordResearch "secondaryKeywords" = Ok (JArr items)
                 ∧ Forall (λ k, ¬ nullish k) items))
  ∧ (∀ out,
       build_output w input outline keywordResearch articleContent tokens = Ok out →
       get_path outline ["metadata"; "h1"] = Ok (art_title (out_article (data out)))
       ∧ get_path outline ["metadata"; "metaTitle"] = Ok (seo_metaTitle (out_seo (data out)))
       ∧ get_path outline ["metadata"; "metaDescription"]
         = Ok (seo_metaDescription (out_seo (data out)))
       ∧ get_path keywordResearch ["primaryKeyword"; "keyword"]
         = Ok (seo_primaryKeyword (out_seo (data out)))
       ∧ (∃ items, get keywordResearch "secondaryKeywords" = Ok (JArr items)
                   ∧ Forall2 (λ k v, get k "keyword" = Ok v) items
                       (seo_secondaryKeywords (out_seo (data out))))
       ∧ pl_url <$> out_internalLinks (data out)
         = il_url <$> default [] (in_internalLinks input)
       ∧ pl_anchorText <$> out_internalLinks (data out)
         = il_title <$> default [] (in_internalLinks input)
       ∧ Forall (λ link, pl_placement link = js "body") (out_internalLinks (data out))
       ∧ md_tokensUsed (metadata out) = tokens).
Proof.
  unfold build_output. simpl.
  destruct (get outline "metadata") as [meta|] eqn:Hmeta; simpl.
  2:{ split; [|done]. split; [by intros [? ?] | by intros ((? & ? & _) & _)]. }
  destruct (nullish_dec meta) as [Hm | Hm].
  { assert (Hget : ∀ k, get meta k = Throw TypeError) by (intros; by apply get_nullish).
    rewrite !Hget. simpl. split; [|done].
    split; [by intros [? ?] |]. intros ((? & [= <-] & ?) & _). done. }
  destruct (get_not_nullish meta "h1" Hm) as [h1 Hh1].
  destruct (get_not_nullish meta "metaTitle" Hm) as [metaTitle HmetaTitle].
  destruct (get_not_nullish meta "metaDescription" Hm) as [metaDescription Hmd].
  rewrite !Hh1, !HmetaTitle, !Hmd. simpl.
  destruct (get keywordResearch "primaryKeyword") as [primary|] eqn:Hprimary; simpl.
  2:{ split; [|done]. split; [by intros [? ?] | by intros (_ & (? & ? & _) & _)]. }
  destruct (nullish_dec primary) as [Hp | Hp].
  { rewrite (get_nullish primary "keyword" Hp). simpl. split; [|done].
    split; [by intros [? ?] |]. intros (_ & (? & [= <-] & ?) & _). done. }
  destruct (get_not_nullish primary "keyword" Hp) as [keyword Hkeyword].
  rewrite !Hkeyword. simpl.
  assert (Hkw : ¬ nullish keywordResearch) by (by eapply get_Ok_not_nullish).
  destruct (get_not_nullish keywordResearch "secondaryKeywords" Hkw) as [secondary Hsec].
  rewrite !Hsec. simpl.
  destruct (map_keyword secondary) as [values|] eqn:Hvalues; simpl.
  - unfold map_keyword in Hvalues. destruct secondary as [| | | | |items|]; try done.
    split.
    + split; [intros _ | eauto].
      split; [eauto |]. split; [eauto |]. exists items. split; [done |].
      apply (mapM_get_Ok "keyword"). eauto.
    + intros out [= <-]. simpl. repeat split; try done.
      * exists items. split; [done |]. by apply mapM_get_values.
      * destruct (in_internalLinks input) as [links|]; simpl; [|done].
        by rewrite <- !list_fmap_compose.
      * destruct (in_internalLinks input) as [links|]; simpl; [|done].
        by rewrite <- !list_fmap_compose.
      * destruct (in_internalLinks input) as [links|]; simpl; [|constructor].
        apply Forall_fmap. by apply Forall_true.
  - split; [|done]. split; [by intros [? ?] |].
    intros (_ & _ & items & [= ->] & Hitems). simpl in Hvalues.
    apply (mapM_get_Ok "keyword") in Hitems as [vs Hvs]. congruence.
Qed.

(** X4: when neither the keyword response nor the outline response yields a
    JSON object, the two fallbacks fit together: the plan and the outline
    are returned, the envelope is assembled without a throw for any article
    text, and its title, meta title and primary keyword are the topic, its
    meta description is ["Learn about "] followed by the topic, its
    secondary keywords are empty and the outline's target is 2500 words. *)
Theorem degraded_run_assembles
    JSON_parse w input topic kwResponse outlineResponse articleContent tokens :
  malformed JSON_parse kwResponse →
  malformed JSON_parse outlineResponse →
  ∃ plan outline out,
    parseKeywordResearchResponse JSON_parse kwResponse topic = Ok plan
    ∧ parseOutlineResponse JSON_parse outlineResponse plan = Ok outline
    ∧ build_output w input outline plan articleContent tokens = Ok out
    ∧ art_title (out_article (data out)) = JStr topic
    ∧ seo_metaTitle (out_seo (data out)) = JStr topic
    ∧ seo_metaDescription (out_seo (data out)) = JStr (js "Learn about " ++ topic)
    ∧ seo_primaryKeyword (out_seo (data out)) = JStr topic
    ∧ seo_secondaryKeywords (out_seo (data out)) = []
    ∧ get_path outline ["metadata"; "targetWordCount"] = Ok (num 2500).
Proof.
  intros Hkw Houtline.
  exists (keyword_fallback topic).
  rewrite (parse_keyword_fallback _ _ _ Hkw).
  eexists. eexists.
  split; [reflexivity |].
  split; [by rewrite (parse_outline_fallback _ _ _ Houtline) |].
  split; [reflexivity |]. repeat split.
Qed.

Lemma degraded_run_assembles_witness :
  malformed demo_JSON_parse malformed_response
  ∧ malformed demo_JSON_parse plain_text
  ∧ ∃ plan outline out,
      parseKeywordResearchResponse demo_JSON_parse malformed_response (js "remote tools")
      = Ok plan
      ∧ parseOutlineResponse demo_JSON_parse plain_text plan = Ok outline
      ∧ build_output demo_world demo_input outline plan demo_article
          {| tok_keywordResearch := 0; tok_outline := 0; tok_article := 0 |} = Ok out
      ∧ art_title (out_article (data out)) = JStr (js "remote tools").
Proof.
  assert (H1 : malformed demo_JSON_parse malformed_response).
  { right. exists (js "{primary: remote tools}"),
      (ThrownError (js "SyntaxError") (js "Unexpected token")).
    split; vm_compute; reflexivity. }
  assert (H2 : malformed demo_JSON_parse plain_text).
  { left. apply match_json_span_None. vm_compute. reflexivity. }
  split; [exact H1 |]. split; [exact H2 |].
  destruct (degraded_run_assembles demo_JSON_parse demo_world demo_input
              (js "remote tools") malformed_response plain_text demo_article
              {| tok_keywordResearch := 0; tok_outline := 0; tok_article := 0 |} H1 H2)
    as (plan & outline & out & Hplan & Houtline & Hout & Htitle & _).
  exists plan, outline, out. repeat split; assumption.
Defined.

(** ** The events of a streaming run, phase by phase *)

Lemma observe_around_chunks before fragments after :
  progress_values (before ++ (chunk_event <$> fragments) ++ after)
  = progress_values before ++ progress_values after
  ∧ chunk_payloads (before ++ (chunk_event <$> fragments) ++ after)
    = chunk_payloads before ++ fragments ++ chunk_payloads after
  ∧ completions (before ++ (chunk_event <$> fragments) ++ after)
    = completions before ++ completions after.
Proof.
  rewrite !progress_values_app, !chunk_payloads_app, !completions_app.
  by rewrite progress_values_chunks, chunk_payloads_chunks, completions_chunks.
Qed.

Section StreamTrace.

Variable JSON_parse : jsstring → Result JSValue.
Variable tpl : Templates.
Variable w : World.
Variable agent : ContentGeneratorAgent.

Lemma generateStream_trace input events outcome :
  generateStream JSON_parse tpl w agent input = (events, outcome) →
  ∃ serpData,
    analyzeSERP tpl w agent (in_topic input) = Ok serpData
    ∧ ((∃ e, performKeywordResearch JSON_parse tpl w agent (in_topic input) serpData
               (in_targetAudience input) = Throw e
             ∧ outcome = Throw e
             ∧ progress_values events = [5; 20]%Z
             ∧ chunk_payloads events = [] ∧ completions events = [])
       ∨ ∃ keywordResearch kwTokens,
           performKeywordResearch JSON_parse tpl w agent (in_topic input) serpData
             (in_targetAudience input) = Ok (keywordResearch, kwTokens)
           ∧ ((∃ e, generateOutline JSON_parse tpl w agent keywordResearch
                      (in_internalLinks input) = Throw e
                    ∧ outcome = Throw e
                    ∧ progress_values events = [5; 20; 35; 40]%Z
                    ∧ chunk_payloads events = [] ∧ completions events = [])
              ∨ ∃ outline outlineTokens fragments failure,
                  generateOutline JSON_parse tpl w agent keywordResearch
                    (in_internalLinks input) = Ok (outline, outlineTokens)
                  ∧ writeArticleStream tpl w agent outline keywordResearch
                    = (fragments, failure)
                  ∧ chunk_payloads events = fragments
                  ∧ ((∃ e, failure = Some e
                           ∧ outcome = Throw e
                           ∧ progress_values events = [5; 20; 35; 40; 55; 60]%Z
                           ∧ completions events = [])
                     ∨ (failure = None
                        ∧ ((∃ e, build_output w input outline keywordResearch
                                   (concat fragments)
                                   {| tok_keywordResearch := kwTokens;
                                      tok_outline := outlineTokens;
                                      tok_article := ceil_div (length (concat fragments)) 4 |}
                                 = Throw e
                                 ∧ outcome = Throw e
                                 ∧ progress_values events = CHECKPOINTS
                                 ∧ completions events = [])
                           ∨ (∃ result,
                                build_output w input outline keywordResearch
                                  (concat fragments)
                                  {| tok_keywordResearch := kwTokens;
                                     tok_outline := outlineTokens;
                                     tok_article := ceil_div (length (concat fragments)) 4 |}
                                = Ok result
                                ∧ outcome = Ok ()
                                ∧ progress_values events = CHECKPOINTS
                                ∧ completions events = [result])))))).
Proof.
  unfold generateStream. intros H.
  apply gen_yield_inv in H as (ev1 & -> & H).
  destruct (analyzeSERP_total tpl w agent (in_topic input)) as [serpData HS].
  rewrite HS in H. rewrite gen_bind_await_Ok in H. exists serpData. split; [done |].
  apply gen_yield_inv in H as (ev2 & -> & H).
  destruct (performKeywordResearch _ _ _ _ _ _ _) as [[kw kwTokens]|e].
  2:{ injection H as <- <-. left. exists e. done. }
  right. exists kw, kwTokens. split; [done |].
  rewrite gen_bind_await_Ok in H.
  apply gen_yield_inv in H as (ev3 & -> & H).
  apply gen_yield_inv in H as (ev4 & -> & H).
  destruct (generateOutline _ _ _ _ _ _) as [[outline outlineTokens]|e].
  2:{ injection H as <- <-. left. exists e. done. }
  right. rewrite gen_bind_await_Ok in H.
  apply gen_yield_inv in H as (ev5 & -> & H).
  apply gen_yield_inv in H as (ev6 & -> & H).
  apply gen_bind_inv in H. rewrite for_await_chunks_spec in H.
  destruct (writeArticleStream _ _ _ _ _) as [fragments failure] eqn:Hstream.
  exists outline, outlineTokens, fragments, failure. split; [done |]. split; [done |].
  cbn [fst snd] in H.
  destruct failure as [e|].
  { destruct H as [(e' & [= <-] & -> & ->) | (a & ? & [=] & _)].
    rewrite <- (app_nil_r (chunk_event <$> fragments)).
    match goal with |- context [chunk_payloads (?a :: ?b :: ?c :: ?d :: ?e0 :: ?f :: ?l)] =>
      change (a :: b :: c :: d :: e0 :: f :: l) with ([a; b; c; d; e0; f] ++ l) end.
    destruct (observe_around_chunks
                [ progress_event (js "serp_analysis") 5 (js "Analyzing SERP results...");
                  progress_event (js "keyword_research") 20
                    (js "Performing keyword research...");
                  progress_event (js "keyword_research") 35 (js "Keyword research complete");
                  progress_event (js "outline") 40 (js "Generating article outline...");
                  progress_event (js "outline") 55 (js "Outline complete");
                  progress_event (js "article") 60 (js "Writing article...") ]
                fragments []) as (-> & -> & ->).
    split; [by rewrite app_nil_r |]. left. exists e. done. }
  destruct H as [(e' & [=] & _) | (a & ev7 & [= <-] & H & ->)].
  apply gen_yield_inv in H as (ev8 & -> & H).
  destruct (build_output _ _ _ _ _ _) as [result|e] eqn:Hbuild.
  - rewrite gen_bind_await_Ok in H. injection H as <- <-.
    match goal with |- context [chunk_payloads (?a :: ?b :: ?c :: ?d :: ?e0 :: ?f :: ?l)] =>
      change (a :: b :: c :: d :: e0 :: f :: l) with ([a; b; c; d; e0; f] ++ l) end.
    destruct (observe_around_chunks
                [ progress_event (js "serp_analysis") 5 (js "Analyzing SERP results...");
                  progress_event (js "keyword_research") 20
                    (js "Performing keyword research...");
                  progress_event (js "keyword_research") 35 (js "Keyword research complete");
                  progress_event (js "outline") 40 (js "Generating article outline...");
                  progress_event (js "outline") 55 (js "Outline complete");
                  progress_event (js "article") 60 (js "Writing article...") ]
                fragments
                [ progress_event (js "article") 95 (js "Finalizing...");
                  complete_event result ]) as (-> & -> & ->).
    split; [by rewrite app_nil_r |]. right. split; [done |]. right. exists result. done.
  - rewrite gen_bind_await_Throw in H. injection H as <- <-.
    match goal with |- context [chunk_payloads (?a :: ?b :: ?c :: ?d :: ?e0 :: ?f :: ?l)] =>
      change (a :: b :: c :: d :: e0 :: f :: l) with ([a; b; c; d; e0; f] ++ l) end.
    destruct (observe_around_chunks
                [ progress_event (js "serp_analysis") 5 (js "Analyzing SERP results...");
                  progress_event (js "keyword_research") 20
                    (js "Performing keyword research...");
                  progress_event (js "keyword_research") 35 (js "Keyword research complete");
                  progress_event (js "outline") 40 (js "Generating article outline...");
                  progress_event (js "outline") 55 (js "Outline complete");
                  progress_event (js "article") 60 (js "Writing article...") ]
                fragments
                [ progress_event (js "article") 95 (js "Finalizing...") ]) as (-> & -> & ->).
    split; [by rewrite app_nil_r |]. right. split; [done |]. left. exists e. done.
Qed.

End StreamTrace.

(** ** The research and keyword phases *)

(** X6: [analyzeSERP] never throws, and the placeholder stands for a failed
    fetch and for nothing else: the research text is
    ["SERP data unavailable."] exactly when [getSERPResults] threw. *)
Theorem placeholder_iff_fetch_failed tpl w agent topic :
  (∃ text, analyzeSERP tpl w agent topic = Ok text)
  ∧ (analyzeSERP tpl w agent topic = Ok (js "SERP data unavailable.")
     ↔ ∃ e, getSERPResults w (agent_dataForSEO agent)
              {| sp_keyword := topic; sp_locationCode := None;
                 sp_languageCode := None; sp_depth := None |} = Throw e).
Proof.
  split; [apply analyzeSERP_total |]. split.
  - unfold analyzeSERP. destruct (getSERPResults _ _ _) as [serpResult|e]; [|eauto].
    simpl. intros [= H]. exfalso.
    apply (f_equal (λ text : jsstring, text !! 0%nat)) in H.
    destruct (sr_items serpResult); discriminate H.
  - intros [e He]. by eapply analyzeSERP_catches.
Qed.


(** ** Failures of a streaming run *)

(** X9: a streaming run that fails never yields a [complete] event, and the
    progress values it has yielded tell the phase that failed: 5, 20 when
    the keyword phase threw; up to 40 when the outline phase threw; up to
    60 when the article stream failed, after the chunks it had delivered;
    up to 95 when the stream ended well and the assembly of the envelope
    threw.  What the generator throws is what that phase threw. *)
Theorem stream_failure_is_localised JSON_parse tpl w agent input events e :
  generateStream JSON_parse tpl w agent input = (events, Throw e) →
  completions events = []
  ∧ ((progress_values events = [5; 20]%Z
      ∧ chunk_payloads events = []
      ∧ ∃ serpData,
          performKeywordResearch JSON_parse tpl w agent (in_topic input) serpData
            (in_targetAudience input) = Throw e)
     ∨ (progress_values events = [5; 20; 35; 40]%Z
        ∧ chunk_payloads events = []
        ∧ ∃ keywordResearch,
            generateOutline JSON_parse tpl w agent keywordResearch
              (in_internalLinks input) = Throw e)
     ∨ (progress_values events = [5; 20; 35; 40; 55; 60]%Z
        ∧ ∃ outline keywordResearch,
            writeArticleStream tpl w agent outline keywordResearch
            = (chunk_payloads events, Some e))
     ∨ (progress_values events = [5; 20; 35; 40; 55; 60; 95]%Z
        ∧ ∃ outline keywordResearch tokens,
            writeArticleStream tpl w agent outline keywordResearch
            = (chunk_payloads events, None)
            ∧ build_output w input outline keywordResearch
                (concat (chunk_payloads events)) tokens = Throw e)).
Proof.
  intros H. apply generateStream_trace in H as (serpData & _ & H).
  destruct H as [(e' & Hkw & [= <-] & Hp & Hc & Hdone) | (kw & kwTokens & _ & H)].
  { split; [done |]. left. eauto. }
  destruct H as [(e' & Houtline & [= <-] & Hp & Hc & Hdone)
                | (outline & outlineTokens & fragments & failure & _ & Hstream & Hc & H)].
  { split; [done |]. right. left. eauto. }
  destruct H as [(e' & -> & [= <-] & Hp & Hdone) | (-> & H)].
  { split; [done |]. right. right. left. split; [done |]. rewrite Hc. eauto. }
  destruct H as [(e' & Hbuild & [= <-] & Hp & Hdone) | (result & _ & [=] & _)].
  split; [done |]. right. right. right. split; [done |]. rewrite Hc. eauto.
Qed.

Lemma stream_failure_is_localised_witness :
  ∃ events,
    generateStream demo_JSON_parse demo_templates failing_world demo_agent demo_input
    = (events, Throw (new_Error "No response body"))
    ∧ completions events = []
    ∧ progress_values events = [5; 20; 35; 40; 55; 60]%Z
    ∧ chunk_payloads events = take 1 demo_fragments.
Proof.
  eexists.
  assert (Hrun :
    generateStream demo_JSON_parse demo_templates failing_world demo_agent demo_input
    = (_, Throw (new_Error "No response body"))) by (vm_compute; reflexivity).
  split; [exact Hrun |].
  split; [exact (proj1 (stream_failure_is_localised _ _ _ _ _ _ _ Hrun)) |].
  split; vm_compute; reflexivity.
Defined.

(** X8: when the generation provider fails while the article is streamed,
    the streaming route has already written the six progress events up to
    60 and every chunk delivered before the failure; it then writes one
    [error] event that carries the provider's message and the code
    [GENERATION_ERROR], ends the response, and writes no [complete]
    event. *)
Theorem article_failure_ends_stream_with_error
    JSON_parse tpl w agent input provider fragments e :
  new_ContentGeneratorAgent (process_env w) (Some (provider_of_query provider)) = Ok agent →
  streamed_article_fragments JSON_parse tpl w agent input = Ok (fragments, Some e) →
  let res := post_generate_stream JSON_parse tpl w (Some input) provider in
  progress_values (res_written res) = [5; 20; 35; 40; 55; 60]%Z
  ∧ chunk_payloads (res_written res) = fragments
  ∧ completions (res_written res) = []
  ∧ res_ended res = true
  ∧ ∃ before,
      res_written res = before ++ [error_event (message_of e) (js "GENERATION_ERROR")]
      ∧ Forall (λ event, is_terminal event = false) before.
Proof.
  intros Hagent Hfragments. unfold post_generate_stream. rewrite Hagent.
  destruct (generateStream _ _ _ _ _) as [events outcome] eqn:Hstream.
  pose proof (written_foldl events (res_flushHeaders fresh_response)) as (Hw & Hh & _).
  pose proof Hstream as Hshape. apply generateStream_shape in Hshape.
  apply generateStream_trace in Hstream as (serpData & Hserp & H).
  unfold streamed_article_fragments in Hfragments.
  rewrite Hserp in Hfragments. simpl in Hfragments.
  destruct H as [(e' & Hkw & _) | (kw & kwTokens & Hkw & H)];
    rewrite Hkw in Hfragments; simpl in Hfragments; [done |].
  destruct H as [(e' & Houtline & _)
                | (outline & outlineTokens & fragments' & failure & Houtline & Hs & Hc & H)];
    rewrite Houtline in Hfragments; simpl in Hfragments; [done |].
  rewrite Hs in Hfragments. injection Hfragments as -> ->.
  destruct H as [(e' & [= <-] & -> & Hp & Hdone) | ([=] & _)].
  destruct Hshape as [_ Hterm].
  unfold stream_catch. rewrite Hh. simpl in *. rewrite Hw. simpl.
  rewrite progress_values_app, chunk_payloads_app, completions_app.
  rewrite Hp, Hc, Hdone. simpl. rewrite !app_nil_r.
  repeat split; try done. exists events. done.
Qed.

Lemma article_failure_ends_stream_with_error_witness :
  new_ContentGeneratorAgent (process_env failing_world) (Some (provider_of_query None))
  = Ok demo_agent
  ∧ streamed_article_fragments demo_JSON_parse demo_templates failing_world demo_agent
      demo_input = Ok (take 1 demo_fragments, Some (new_Error "No response body"))
  ∧ chunk_payloads
      (res_written (post_generate_stream demo_JSON_parse demo_templates failing_world
                      (Some demo_input) None)) = take 1 demo_fragments.
Proof.
  assert (Hagent :
    new_ContentGeneratorAgent (process_env failing_world) (Some (provider_of_query None))
    = Ok demo_agent) by (vm_compute; reflexivity).
  assert (Hfragments :
    streamed_article_fragments demo_JSON_parse demo_templates failing_world demo_agent
      demo_input = Ok (take 1 demo_fragments, Some (new_Error "No response body")))
    by (vm_compute; reflexivity).
  split; [exact Hagent |]. split; [exact Hfragments |].
  destruct (article_failure_ends_stream_with_error demo_JSON_parse demo_templates
              failing_world demo_agent demo_input None _ _ Hagent Hfragments)
    as (_ & Hchunks & _).
  exact Hchunks.
Defined.

(** ** The two modes build the same envelope *)

Lemma build_output_tokens w input outline keywordResearch articleContent tokens tokens' out :
  build_output w input outline keywordResearch articleContent tokens = Ok out →
  ∃ out',
    build_output w input outline keywordResearch articleContent tokens' = Ok out'
    ∧ success out' = true
    ∧ data out' = data out
    ∧ md_tokensUsed (metadata out') = tokens'
    ∧ md_tokensUsed (metadata out) = tokens.
Proof.
  unfold build_output.
  destruct (get outline "metadata") as [meta|]; simpl; [|done].
  destruct (get meta "h1"); simpl; [|done].
  destruct (get meta "metaTitle"); simpl; [|done].
  destruct (get meta "metaDescription"); simpl; [|done].
  destruct (get keywordResearch "primaryKeyword") as [primary|]; simpl; [|done].
  destruct (get primary "keyword"); simpl; [|done].
  destruct (get keywordResearch "secondaryKeywords") as [secondary|]; simpl; [|done].
  destruct (map_keyword secondary); simpl; [|done].
  intros [= <-]. eexists. split; [reflexivity |]. done.
Qed.

Lemma stream_matches_buffered JSON_parse tpl w agent input out :
  generate JSON_parse tpl w agent input = Ok out →
  (∀ prompt response,
     ai_complete w (agent_aiClient agent) (article_request tpl prompt) = Ok response →
     ∃ fragments,
       ai_stream w (agent_aiClient agent) (article_request tpl prompt) = (fragments, None)
       ∧ concat fragments = resp_content response) →
  ∃ events result kwTokens outlineTokens articleTokens fragments,
    generateStream JSON_parse tpl w agent input = (events, Ok ())
    ∧ completions events = [result]
    ∧ success result = true
    ∧ data result = data out
    ∧ concat fragments = art_content (out_article (data out))
    ∧ md_tokensUsed (metadata out)
      = {| tok_keywordResearch := kwTokens; tok_outline := outlineTokens;
           tok_article := articleTokens |}
    ∧ md_tokensUsed (metadata result)
      = {| tok_keywordResearch := kwTokens; tok_outline := outlineTokens;
           tok_article := ceil_div (length (concat fragments)) 4 |}.
Proof.
  intros Hbuffered Hprovider. unfold generate in Hbuffered.
  destruct (analyzeSERP tpl w agent (in_topic input)) as [serpData|] eqn:Hserp;
    simpl in Hbuffered; [|done].
  destruct (performKeywordResearch _ _ _ _ _ _ _) as [[kw kwTokens]|] eqn:Hkw;
    simpl in Hbuffered; [|done].
  destruct (generateOutline _ _ _ _ _ _) as [[outline outlineTokens]|] eqn:Houtline;
    simpl in Hbuffered; [|done].
  destruct (writeArticle _ _ _ _ _) as [[articleContent articleTokens]|] eqn:Harticle;
    simpl in Hbuffered; [|done].
  unfold writeArticle in Harticle.
  destruct (buildArticlePrompt tpl outline kw) as [prompt|] eqn:Hprompt;
    simpl in Harticle; [|done].
  destruct (ai_complete _ _ _) as [response|] eqn:Hcomplete; simpl in Harticle; [|done].
  injection Harticle as <- <-.
  destruct (Hprovider prompt response Hcomplete) as (fragments & Hstream & Hsame).
  assert (Hfragments : writeArticleStream tpl w agent outline kw = (fragments, None))
    by (unfold writeArticleStream; by rewrite Hprompt).
  pose proof (build_output_inv _ _ _ _ _ _ _ Hbuffered) as (_ & Hcontent & _).
  destruct (build_output_tokens _ _ _ _ _ _
              {| tok_keywordResearch := kwTokens;
                 tok_outline := outlineTokens;
                 tok_article := ceil_div (length (concat fragments)) 4 |} _ Hbuffered)
    as (result & Hresult & Hsuccess & Hdata & Htokens' & Htokens).
  rewrite <- Hsame in Hresult.
  destruct (generateStream JSON_parse tpl w agent input) as [events outcome] eqn:Hrun.
  apply generateStream_trace in Hrun as (serpData' & Hserp' & H).
  rewrite Hserp in Hserp'. injection Hserp' as <-.
  destruct H as [(e' & Hkw' & _) | (kw' & kwTokens' & Hkw' & H)];
    rewrite Hkw in Hkw'; [done |]. injection Hkw' as <- <-.
  destruct H as [(e' & Houtline' & _)
                | (outline' & outlineTokens' & fragments' & failure & Houtline' & Hs & Hc & H)];
    rewrite Houtline in Houtline'; [done |]. injection Houtline' as <- <-.
  rewrite Hfragments in Hs. injection Hs as <- <-.
  destruct H as [(e' & [=] & _) | (_ & H)].
  destruct H as [(e' & Hbuild & _) | (result' & Hbuild & -> & _ & Hdone)];
    rewrite Hresult in Hbuild; [done |]. injection Hbuild as <-.
  exists events, result, kwTokens, outlineTokens, (resp_tokensUsed response), fragments.
  split; [done |]. split; [done |]. split; [done |]. split; [done |].
  split; [by rewrite Hcontent |]. split; done.
Qed.

(** X7: the two modes build the same envelope.  If a buffered run completes
    and the provider streams the article request without failing, as
    fragments that concatenate to the text [complete] returns for it, then
    the streaming run of the same request in the same world completes too,
    and its one [complete] event carries the same [data] — article, SEO
    fields, outline, keyword plan, references and internal links — and the
    same keyword and outline token counts; only the article token count
    differs, being the estimate [ceil(length / 4)] of the article text. *)
Theorem streaming_envelope_equals_buffered JSON_parse tpl w agent input out :
  generate JSON_parse tpl w agent input = Ok out →
  (∀ prompt response,
     ai_complete w (agent_aiClient agent) (article_request tpl prompt) = Ok response →
     ∃ fragments,
       ai_stream w (agent_aiClient agent) (article_request tpl prompt) = (fragments, None)
       ∧ concat fragments = resp_content response) →
  ∃ events result,
    generateStream JSON_parse tpl w agent input = (events, Ok ())
    ∧ completions events = [result]
    ∧ success result = true
    ∧ data result = data out
    ∧ tok_keywordResearch (md_tokensUsed (metadata result))
      = tok_keywordResearch (md_tokensUsed (metadata out))
    ∧ tok_outline (md_tokensUsed (metadata result))
      = tok_outline (md_tokensUsed (metadata out))
    ∧ tok_article (md_tokensUsed (metadata result))
      = ceil_div (length (art_content (out_article (data out)))) 4.
Proof.
  intros Hbuffered Hprovider.
  destruct (stream_matches_buffered _ _ _ _ _ _ Hbuffered Hprovider)
    as (events & result & kwTokens & outlineTokens & articleTokens & fragments
        & Hrun & Hdone & Hsuccess & Hdata & Hcontent & Htokens & Htokens').
  exists events, result. split; [done |]. split; [done |]. split; [done |].
  split; [done |]. rewrite Htokens', Htokens. simpl. by rewrite Hcontent.
Qed.

Lemma streaming_envelope_equals_buffered_witness :
  ∃ out events result,
    generate demo_JSON_parse demo_templates demo_world demo_agent demo_input = Ok out
    ∧ generateStream demo_JSON_parse demo_templates demo_world demo_agent demo_input
      = (events, Ok ())
    ∧ completions events = [result]
    ∧ data result = data out.
Proof.
  eexists.
  assert (Hbuffered :
    generate demo_JSON_parse demo_templates demo_world demo_agent demo_input = Ok _)
    by (vm_compute; reflexivity).
  destruct (streaming_envelope_equals_buffered demo_JSON_parse demo_templates demo_world
              demo_agent demo_input _ Hbuffered)
    as (events & result & Hrun & Hdone & _ & Hdata & _).
  { intros prompt response [= <-]. exists demo_fragments. split; reflexivity. }
  exists events, result. repeat split; assumption.
Defined.

(** ** The request method of the DataForSEO client *)

(** X10: whatever goes wrong in [request], the caller sees a
    [DataForSEOError] with one of four codes: [AUTH_ERROR] for status 401
    and [RATE_LIMIT] for status 429, each with that status; [API_ERROR]
    with the status for any other status outside 200-299; and
    [NETWORK_ERROR], without a status, when [fetch] itself throws or when
    the body of a 2xx response fails to parse.  The errors thrown inside
    the [try] block pass through its [catch] unchanged. *)
Theorem request_errors_are_classified {T} (fetched : Result (FetchResponse T)) e :
  platform_outcome fetched →
  request fetched = Throw e →
  ∃ message code status,
    e = ThrownDataForSEOError message code status
    ∧ ((code = js "AUTH_ERROR" ∧ status = Some 401%Z
        ∧ ∃ response, fetched = Ok response ∧ fr_status response = 401%Z)
       ∨ (code = js "RATE_LIMIT" ∧ status = Some 429%Z
          ∧ ∃ response, fetched = Ok response ∧ fr_status response = 429%Z)
       ∨ (code = js "API_ERROR"
          ∧ ∃ response, fetched = Ok response ∧ status = Some (fr_status response)
                        ∧ response_ok response = false
                        ∧ message = js "API error: " ++ fr_statusText response)
       ∨ (code = js "NETWORK_ERROR" ∧ status = None
          ∧ ((∃ e0, fetched = Throw e0)
             ∨ ∃ response e0, fetched = Ok response ∧ response_ok response = true
                              ∧ fr_json response = Throw e0))).
Proof.
  unfold request, platform_outcome.
  destruct fetched as [response|e0]; simpl.
  - destruct (response_ok response) eqn:Hok; simpl.
    + destruct (fr_json response) as [value|e1] eqn:Hjson; simpl; [done |].
      intros Hplatform. destruct e1 as [name message| |]; simpl in *; [|done|].
      * intros [= <-]. do 3 eexists. split; [done |]. do 3 right. eauto 10.
      * intros [= <-]. do 3 eexists. split; [done |]. do 3 right. eauto 10.
    + intros _. destruct (fr_status response =? 401)%Z eqn:H401; simpl.
      { intros [= <-]. apply Z.eqb_eq in H401. do 3 eexists. split; [done |].
        left. eauto. }
      destruct (fr_status response =? 429)%Z eqn:H429; simpl.
      { intros [= <-]. apply Z.eqb_eq in H429. do 3 eexists. split; [done |].
        right. left. eauto. }
      intros [= <-]. do 3 eexists. split; [done |]. right. right. left. eauto 10.
  - intros Hplatform. destruct e0 as [name message| |]; simpl in *; [|done|].
    + intros [= <-]. do 3 eexists. split; [done |]. do 3 right. eauto 10.
    + intros [= <-]. do 3 eexists. split; [done |]. do 3 right. eauto 10.
Qed.

Lemma request_errors_are_classified_witness :
  platform_outcome (Ok {| fr_status := 429; fr_statusText := js "Too Many Requests";
                          fr_json := Ok demo_response |})
  ∧ request (Ok {| fr_status := 429; fr_statusText := js "Too Many Requests";
                   fr_json := Ok demo_response |})
    = Throw (ThrownDataForSEOError (js "Rate limit exceeded") (js "RATE_LIMIT")
               (Some 429%Z)).
Proof.
  assert (Hplatform :
    platform_outcome (Ok {| fr_status := 429; fr_statusText := js "Too Many Requests";
                            fr_json := Ok demo_response |})) by exact I.
  split; [exact Hplatform |].
  destruct (request_errors_are_classified _ _ Hplatform eq_refl)
    as (message & code & status & Heq & _).
  reflexivity.
Defined.

(** X11: [request] returns a value exactly when the status is in 200-299
    and the body parses, and the value is then the parsed body; the body of
    a response with any other status is never read. *)
Theorem request_returns_iff_ok_and_parsed {T} (fetched : Result (FetchResponse T)) value :
  (request fetched = Ok value
   ↔ ∃ response, fetched = Ok response
                 ∧ (200 ≤ fr_status response ≤ 299)%Z
                 ∧ fr_json response = Ok value)
  ∧ (∀ status statusText body body',
       (status < 200 ∨ 299 < status)%Z →
       request (Ok {| fr_status := status; fr_statusText := statusText; fr_json := body |})
       = request (Ok {| fr_status := status; fr_statusText := statusText;
                        fr_json := body' |} : Result (FetchResponse T))).
Proof.
  split.
  - unfold request. destruct fetched as [response|e0]; simpl.
    + unfold response_ok.
      destruct (200 <=? fr_status response)%Z eqn:Hlow;
        destruct (fr_status response <=? 299)%Z eqn:Hhigh; simpl;
        try (apply Z.leb_le in Hlow); try (apply Z.leb_le in Hhigh);
        try (apply Z.leb_gt in Hlow); try (apply Z.leb_gt in Hhigh).
      * destruct (fr_json response) as [v|e1] eqn:Hjson; simpl.
        -- split; [intros [= ->]; eauto | intros (? & [= <-] & _ & Hv); congruence].
        -- split; [by destruct e1 | intros (? & [= <-] & _ & Hv); congruence].
      * split; [|intros (? & [= <-] & ? & _); lia].
        by destruct (fr_status response =? 401)%Z, (fr_status response =? 429)%Z.
      * split; [|intros (? & [= <-] & ? & _); lia].
        by destruct (fr_status response =? 401)%Z, (fr_status response =? 429)%Z.
      * split; [|intros (? & [= <-] & ? & _); lia].
        by destruct (fr_status response =? 401)%Z, (fr_status response =? 429)%Z.
    + split; [by destruct e0 | by intros (? & [=] & _)].
  - intros status statusText body body' Hstatus. unfold request, response_ok. simpl.
    destruct (200 <=? status)%Z eqn:Hlow; destruct (status <=? 299)%Z eqn:Hhigh; simpl;
      try done.
    apply Z.leb_le in Hlow, Hhigh. lia.
Qed.

(** ** Credentials *)

Lemma available_str_or a b : available a → str_or a b ≠ [] ∧ Some (str_or a b) = a.
Proof. by intros (c & rest & ->). Qed.

Lemma not_available_str_or a b : ¬ available a → str_or a b = b.
Proof.
  intros H. destruct a as [[|c rest]|]; try done. destruct H. by exists c, rest.
Qed.

Lemma available_dec a : available a ∨ ¬ available a.
Proof.
  destruct a as [[|c rest]|].
  - right. by intros (? & ? & [=]).
  - left. by exists c, rest.
  - right. by intros (? & ? & [=]).
Qed.

Lemma str_or_nil_iff a b : str_or a (str_or b []) ≠ [] ↔ available a ∨ available b.
Proof.
  destruct (available_dec a) as [Ha | Ha].
  - split; [auto |]. intros _. by apply available_str_or.
  - rewrite (not_available_str_or _ _ Ha).
    destruct (available_dec b) as [Hb | Hb].
    + split; [auto |]. intros _. by apply available_str_or.
    + rewrite (not_available_str_or _ _ Hb). split; [done |]. by intros [|].
Qed.

Lemma is_empty_false s : is_empty s = false ↔ s ≠ [].
Proof. by destruct s. Qed.

Lemma is_empty_true s : is_empty s = true ↔ s = [].
Proof. by destruct s. Qed.

(** X12: the DataForSEO client is constructed exactly when a login and a
    password are each available, in the explicit configuration or in the
    environment; otherwise the constructor throws the [AUTH_ERROR] error
    ["DataForSEO credentials not configured"].  A value of the explicit
    configuration wins over the environment, and the base URL defaults to
    the provider's. *)
Theorem dataforseo_client_needs_both_credentials env config :
  ((∃ client, new_DataForSEOClient env config = Ok client)
   ↔ (available (config ≫= pdfs_login) ∨ available (env !! "DATAFORSEO_LOGIN"%string))
     ∧ (available (config ≫= pdfs_password)
        ∨ available (env !! "DATAFORSEO_PASSWORD"%string)))
  ∧ ((¬ ∃ client, new_DataForSEOClient env config = Ok client) →
     new_DataForSEOClient env config
     = Throw (ThrownDataForSEOError (js "DataForSEO credentials not configured")
                (js "AUTH_ERROR") None))
  ∧ (∀ client, new_DataForSEOClient env config = Ok client →
       dfs_login (dfs_config client) ≠ []
       ∧ dfs_password (dfs_config client) ≠ []
       ∧ (available (config ≫= pdfs_login) →
          Some (dfs_login (dfs_config client)) = config ≫= pdfs_login)
       ∧ (available (config ≫= pdfs_password) →
          Some (dfs_password (dfs_config client)) = config ≫= pdfs_password)
       ∧ (¬ available (config ≫= pdfs_login) →
          Some (dfs_login (dfs_config client)) = env !! "DATAFORSEO_LOGIN"%string)
       ∧ (¬ available (config ≫= pdfs_baseUrl) →
          dfs_baseUrl (dfs_config client) = js "https://api.dataforseo.com/v3")).
Proof.
  unfold new_DataForSEOClient. cbn zeta. cbn [dfs_login dfs_password dfs_baseUrl].
  pose proof (str_or_nil_iff (config ≫= pdfs_login) (env !! "DATAFORSEO_LOGIN"%string))
    as Hlogin.
  pose proof (str_or_nil_iff (config ≫= pdfs_password)
                (env !! "DATAFORSEO_PASSWORD"%string)) as Hpassword.
  destruct (is_empty (str_or (config ≫= pdfs_login) _)) eqn:Hl; simpl.
  { apply is_empty_true in Hl. split; [|done].
    split; [by intros [? ?] |]. intros [Hav _]. apply Hlogin in Hav. done. }
  destruct (is_empty (str_or (config ≫= pdfs_password) _)) eqn:Hp; simpl.
  { apply is_empty_true in Hp. split; [|done].
    split; [by intros [? ?] |]. intros [_ Hav]. apply Hpassword in Hav. done. }
  apply is_empty_false in Hl, Hp.
  split; [|split].
  - split; [intros _ | eauto]. split; [by apply Hlogin | by apply Hpassword].
  - intros Hnone. destruct Hnone. eauto.
  - intros client [= <-]. simpl. split; [done |]. split; [done |].
    split; [by intros [_ ?]%(available_str_or _ (str_or (env !! "DATAFORSEO_LOGIN"%string) [])) |].
    split; [by intros [_ ?]%(available_str_or _ (str_or (env !! "DATAFORSEO_PASSWORD"%string) [])) |].
    split.
    + intros Hno. rewrite (not_available_str_or _ _ Hno) in Hl |- *.
      destruct (available_dec (env !! "DATAFORSEO_LOGIN"%string)) as [Hav | Hav].
      * by apply available_str_or.
      * by rewrite (not_available_str_or _ _ Hav) in Hl.
    + intros Hno. by rewrite (not_available_str_or _ _ Hno).
Qed.

Lemma env_client_cases (env : gmap string jsstring) (variable : string) fallbackModel maxTokens :
  let cfg := {|
    ai_apiKey := str_or (None ≫= pai_apiKey) (str_or (env !! variable) []);
    ai_model := str_or (None ≫= pai_model) fallbackModel;
    ai_maxTokens := num_or (None ≫= pai_maxTokens) maxTokens;
    ai_temperature := q_or (None ≫= pai_temperature) (7 # 10) |} in
  (available (env !! variable) ∧ is_empty (ai_apiKey cfg) = false
   ∧ ai_apiKey cfg ≠ [] ∧ Some (ai_apiKey cfg) = env !! variable)
  ∨ (¬ available (env !! variable) ∧ is_empty (ai_apiKey cfg) = true).
Proof.
  simpl. destruct (available_dec (env !! variable)) as [Hav | Hav].
  - left. destruct (available_str_or _ [] Hav) as [Hne Heq].
    split; [done |]. split; [by apply is_empty_false |]. done.
  - right. split; [done |]. by rewrite (not_available_str_or _ _ Hav).
Qed.

Lemma research_client_cases (env : gmap string jsstring) :
  (available (env !! "DATAFORSEO_LOGIN"%string)
   ∧ available (env !! "DATAFORSEO_PASSWORD"%string)
   ∧ ∃ client, new_DataForSEOClient env None = Ok client)
  ∨ (¬ (available (env !! "DATAFORSEO_LOGIN"%string)
        ∧ available (env !! "DATAFORSEO_PASSWORD"%string))
     ∧ new_DataForSEOClient env None
       = Throw (ThrownDataForSEOError (js "DataForSEO credentials not configured")
                  (js "AUTH_ERROR") None)).
Proof.
  unfold new_DataForSEOClient. simpl.
  destruct (available_dec (env !! "DATAFORSEO_LOGIN"%string)) as [Hl | Hl].
  - destruct (available_str_or _ [] Hl) as [Hlne _].
    apply is_empty_false in Hlne. rewrite Hlne. simpl.
    destruct (available_dec (env !! "DATAFORSEO_PASSWORD"%string)) as [Hp | Hp].
    + destruct (available_str_or _ [] Hp) as [Hpne _].
      apply is_empty_false in Hpne. rewrite Hpne. left. eauto.
    + rewrite (not_available_str_or _ _ Hp). simpl. right. split; [by intros [_ ?] | done].
  - rewrite (not_available_str_or _ _ Hl). simpl. right. split; [by intros [? _] | done].
Qed.

Lemma agent_constructor_cases (env : gmap string jsstring) provider :
  let selected := default openai provider in
  (¬ (available (env !! "DATAFORSEO_LOGIN"%string)
      ∧ available (env !! "DATAFORSEO_PASSWORD"%string))
   ∧ new_ContentGeneratorAgent env provider
     = Throw (ThrownDataForSEOError (js "DataForSEO credentials not configured")
                (js "AUTH_ERROR") None))
  ∨ (available (env !! "DATAFORSEO_LOGIN"%string)
     ∧ available (env !! "DATAFORSEO_PASSWORD"%string)
     ∧ ¬ available (env !! key_variable selected)
     ∧ new_ContentGeneratorAgent env provider
       = Throw (new_Error (missing_key_message selected)))
  ∨ (available (env !! "DATAFORSEO_LOGIN"%string)
     ∧ available (env !! "DATAFORSEO_PASSWORD"%string)
     ∧ available (env !! key_variable selected)
     ∧ ∃ agent, new_ContentGeneratorAgent env provider = Ok agent
                ∧ agent_config agent = selected
                ∧ Some (ai_apiKey (client_config (agent_aiClient agent)))
                  = env !! key_variable selected
                ∧ (agent_aiClient agent = OpenAIClient (client_config (agent_aiClient agent))
                   ↔ selected = openai)).
Proof.
  cbn zeta. unfold new_ContentGeneratorAgent.
  destruct (research_client_cases env) as [(Hl & Hp & client & ->) | [Hno ->]];
    [|by left].
  simpl. right. destruct (default openai provider); simpl.
  - unfold new_OpenAIClient.
    destruct (env_client_cases env "OPENAI_API_KEY" (js "gpt-4-turbo-preview") 4096)
      as [(Hav & Hempty & Hne & Hkey) | (Hno & Hempty)]; cbn zeta in *; rewrite Hempty.
    + right. split; [done |]. split; [done |]. split; [done |]. simpl.
      eexists. split; [reflexivity |]. simpl. split; [done |]. split; [exact Hkey | done].
    + left. done.
  - unfold new_GeminiClient.
    destruct (env_client_cases env "GOOGLE_AI_API_KEY" (js "gemini-1.5-pro") 8192)
      as [(Hav & Hempty & Hne & Hkey) | (Hno & Hempty)]; cbn zeta in *; rewrite Hempty.
    + right. split; [done |]. split; [done |]. split; [done |]. simpl.
      eexists. split; [reflexivity |]. simpl. split; [done |]. split; [exact Hkey |].
      split; intros; discriminate.
    + left. done.
Qed.

(** X13: an agent is constructed exactly when the environment holds the
    DataForSEO login, the DataForSEO password and the API key of the
    selected backend (OpenAI when none is selected); the key of the other
    backend is not needed.  The research credentials are checked first:
    when one is missing the constructor throws the [AUTH_ERROR] error
    whatever the keys are, and only then the error of the missing key.  The
    agent that is built calls the selected backend with the key of the
    environment. *)
Theorem agent_needs_research_credentials_and_selected_key (env : gmap string jsstring) provider :
  ((∃ agent, new_ContentGeneratorAgent env provider = Ok agent)
   ↔ available (env !! "DATAFORSEO_LOGIN"%string)
     ∧ available (env !! "DATAFORSEO_PASSWORD"%string)
     ∧ available (env !! key_variable (default openai provider)))
  ∧ (¬ (available (env !! "DATAFORSEO_LOGIN"%string)
        ∧ available (env !! "DATAFORSEO_PASSWORD"%string)) →
     new_ContentGeneratorAgent env provider
     = Throw (ThrownDataForSEOError (js "DataForSEO credentials not configured")
                (js "AUTH_ERROR") None))
  ∧ (available (env !! "DATAFORSEO_LOGIN"%string) →
     available (env !! "DATAFORSEO_PASSWORD"%string) →
     ¬ available (env !! key_variable (default openai provider)) →
     new_ContentGeneratorAgent env provider
     = Throw (new_Error (missing_key_message (default openai provider))))
  ∧ (∀ agent, new_ContentGeneratorAgent env provider = Ok agent →
       agent_config agent = default openai provider
       ∧ Some (ai_apiKey (client_config (agent_aiClient agent)))
         = env !! key_variable (default openai provider)
       ∧ (agent_aiClient agent = OpenAIClient (client_config (agent_aiClient agent))
          ↔ default openai provider = openai)).
Proof.
  destruct (agent_constructor_cases env provider)
    as [[Hno Hthrow] | [(Hl & Hp & Hno & Hthrow) | (Hl & Hp & Hk & agent & Hok & Hrest)]];
    cbn zeta in *; rewrite ?Hthrow, ?Hok.
  - split; [split; [by intros [? ?] | intros (? & ? & _); by destruct Hno] |].
    split; [done |]. split; [intros; by destruct Hno | done].
  - split; [split; [by intros [? ?] | by intros (_ & _ & ?)] |].
    split; [intros Hno'; by destruct Hno' |]. split; [done | done].
  - split; [split; [done | eauto] |].
    split; [intros Hno'; by destruct Hno' |]. split; [done |].
    by intros ? [= <-].
Qed.

(** X14: a configuration error reaches the client of the streaming route as
    an event, not as an HTTP error: the headers are flushed before the
    agent is built, so when the research credentials or the key of the
    selected backend are missing the stream of an accepted request holds
    exactly one event, the [error] event with the constructor's message and
    the code [GENERATION_ERROR], and no JSON body is sent; a request the
    schema rejects gets the JSON reply 400 [VALIDATION_ERROR] and no
    event. *)
Theorem configuration_errors_reach_the_stream JSON_parse tpl w input provider :
  let env := process_env w in
  let selected := provider_of_query provider in
  let res := post_generate_stream JSON_parse tpl w (Some input) provider in
  (¬ (available (env !! "DATAFORSEO_LOGIN"%string)
      ∧ available (env !! "DATAFORSEO_PASSWORD"%string)) →
   res_written res
   = [ error_event (js "DataForSEO credentials not configured") (js "GENERATION_ERROR") ]
   ∧ res_json res = None ∧ res_ended res = true)
  ∧ (available (env !! "DATAFORSEO_LOGIN"%string) →
     available (env !! "DATAFORSEO_PASSWORD"%string) →
     ¬ available (env !! key_variable selected) →
     res_written res
     = [ error_event (js (missing_key_message selected)) (js "GENERATION_ERROR") ]
     ∧ res_json res = None ∧ res_ended res = true)
  ∧ res_written (post_generate_stream JSON_parse tpl w None provider) = []
  ∧ res_json (post_generate_stream JSON_parse tpl w None provider)
    = Some (400%nat, js "VALIDATION_ERROR", js "Invalid request body").
Proof.
  cbn zeta. unfold post_generate_stream.
  destruct (agent_constructor_cases (process_env w) (Some (provider_of_query provider)))
    as [[Hno Hthrow] | [(Hl & Hp & Hno & Hthrow) | (Hl & Hp & Hk & agent & Hok & Hrest)]];
    cbn zeta in *; simpl in *; rewrite ?Hthrow, ?Hok.
  - split; [done |]. split; [intros; by destruct Hno | done].
  - split; [intros Hno'; by destruct Hno' |]. split; [done | done].
  - split; [intros Hno'; by destruct Hno' |]. split; [done | done].
Qed.

Lemma configuration_errors_reach_the_stream_witness :
  ¬ (available ((∅ : gmap string jsstring) !! "DATAFORSEO_LOGIN"%string)
     ∧ available ((∅ : gmap string jsstring) !! "DATAFORSEO_PASSWORD"%string))
  ∧ res_written
      (post_generate_stream demo_JSON_parse demo_templates
         {| process_env := ∅;
            dataforseo_request := dataforseo_request demo_world;
            dataforseo_suggestions := dataforseo_suggestions demo_world;
            ai_complete := ai_complete demo_world;
            ai_stream := ai_stream demo_world;
            clock_start := 0; clock_end := 0; clock_iso := [] |}
         (Some demo_input) None)
    = [ error_event (js "DataForSEO credentials not configured") (js "GENERATION_ERROR") ].
Proof.
  assert (Hno : ¬ (available ((∅ : gmap string jsstring) !! "DATAFORSEO_LOGIN"%string)
                   ∧ available ((∅ : gmap string jsstring) !! "DATAFORSEO_PASSWORD"%string))).
  { intros [(c & rest & H) _]. discriminate H. }
  split; [exact Hno |].
  destruct (configuration_errors_reach_the_stream demo_JSON_parse demo_templates
              {| process_env := ∅;
                 dataforseo_request := dataforseo_request demo_world;
                 dataforseo_suggestions := dataforseo_suggestions demo_world;
                 ai_complete := ai_complete demo_world;
                 ai_stream := ai_stream demo_world;
                 clock_start := 0; clock_end := 0; clock_iso := [] |}
              demo_input None) as (Hresearch & _).
  exact (proj1 (Hresearch Hno)).
Defined.


Lemma split_lines_not_nil s : split_lines s ≠ [].
Proof.
  destruct s as [|c r]; simpl; [done |].
  destruct (c =? LF); [done |]. by destruct (split_lines r).
Qed.

Lemma split_lines_app a b :
  split_lines (a ++ b)
  = removelast (split_lines a) ++ split_lines (List.last (split_lines a) [] ++ b).
Proof.
  induction a as [|c r IH]; [done |].
  cbn [app split_lines]. destruct (c =? LF) eqn:Hc.
  - rewrite IH. pose proof (split_lines_not_nil r) as Hne.
    destruct (split_lines r) as [|line lines]; [done |]. done.
  - rewrite IH. pose proof (split_lines_not_nil r) as Hne.
    destruct (split_lines r) as [|line [|line' lines]]; [done | |].
    + cbn [removelast List.last app split_lines]. by rewrite Hc.
    + pose proof (split_lines_not_nil (List.last (line' :: lines) [] ++ b)) as Hne'.
      cbn [removelast List.last app] in *.
      destruct (removelast (line' :: lines) ++ split_lines (List.last (line' :: lines) [] ++ b))
        eqn:Happ; [|done].
      apply app_eq_nil in Happ as [_ Happ]. done.
Qed.

Lemma split_lines_no_LF s : LF ∉ s → split_lines s = [s].
Proof.
  induction s as [|c r IH]; [done |].
  intros Hnot. apply not_elem_of_cons in Hnot as [Hc Hr].
  simpl. destruct (N.eqb_spec c LF) as [-> | _]; [done |]. by rewrite (IH Hr).
Qed.

Lemma split_lines_last_no_LF s : LF ∉ List.last (split_lines s) [].
Proof.
  induction s as [|c r IH]; simpl; [apply not_elem_of_nil |].
  pose proof (split_lines_not_nil r) as Hne.
  destruct (N.eqb_spec c LF) as [-> | Hc].
  - by destruct (split_lines r).
  - destruct (split_lines r) as [|line [|line' lines]]; [done | |done].
    simpl in *. by apply not_elem_of_cons.
Qed.

Lemma removelast_app_not_nil {A} (l l' : list A) :
  l' ≠ [] → removelast (l ++ l') = l ++ removelast l'.
Proof.
  intros Hne. induction l as [|x l IH]; [done |].
  simpl. rewrite IH. destruct (l ++ l') eqn:Happ; [|done].
  apply app_eq_nil in Happ as [_ ?]. done.
Qed.

Lemma read_loop_lines JSON_parse buffer reads :
  LF ∉ buffer →
  read_loop JSON_parse buffer reads
  = mjoin (line_yield JSON_parse <$> removelast (split_lines (buffer ++ concat reads))).
Proof.
  revert buffer. induction reads as [|value rest IH]; intros buffer Hbuffer.
  - simpl. by rewrite app_nil_r, (split_lines_no_LF _ Hbuffer).
  - cbn [read_loop concat]. cbv zeta. unfold pop_line, popped.
    rewrite (IH _ (split_lines_last_no_LF (buffer ++ value))).
    rewrite (app_assoc buffer value), (split_lines_app (buffer ++ value)).
    rewrite removelast_app_not_nil by apply split_lines_not_nil.
    by rewrite fmap_app, join_app.
Qed.

Lemma line_yield_elem JSON_parse line v :
  v ∈ line_yield JSON_parse line
  ↔ starts_with (js "data: ") line = true ∧ line ≠ js "data: [DONE]"
    ∧ ∃ data choices, JSON_parse (drop 6 line) = Ok data
                      ∧ get data "choices" = Ok choices
                      ∧ v = delta_content choices ∧ truthy v = true.
Proof.
  unfold line_yield, delta_content.
  generalize (js "data: ") (js "data: [DONE]"). intros prefix finished.
  destruct (starts_with prefix line) eqn:Hstart; simpl.
  2: { split; [by intros ?%elem_of_nil | by intros [? _]]. }
  destruct (bool_decide_reflect (line = finished)) as [-> | Hdone]; simpl.
  { split; [by intros ?%elem_of_nil | by intros (_ & ? & _)]. }
  destruct (JSON_parse (drop 6 line)) as [data | e] eqn:Hparse; simpl.
  2: { split; [by intros ?%elem_of_nil | by intros (_ & _ & ? & ? & ? & _)]. }
  destruct (get data "choices") as [choices | e] eqn:Hget; simpl.
  2: { split; [by intros ?%elem_of_nil |].
       intros (_ & _ & ? & ? & [= <-] & Hget' & _). congruence. }
  destruct (truthy (opt_get (opt_get (opt_first choices) "delta") "content")) eqn:Htruthy.
  - split.
    + intros ->%list_elem_of_singleton. eauto 10.
    + intros (_ & _ & ? & ? & [= <-] & Hget' & -> & _).
      rewrite Hget in Hget'. injection Hget' as <-. apply list_elem_of_singleton. done.
  - split; [by intros ?%elem_of_nil |].
    intros (_ & _ & ? & ? & [= <-] & Hget' & -> & Htrue).
    rewrite Hget in Hget'. injection Hget' as <-. congruence.
Qed.

(** X16: what the event-stream reader of the OpenAI client yields does not
    depend on where the network cuts the stream: it is what the lines that a
    line feed terminates yield, in order, so two sequences of reads with the
    same concatenation yield the same, and the text after the last line feed
    is never looked at, even when the stream ends there. *)
Theorem stream_yields_ignore_read_boundaries JSON_parse reads :
  read_loop JSON_parse [] reads
  = mjoin (line_yield JSON_parse <$> complete_lines reads)
  ∧ (∀ reads', concat reads' = concat reads →
       read_loop JSON_parse [] reads' = read_loop JSON_parse [] reads)
  ∧ (∀ tail, LF ∉ tail →
       read_loop JSON_parse [] (reads ++ [tail]) = read_loop JSON_parse [] reads).
Proof.
  assert (Hlines : ∀ rs, read_loop JSON_parse [] rs
                         = mjoin (line_yield JSON_parse <$> complete_lines rs)).
  { intros rs. by rewrite read_loop_lines by apply not_elem_of_nil. }
  split; [apply Hlines |]. split.
  - intros reads' Hsame. rewrite !Hlines. unfold complete_lines. by rewrite Hsame.
  - intros tail Htail. rewrite !Hlines. unfold complete_lines.
    rewrite concat_app. simpl. rewrite app_nil_r, split_lines_app.
    pose proof (split_lines_last_no_LF (concat reads)) as Hlast.
    rewrite (split_lines_no_LF (List.last (split_lines (concat reads)) [] ++ tail)).
    + rewrite removelast_app_not_nil by done. simpl. by rewrite app_nil_r.
    + intros [? | ?]%elem_of_app; done.
Qed.

(** X17: the stream of the OpenAI client yields exactly the truthy
    [choices[0].delta.content] of the complete [data: ] lines, other than
    [data: [DONE]], whose payload parses; a line that does not parse or has
    no such content is skipped and never makes the stream throw: the stream
    throws only what the request threw, the error of a status outside
    200..299, the error of a missing body, or what reading the body
    threw. *)
Theorem openai_stream_skips_malformed_lines JSON_parse fetched :
  (∀ v, v ∈ (openai_stream JSON_parse fetched).1
     ↔ ∃ response reads failure line data choices,
         fetched = Ok response
         ∧ (200 ≤ st_status response ≤ 299)%Z
         ∧ st_body response = Some (reads, failure)
         ∧ line ∈ complete_lines reads
         ∧ starts_with (js "data: ") line = true ∧ line ≠ js "data: [DONE]"
         ∧ JSON_parse (drop 6 line) = Ok data ∧ get data "choices" = Ok choices
         ∧ v = delta_content choices ∧ truthy v = true)
  ∧ (∀ e, (openai_stream JSON_parse fetched).2 = Some e →
       fetched = Throw e
       ∨ ∃ response, fetched = Ok response
           ∧ (((st_status response < 200 ∨ 299 < st_status response)%Z
               ∧ e = ThrownError (js "Error")
                       (js "OpenAI API error: " ++ st_statusText response))
              ∨ (st_body response = None ∧ e = new_Error "No response body")
              ∨ ∃ reads, st_body response = Some (reads, Some e))).
Proof.
  unfold openai_stream. destruct fetched as [response | e0].
  2: { simpl. split; [|intros e [= <-]; by left].
       intros v. split; [by intros ?%elem_of_nil | by intros (? & ? & ? & ? & ? & ? & ? & _)]. }
  destruct ((200 <=? st_status response)%Z && (st_status response <=? 299)%Z) eqn:Hok; simpl.
  2: { apply andb_false_iff in Hok.
       split.
       - intros v. split; [by intros ?%elem_of_nil |].
         intros (? & ? & ? & ? & ? & ? & [= <-] & Hstatus & _).
         destruct Hok as [?%Z.leb_gt | ?%Z.leb_gt]; lia.
       - intros e [= <-]. right. exists response. split; [done |]. left. split; [|done].
         destruct Hok as [?%Z.leb_gt | ?%Z.leb_gt]; lia. }
  apply andb_true_iff in Hok as [Hlow%Z.leb_le Hhigh%Z.leb_le].
  destruct (st_body response) as [[reads failure] |] eqn:Hbody; simpl.
  2: { split.
       - intros v. split; [by intros ?%elem_of_nil |].
         intros (? & ? & ? & ? & ? & ? & [= <-] & _ & Hbody' & _). congruence.
       - intros e [= <-]. right. exists response. split; [done |]. right. left. done. }
  split.
  - intros v. rewrite read_loop_lines by apply not_elem_of_nil. simpl.
    rewrite list_elem_of_join. split.
    + intros (yielded & Hv & Hyielded).
      apply list_elem_of_fmap in Hyielded as (line & -> & Hline).
      apply line_yield_elem in Hv
        as (Hstart & Hdone & data & choices & Hparse & Hget & -> & Ht).
      exists response, reads, failure, line, data, choices. done.
    + intros (? & reads' & ? & line & data & choices & [= <-] & _ & Hbody' & Hline
              & Hstart & Hdone & Hparse & Hget & Hv & Ht).
      rewrite Hbody in Hbody'. injection Hbody' as <- <-.
      exists (line_yield JSON_parse line). split.
      * apply line_yield_elem. eauto 10.
      * apply list_elem_of_fmap. eauto.
  - intros e ->. right. exists response. split; [done |]. right. right. eauto.
Qed.

Lemma stream_yields_ignore_read_boundaries_witness :
  concat [concat demo_reads] = concat demo_reads
  ∧ read_loop reads_JSON_parse [] [concat demo_reads]
    = read_loop reads_JSON_parse [] demo_reads
  ∧ read_loop reads_JSON_parse [] demo_reads = [JStr (js "Hel"); JStr (js "lo")].
Proof.
  assert (Hsame : concat [concat demo_reads] = concat demo_reads)
    by (vm_compute; reflexivity).
  split; [exact Hsame |]. split.
  - exact (proj1 (proj2 (stream_yields_ignore_read_boundaries reads_JSON_parse demo_reads))
             [concat demo_reads] Hsame).
  - vm_compute. reflexivity.
Defined.

Lemma find_role_app role messages later :
  find_role role (messages ++ later)
  = match find_role role messages with
    | Some content => Some content
    | None => find_role role later
    end.
Proof.
  induction messages as [|[r content] rest IH]; [done |].
  simpl. by destruct (role_eqb r role).
Qed.

Lemma find_role_without role other messages :
  role ≠ other →
  find_role role (filter (λ m, negb (role_eqb m.1 other)) messages) = find_role role messages.
Proof.
  intros Hother. induction messages as [|[r content] rest IH]; [done |].
  destruct (role_eqb r other) eqn:Hr.
  - rewrite filter_cons_False by (simpl; rewrite Hr; exact id).
    rewrite IH. simpl. destruct (role_eqb r role) eqn:Hrole; [|done].
    by destruct r, role, other.
  - rewrite filter_cons_True by (simpl; rewrite Hr; exact I).
    simpl. by rewrite IH.
Qed.

Lemma find_role_repeated role messages later :
  (∀ m, m ∈ later → m.1 = role → is_Some (find_role role messages)) →
  find_role role (messages ++ later) = find_role role messages.
Proof.
  intros Hlater. rewrite find_role_app.
  destruct (find_role role messages) as [content |] eqn:Hfound; [done |].
  induction later as [|[r content] rest IH]; [done |].
  simpl. destruct (role_eqb r role) eqn:Hr.
  - destruct (Hlater (r, content)) as [? ?]; [left | by destruct r, role | done].
  - apply IH. intros m Hm. apply Hlater. by right.
Qed.

(** X18: the Gemini client sends one prompt built from the first system
    message and the first user message of the request: assistant messages
    are dropped, and so is every system or user message that comes after one
    of its own role, so a request that ends with a new user turn after an
    earlier one sends the prompt of the request without it.  When there is
    no system text the prompt is the user text alone, with no separator. *)
Theorem gemini_prompt_keeps_first_system_and_user messages :
  gemini_prompt (filter (λ m, negb (role_eqb m.1 assistant)) messages)
  = gemini_prompt messages
  ∧ (∀ later,
       (∀ m, m ∈ later → m.1 = assistant ∨ is_Some (find_role m.1 messages)) →
       gemini_prompt (messages ++ later) = gemini_prompt messages)
  ∧ (str_or (find_role system messages) [] = [] →
     gemini_prompt messages = str_or (find_role user messages) [])
  ∧ (str_or (find_role system messages) [] ≠ [] →
     gemini_prompt messages
     = str_or (find_role system messages) [] ++ GEMINI_SEPARATOR
       ++ str_or (find_role user messages) []).
Proof.
  unfold gemini_prompt. cbv zeta. split; [|split; [|split]].
  - by rewrite !find_role_without.
  - intros later Hlater.
    rewrite !find_role_repeated; [done | |].
    + intros m Hm Hrole. destruct (Hlater m Hm) as [Ha | Hsome]; [congruence |].
      by rewrite Hrole in Hsome.
    + intros m Hm Hrole. destruct (Hlater m Hm) as [Ha | Hsome]; [congruence |].
      by rewrite Hrole in Hsome.
  - by intros ->.
  - intros Hne. by destruct (str_or (find_role system messages) []).
Qed.

Lemma num_or_not_zero a b : b ≠ 0%Z → num_or a b ≠ 0%Z.
Proof.
  intros Hb. destruct a as [n |]; simpl; [|done].
  destruct (Z.eqb_spec n 0); done.
Qed.

Lemma q_or_not_zero a b : ¬ b == 0 → ¬ q_or a b == 0.
Proof.
  intros Hb. destruct a as [q |]; simpl; [|done].
  destruct (Qeq_bool q 0) eqn:Hq; [done |].
  intros Hzero. apply Qeq_bool_iff in Hzero. congruence.
Qed.

(** X19: a generation client that was constructed never sends a token limit
    of 0: a limit of 0 in the request falls back to the client's, and a
    limit of 0 in the configuration to the default of the backend.  The
    temperature is asymmetric: a client cannot be configured with
    temperature 0 (the default replaces it), so a request without a
    temperature is never sent with 0, while a temperature a request asks
    for, 0 included, is sent as it is. *)
Theorem constructed_client_sends_positive_limit env config client req :
  new_OpenAIClient env config = Ok client ∨ new_GeminiClient env config = Ok client →
  effective_maxTokens client req ≠ 0%Z
  ∧ (req_temperature req = None → ¬ effective_temperature client req == 0)
  ∧ (∀ t, req_temperature req = Some t → effective_temperature client req = t)
  ∧ (config = None →
     ai_maxTokens (client_config client)
     = match client with OpenAIClient _ => 4096%Z | GeminiClient _ => 8192%Z end
     ∧ ai_temperature (client_config client) = 7 # 10).
Proof.
  intros Hclient.
  assert (Hcfg : ∃ key model fallback,
            (fallback = 4096%Z ∨ fallback = 8192%Z)
            ∧ client_config client
              = {| ai_apiKey := key; ai_model := model;
                   ai_maxTokens := num_or (config ≫= pai_maxTokens) fallback;
                   ai_temperature := q_or (config ≫= pai_temperature) (7 # 10) |}
            ∧ fallback = match client with
                         | OpenAIClient _ => 4096%Z | GeminiClient _ => 8192%Z end).
  { destruct Hclient as [Hclient | Hclient];
      [unfold new_OpenAIClient in Hclient | unfold new_GeminiClient in Hclient];
      cbv zeta in Hclient;
      match type of Hclient with
      | (if is_empty ?k then _ else _) = _ => destruct (is_empty k); [done |]
      end;
      injection Hclient as <-; simpl; eauto 10. }
  destruct Hcfg as (key & model & fallback & Hfallback & Hcfg & Hkind).
  unfold effective_maxTokens, effective_temperature. rewrite Hcfg. simpl.
  split; [|split; [|split]].
  - apply num_or_not_zero, num_or_not_zero. destruct Hfallback; lia.
  - intros ->. simpl. by apply q_or_not_zero.
  - by intros t ->.
  - intros ->. simpl. by rewrite <- Hkind.
Qed.

Lemma constructed_client_sends_positive_limit_witness :
  (new_OpenAIClient demo_env None = Ok (agent_aiClient demo_agent)
   ∨ new_GeminiClient demo_env None = Ok (agent_aiClient demo_agent))
  ∧ effective_maxTokens (agent_aiClient demo_agent)
      {| req_messages := []; req_maxTokens := Some 0%Z; req_temperature := Some 0%Q |} ≠ 0%Z.
Proof.
  assert (H : new_OpenAIClient demo_env None = Ok (agent_aiClient demo_agent)
              ∨ new_GeminiClient demo_env None = Ok (agent_aiClient demo_agent))
    by (left; vm_compute; reflexivity).
  split; [exact H |].
  exact (proj1 (constructed_client_sends_positive_limit demo_env None
                  (agent_aiClient demo_agent)
                  {| req_messages := []; req_maxTokens := Some 0%Z;
                     req_temperature := Some 0%Q |} H)).
Defined.

Lemma insert_by_volume_perm x sorted : insert_by_volume x sorted ≡ₚ x :: sorted.
Proof.
  induction sorted as [|y rest IH]; [done |].
  simpl. destruct (ks_search_volume y <=? ks_search_volume x)%Z; [done |].
  rewrite IH. apply Permutation_swap.
Qed.

Lemma sort_by_volume_perm suggestions : sort_by_volume suggestions ≡ₚ suggestions.
Proof.
  induction suggestions as [|x rest IH]; [done |].
  unfold sort_by_volume in *. simpl. by rewrite insert_by_volume_perm, IH.
Qed.

Lemma insert_by_volume_sorted x sorted :
  StronglySorted by_volume sorted → StronglySorted by_volume (insert_by_volume x sorted).
Proof.
  induction 1 as [|y rest Hrest IH Hy]; simpl.
  - constructor; [constructor | constructor].
  - destruct (Z.leb_spec (ks_search_volume y) (ks_search_volume x)) as [Hle | Hlt].
    + constructor; [by constructor |].
      constructor; [exact Hle |].
      eapply Forall_impl; [|exact Hy]. unfold by_volume in *. intros z Hz. lia.
    + constructor; [exact IH |].
      rewrite insert_by_volume_perm. constructor; [unfold by_volume; lia | exact Hy].
Qed.

Lemma sort_by_volume_sorted suggestions :
  StronglySorted by_volume (sort_by_volume suggestions).
Proof.
  induction suggestions as [|x rest IH]; [constructor |].
  by apply insert_by_volume_sorted.
Qed.

Lemma strongly_sorted_app_inv {A} (R : A → A → Prop) l1 l2 :
  StronglySorted R (l1 ++ l2) →
  StronglySorted R l1 ∧ ∀ a b, a ∈ l1 → b ∈ l2 → R a b.
Proof.
  induction l1 as [|x l1 IH]; simpl.
  - intros _. split; [constructor | by intros a b ?%elem_of_nil].
  - intros Hsorted. inversion Hsorted as [|? ? Hrest Hx]; subst.
    destruct (IH Hrest) as [Hl1 Hcross].
    apply Forall_app in Hx as [Hx1 Hx2]. split; [by constructor |].
    intros a b [-> | Ha]%elem_of_cons Hb.
    + rewrite Forall_forall in Hx2. by apply Hx2, list_elem_of_In.
    + by apply Hcross.
Qed.

Lemma insert_by_volume_filter v x sorted :
  filter (λ k, ks_search_volume k = v) (insert_by_volume x sorted)
  = filter (λ k, ks_search_volume k = v) (x :: sorted).
Proof.
  induction sorted as [|y rest IH]; [done |].
  simpl. destruct (Z.leb_spec (ks_search_volume y) (ks_search_volume x)) as [Hle | Hlt];
    [done |].
  rewrite filter_cons, IH, !filter_cons.
  destruct (decide (ks_search_volume y = v)) as [Hy | Hy];
    destruct (decide (ks_search_volume x = v)) as [Hx | Hx]; try done.
  lia.
Qed.

(** X20: the keyword block of the research prompt reports the number of all
    suggestions but lists at most 30 of them: the list has
    [min 30 (length suggestions)] entries, in order of non-increasing search
    volume; they are suggestions of the input, and no suggestion left out
    has a larger volume than a listed one; suggestions of equal volume keep
    the order of the input (the sort is stable).  So the block joins two
    sections for an empty input and three more than the listed entries
    otherwise, and it starts with the heading and the total. *)
Theorem keyword_block_lists_thirty_largest number_to_string suggestions :
  length (top_keywords suggestions) = (30 `min` length suggestions)%nat
  ∧ StronglySorted by_volume (top_keywords suggestions)
  ∧ (∃ rest, top_keywords suggestions ++ rest ≡ₚ suggestions
             ∧ ∀ a b, a ∈ top_keywords suggestions → b ∈ rest → by_volume a b)
  ∧ (∀ v, filter (λ k, ks_search_volume k = v) (sort_by_volume suggestions)
          = filter (λ k, ks_search_volume k = v) suggestions)
  ∧ length (Formatter.sections number_to_string suggestions)
    = match suggestions with
      | [] => 2%nat
      | _ :: _ => (3 + 30 `min` length suggestions)%nat
      end
  ∧ (∃ listing,
       Formatter.formatKeywordSuggestions number_to_string suggestions
       = js "### Keyword Suggestions" ++ [LF] ++ js "**Total Keywords Found:** "
         ++ decimal (length suggestions) ++ listing
       ∧ (suggestions = [] → listing = [])).
Proof.
  assert (Hlength : length (top_keywords suggestions) = (30 `min` length suggestions)%nat).
  { unfold top_keywords. by rewrite length_take, (Permutation_length (sort_by_volume_perm _)). }
  pose proof (sort_by_volume_sorted suggestions) as Hsorted.
  rewrite <- (take_drop 30 (sort_by_volume suggestions)) in Hsorted.
  apply strongly_sorted_app_inv in Hsorted as [Htop Hcross].
  split; [exact Hlength |]. split; [exact Htop |]. split; [|split; [|split]].
  - exists (drop 30 (sort_by_volume suggestions)). split; [|exact Hcross].
    unfold top_keywords. by rewrite take_drop, sort_by_volume_perm.
  - intros v. induction suggestions as [|x rest IH]; [done |].
    change (sort_by_volume (x :: rest)) with (insert_by_volume x (sort_by_volume rest)).
    rewrite insert_by_volume_filter, !filter_cons.
    assert (Hrest : filter (λ k, ks_search_volume k = v) (sort_by_volume rest)
                    = filter (λ k, ks_search_volume k = v) rest).
    { clear -rest. induction rest as [|y rest IH]; [done |].
      change (sort_by_volume (y :: rest)) with (insert_by_volume y (sort_by_volume rest)).
      by rewrite insert_by_volume_filter, !filter_cons, IH. }
    by rewrite Hrest.
  - unfold Formatter.sections. destruct suggestions as [|x rest]; [done |].
    rewrite length_app. cbn [length]. by rewrite length_imap, Hlength.
  - unfold Formatter.formatKeywordSuggestions, Formatter.sections.
    generalize (js "### Keyword Suggestions") (js "**Total Keywords Found:** ").
    intros heading total. destruct suggestions as [|x rest].
    + exists []. split; [|done]. cbn [app join]. by rewrite app_nil_r.
    + eexists. split; [cbn [app join]; rewrite <- !app_assoc; reflexivity | done].
Qed.

Lemma keyword_block_lists_thirty_largest_witness :
  filter (λ k, ks_search_volume k = 300%Z) (sort_by_volume demo_suggestions)
  = filter (λ k, ks_search_volume k = 300%Z) demo_suggestions
  ∧ ks_keyword <$> top_keywords demo_suggestions = [js "b"; js "a"; js "c"].
Proof.
  split.
  - exact (proj1 (proj2 (proj2 (proj2
             (keyword_block_lists_thirty_largest (λ _, []) demo_suggestions)))) 300%Z).
  - vm_compute. reflexivity.
Defined.

(** X21: the parsers of the two structured phases do not validate: when the
    brace span of a response parses, the parsed value is the phase's result
    whatever it holds, and the fallback plan is not used.  A keyword plan
    obtained this way that has no [primaryKeyword] cannot be assembled into
    a result: the property access of the last step throws for every
    outline, article and token count. *)
Theorem parsed_plan_is_not_validated JSON_parse content span v :
  match_json_span content = Some span →
  JSON_parse span = Ok v →
  (∀ topic, parseKeywordResearchResponse JSON_parse content topic = Ok v)
  ∧ (∀ keywordResearch, parseOutlineResponse JSON_parse content keywordResearch = Ok v)
  ∧ ((∃ p, get v "primaryKeyword" = Ok p ∧ nullish p) →
     ∀ w input outline articleContent tokens out,
       build_output w input outline v articleContent tokens ≠ Ok out).
Proof.
  intros Hspan Hparse. split; [|split].
  - intros topic. unfold parseKeywordResearchResponse. rewrite Hspan. simpl.
    by rewrite Hparse.
  - intros keywordResearch. unfold parseOutlineResponse. rewrite Hspan. simpl.
    by rewrite Hparse.
  - intros (p & Hp & Hnull) w input outline articleContent tokens out H.
    unfold build_output in H.
    do 6 (apply bind_Ok_inv in H; destruct H as (? & _ & H)).
    apply bind_Ok_inv in H. destruct H as (primary & Hprimary & H).
    apply bind_Ok_inv in H. destruct H as (keyword & Hkeyword & _).
    rewrite Hp in Hprimary. injection Hprimary as <-.
    by apply get_Ok_not_nullish in Hkeyword.
Qed.

Lemma parsed_plan_is_not_validated_witness :
  match_json_span empty_object_response = Some (js "{}")
  ∧ parseKeywordResearchResponse (λ _, Ok (JObj [])) empty_object_response (js "topic")
    = Ok (JObj [])
  ∧ ∀ out, build_output demo_world demo_input (JObj []) (JObj []) [] 
             {| tok_keywordResearch := 0; tok_outline := 0; tok_article := 0 |} ≠ Ok out.
Proof.
  assert (Hspan : match_json_span empty_object_response = Some (js "{}"))
    by (vm_compute; reflexivity).
  destruct (parsed_plan_is_not_validated (λ _, Ok (JObj [])) empty_object_response
              (js "{}") (JObj []) Hspan eq_refl) as (Hkeyword & _ & Hbuild).
  split; [exact Hspan |]. split; [apply Hkeyword |].
  apply Hbuild. exists JUndefined. split; [reflexivity | by left].
Defined.

Lemma is_ws_not_markdown c : is_ws c = true → is_markdown_char c = false.
Proof.
  unfold is_markdown_char. intros Hws.
  repeat (apply orb_false_intro); apply N.eqb_neq; intros ->; discriminate Hws.
Qed.

Lemma count_tokens_at_ws after_ws a c b :
  is_ws c = true →
  count_tokens after_ws (a ++ c :: b)
  = (count_tokens after_ws a + count_tokens true b)%nat.
Proof.
  intros Hc. revert after_ws. induction a as [|d a IH]; intros after_ws; simpl.
  - by rewrite Hc.
  - destruct (is_ws d); [apply IH |]. rewrite IH. lia.
Qed.

Lemma count_tokens_after_ws s :
  (count_tokens false s ≤ count_tokens true s ≤ count_tokens false s + 1)%nat.
Proof.
  destruct s as [|c r]; simpl; [lia |]. destruct (is_ws c); lia.
Qed.

Lemma count_tokens_app after_ws a b :
  (count_tokens after_ws a + count_tokens true b - 1 ≤ count_tokens after_ws (a ++ b)
   ≤ count_tokens after_ws a + count_tokens true b)%nat.
Proof.
  revert after_ws. induction a as [|d a IH]; intros after_ws; simpl.
  - pose proof (count_tokens_after_ws b). destruct after_ws; lia.
  - destruct (is_ws d); [apply IH |]. specialize (IH false). lia.
Qed.

Lemma count_tokens_zero s :
  count_tokens true s = 0%nat ↔ Forall (λ c, is_ws c = true) s.
Proof.
  induction s as [|c r IH]; simpl.
  - split; [constructor | done].
  - destruct (is_ws c) eqn:Hc.
    + rewrite IH. split; [by constructor | by inversion 1].
    + split; [lia | inversion 1; congruence].
Qed.

Lemma strip_markdown_app a b :
  strip_markdown (a ++ b) = strip_markdown a ++ strip_markdown b.
Proof. apply list.filter_app. Qed.

Lemma countWords_at_ws a c b :
  is_ws c = true → countWords (a ++ c :: b) = (countWords a + countWords b)%nat.
Proof.
  intros Hc. rewrite !countWords_spec. unfold spec_word_count.
  change (filter (λ c, is_markdown_char c = false)) with strip_markdown.
  rewrite strip_markdown_app. unfold strip_markdown at 2.
  rewrite filter_cons_True by by apply is_ws_not_markdown.
  by apply count_tokens_at_ws.
Qed.

Lemma split_lines_cases s :
  ((LF ∉ s) ∧ split_lines s = [s])
  ∨ ∃ a b, s = a ++ LF :: b ∧ split_lines s = a :: split_lines b.
Proof.
  induction s as [|c r IH]; [left; split; [apply not_elem_of_nil | done] |].
  simpl. destruct (N.eqb_spec c LF) as [-> | Hc].
  - right. by exists [], r.
  - destruct IH as [[Hno ->] | (a & b & -> & ->)].
    + left. split; [by apply not_elem_of_cons | done].
    + right. by exists (c :: a), b.
Qed.

Lemma countWords_lines s : countWords s = sum_nat (countWords <$> split_lines s).
Proof.
  remember (length s) as n eqn:Hn. revert s Hn.
  induction n as [n IH] using lt_wf_ind. intros s ->.
  destruct (split_lines_cases s) as [[_ ->] | (a & b & -> & ->)].
  - simpl. lia.
  - rewrite countWords_at_ws by done. simpl. f_equal.
    apply (IH (length b)); [rewrite length_app; simpl; lia | done].
Qed.

(** X22: how the word count composes.  Whitespace separates: the count of
    two texts joined by a whitespace character is the sum of their counts,
    so the count of a text is the sum of the counts of its lines.  Plain
    concatenation can merge the last word of the first text with the first
    word of the second, and does nothing else: the count of [a ++ b] is the
    sum or one less.  The count is 0 exactly when every character is
    whitespace or one of the stripped markdown characters, and stripping
    the markdown characters first does not change it. *)
Theorem word_count_composes :
  (∀ a c b, is_ws c = true → countWords (a ++ c :: b) = (countWords a + countWords b)%nat)
  ∧ (∀ text, countWords text = sum_nat (countWords <$> split_lines text))
  ∧ (∀ a b, (countWords a + countWords b - 1 ≤ countWords (a ++ b)
             ≤ countWords a + countWords b)%nat)
  ∧ (∀ text, countWords text = 0%nat
             ↔ Forall (λ c, is_ws c = true ∨ is_markdown_char c = true) text)
  ∧ (∀ text, countWords (strip_markdown text) = countWords text).
Proof.
  split; [exact countWords_at_ws |]. split; [exact countWords_lines |].
  split; [|split].
  - intros a b. rewrite !countWords_spec. unfold spec_word_count.
    change (filter (λ c, is_markdown_char c = false)) with strip_markdown.
    rewrite strip_markdown_app. apply count_tokens_app.
  - intros text. rewrite countWords_spec. unfold spec_word_count.
    rewrite count_tokens_zero. induction text as [|c r IH]; [done |].
    rewrite filter_cons, list.Forall_cons.
    destruct (decide (is_markdown_char c = false)) as [Hc | Hc].
    + rewrite list.Forall_cons, IH. rewrite Hc.
      split; [intros [? ?]; auto | intros [[? | ?] ?]; [auto | done]].
    + rewrite IH. apply not_false_iff_true in Hc.
      split; [auto | by intros [_ ?]].
  - intros text. rewrite !countWords_spec. unfold spec_word_count, strip_markdown.
    by rewrite list_filter_filter_l.
Qed.

(** X23: the two routes answer one request alike.  When the agent cannot be
    constructed, the buffered route replies 500 [GENERATION_ERROR] with the
    constructor's message and the streaming route writes that message as its
    only event.  When the buffered route replies with a result, and the
    provider streams the article request without failing, as fragments that
    concatenate to the text [complete] returns for it, the streaming route
    ends its stream without a JSON body and writes one [complete] event,
    which carries the [data] of the buffered reply.  A buffered reply to an
    accepted request is a result with [success] set or a 500
    [GENERATION_ERROR]. *)
Theorem routes_answer_alike JSON_parse tpl w input provider :
  let env := process_env w in
  let res := post_generate_stream JSON_parse tpl w (Some input) provider in
  (∀ e, new_ContentGeneratorAgent env (Some (provider_of_query provider)) = Throw e →
     post_generate JSON_parse tpl w (Some input) provider
     = ReplyError 500 GENERATION_ERROR (message_of e)
     ∧ res_written res = [ error_event (message_of e) GENERATION_ERROR ])
  ∧ (∀ out,
       post_generate JSON_parse tpl w (Some input) provider = ReplyResult out →
       (∀ client prompt response,
          ai_complete w client (article_request tpl prompt) = Ok response →
          ∃ fragments,
            ai_stream w client (article_request tpl prompt) = (fragments, None)
            ∧ concat fragments = resp_content response) →
       success out = true
       ∧ ∃ result, completions (res_written res) = [result]
                   ∧ data result = data out
                   ∧ res_ended res = true ∧ res_json res = None)
  ∧ (∀ status code message,
       post_generate JSON_parse tpl w (Some input) provider
       = ReplyError status code message →
       status = 500%nat ∧ code = GENERATION_ERROR).
Proof.
  cbv zeta. unfold post_generate, post_generate_stream.
  destruct (new_ContentGeneratorAgent (process_env w) (Some (provider_of_query provider)))
    as [agent | e0] eqn:Hagent.
  2: { simpl. split; [by intros e [= <-] |]. split; [done |]. by intros ? ? ? [= <- <- _]. }
  rewrite result_bind_Ok.
  split; [done |]. split.
  - intros out Hreply Hprovider.
    destruct (generate JSON_parse tpl w agent input) as [out' | e] eqn:Hbuffered; [|done].
    injection Hreply as ->.
    destruct (stream_matches_buffered JSON_parse tpl w agent input out Hbuffered)
      as (events & result & _ & _ & _ & _ & Hrun & Hdone & _ & Hdata & _).
    { intros prompt response. apply Hprovider. }
    destruct (generate_inv _ _ _ _ _ _ Hbuffered) as (? & ? & ? & ? & _ & Hbuild).
    apply build_output_inv in Hbuild as (Hsuccess & _).
    split; [exact Hsuccess |]. exists result. rewrite Hrun.
    destruct (written_foldl events (res_flushHeaders fresh_response)) as (Hw & _ & Hj).
    simpl in *. rewrite Hw, Hj. done.
  - intros status code message.
    destruct (generate JSON_parse tpl w agent input); [done |]. by intros [= <- <- _].
Qed.

Lemma routes_answer_alike_witness :
  ∃ out result,
    post_generate demo_JSON_parse demo_templates demo_world (Some demo_input) None
    = ReplyResult out
    ∧ completions
        (res_written
           (post_generate_stream demo_JSON_parse demo_templates demo_world
              (Some demo_input) None)) = [result]
    ∧ data result = data out.
Proof.
  eexists.
  assert (Hreply :
    post_generate demo_JSON_parse demo_templates demo_world (Some demo_input) None
    = ReplyResult _) by (vm_compute; reflexivity).
  destruct (proj1 (proj2 (routes_answer_alike demo_JSON_parse demo_templates demo_world
                            demo_input None)) _ Hreply)
    as (_ & result & Hdone & Hdata & _).
  { intros client prompt response [= <-]. exists demo_fragments. split; reflexivity. }
  exists result. repeat split; assumption.
Defined.
